(** * TrendRadar: keyword association and AI annotation

    A shallow embedding of [stock_association.py] and [mcp_enhance.py],
    and the properties of the two modules.

    - A Python [str] is a [string] holding the UTF-8 encoding of the
      text; substring search on the encodings agrees with substring search
      on code points. [str.lower] is taken from the surroundings.
    - Data the programs only read or build once (the loaded keyword
      tables, decoded HTTP bodies, the match records) is a [json] tree.
      Dictionaries are association lists in insertion order, which is the
      order Python iterates and copies them in.
    - Objects that are updated in place or whose identity matters (news
      items, payload dictionaries and their copies, the associator
      instance) live in a store and are referred to by location. A list
      that a loop builds up locally is threaded through the loop and
      enters the store when it is complete.
    - A Python exception is an explicit result, and [try]/[except] an
      operation on results.
    - The file system, the environment, the JSON decoder and the HTTP
      service are variables of the section that holds the programs. A
      [Path] is kept as its text, [str(Path(p))], which is the path in
      normal form; asking whether it exists is a call that can raise. *)

From Stdlib Require Import ZArith List String Ascii Lia Bool.
From Stdlib Require Import Sorting.Sorted Sorting.Permutation.
From Stdlib Require Import Floats.SpecFloat.
From Stdlib Require Import DecimalString.
From stdpp Require Import base list strings.

Open Scope string_scope.
Open Scope list_scope.
Open Scope Z_scope.

Set Warnings "-register-all".

(** ** Text *)

Module Text.

(** [s.startswith(p)] *)
Fixpoint starts_with (p s : string) : bool :=
  match p, s with
  | EmptyString, _ => true
  | String _ _, EmptyString => false
  | String a p', String b s' => if Ascii.eqb a b then starts_with p' s' else false
  end.

(** [needle in hay] for two strings *)
Fixpoint contains (needle hay : string) : bool :=
  starts_with needle hay
  || match hay with
     | EmptyString => false
     | String _ hay' => contains needle hay'
     end.

(** The property [contains] decides. *)
Definition occurs_in (needle hay : string) : Prop :=
  exists pre post, hay = pre +:+ needle +:+ post.

Fixpoint drop (n : nat) (s : string) : string :=
  match n, s with
  | O, _ => s
  | S _, EmptyString => EmptyString
  | S n', String _ s' => drop n' s'
  end.

(** [s.split(sep)] for a non-empty separator: cut at every occurrence,
    scanning left to right, occurrences not overlapping. [skip] counts
    the characters of a separator still to be passed over and [cur] holds
    the piece being read, reversed. *)
Fixpoint split_go (sep s : string) (skip : nat) (cur : list ascii) : list string :=
  match s with
  | EmptyString => [string_of_list_ascii (rev cur)]
  | String a s' =>
      match skip with
      | S k => split_go sep s' k cur
      | O =>
          if starts_with sep s
          then string_of_list_ascii (rev cur) :: split_go sep s' (String.length sep - 1) []
          else split_go sep s' O (a :: cur)
      end
  end.

Definition split (sep s : string) : list string := split_go sep s O [].

(** [sep.join(parts)] *)
Fixpoint join (sep : string) (parts : list string) : string :=
  match parts with
  | [] => EmptyString
  | [p] => p
  | p :: rest => p +:+ sep +:+ join sep rest
  end.

(** The encodings of the characters [str.strip()] removes: the code
    points for which [str.isspace()] holds. *)
Definition byte (n : nat) : ascii := ascii_of_nat n.
Definition enc1 (a : nat) : string := String (byte a) EmptyString.
Definition enc2 (a b : nat) : string := String (byte a) (enc1 b).
Definition enc3 (a b c : nat) : string := String (byte a) (enc2 b c).

Definition whitespace : list string :=
  List.map enc1 [9; 10; 11; 12; 13; 28; 29; 30; 31; 32]%nat
  ++ [enc2 194 133; enc2 194 160; enc3 225 154 128]
  ++ List.map (enc3 226 128) [128; 129; 130; 131; 132; 133; 134; 135; 136; 137; 138]%nat
  ++ [enc3 226 128 168; enc3 226 128 169; enc3 226 128 175; enc3 226 129 159;
      enc3 227 128 128].

Definition leading_space (s : string) : option string :=
  List.find (fun w => starts_with w s) whitespace.

(** [s.lstrip()]: [fuel] bounds the number of characters removed. *)
Fixpoint lstrip_go (fuel : nat) (s : string) : string :=
  match fuel with
  | O => s
  | S fuel' =>
      match leading_space s with
      | Some w => lstrip_go fuel' (drop (String.length w) s)
      | None => s
      end
  end.

Definition lstrip (s : string) : string := lstrip_go (String.length s) s.

Definition rev_string (s : string) : string :=
  string_of_list_ascii (rev (list_ascii_of_string s)).

Definition trailing_space (r : string) : option string :=
  List.find (fun w => starts_with (rev_string w) r) whitespace.

Fixpoint rstrip_go (fuel : nat) (r : string) : string :=
  match fuel with
  | O => r
  | S fuel' =>
      match trailing_space r with
      | Some w => rstrip_go fuel' (drop (String.length w) r)
      | None => r
      end
  end.

Definition rstrip (s : string) : string :=
  rev_string (rstrip_go (String.length s) (rev_string s)).

(** [s.strip()] *)
Definition strip (s : string) : string := rstrip (lstrip s).

(** The number of bytes of the UTF-8 sequence a leading byte opens. *)
Definition utf8_width (a : ascii) : nat :=
  let n := nat_of_ascii a in
  if (n <? 192)%nat then 1%nat
  else if (n <? 224)%nat then 2%nat
  else if (n <? 240)%nat then 3%nat
  else 4%nat.

(** The characters of a text, as [for c in s] yields them. [more] counts
    the continuation bytes still owed to the character in [cur]. *)
Fixpoint chars_go (s : string) (more : nat) (cur : list ascii) : list string :=
  match s with
  | EmptyString =>
      match cur with
      | [] => []
      | _ => [string_of_list_ascii (rev cur)]
      end
  | String a s' =>
      match more with
      | S k => chars_go s' k (a :: cur)
      | O =>
          match cur with
          | [] => chars_go s' (utf8_width a - 1) [a]
          | _ => string_of_list_ascii (rev cur) :: chars_go s' (utf8_width a - 1) [a]
          end
      end
  end.

Definition chars (s : string) : list string := chars_go s O [].

(** Decimal rendering of an integer, as [str(n)] gives it. *)
Definition of_Z (n : Z) : string := NilZero.string_of_int (Z.to_int n).

Definition quote (s : string) : string := "'" +:+ s +:+ "'".

(** The line feed and the double quote, which the literals of this file
    do not spell out. *)
Definition nl : string := enc1 10.
Definition dq : string := enc1 34.

End Text.


(** ** Immutable data *)

(** A JSON value as [json.load] builds it. Dictionaries keep their keys in
    insertion order, as Python's do. *)
Inductive json : Type :=
| JNull
| JBool (b : bool)
| JInt (n : Z)
| JFloat (f : spec_float)
| JStr (s : string)
| JList (xs : list json)
| JDict (kvs : list (string * json)).

Inductive exn_class : Type :=
| KeyError | IndexError | TypeError | AttributeError | ValueError | OSError | RequestException.

(** An exception: its class and the text [str(e)] gives. *)
Record exn : Type := Exn { exn_kind : exn_class; exn_text : string }.

(** The result of an expression that may raise. *)
Inductive res (A : Type) : Type :=
| Ok (a : A)
| Raise (e : exn).
Arguments Ok {A} a.
Arguments Raise {A} e.

Definition rbind {A B} (r : res A) (f : A -> res B) : res B :=
  match r with
  | Ok a => f a
  | Raise e => Raise e
  end.

Declare Scope res_scope.
Delimit Scope res_scope with res.
Notation "x <- c1 ;; c2" := (rbind c1 (fun x => c2))
  (at level 100, c1 at next level, right associativity) : res_scope.

(** [for x in xs: acc = body(acc, x)], stopping at the first exception. *)
Fixpoint rfor {A B} (xs : list A) (acc : B) (body : B -> A -> res B) : res B :=
  match xs with
  | [] => Ok acc
  | x :: rest => rbind (body acc x) (fun acc' => rfor rest acc' body)
  end.

Fixpoint rmap {A B} (f : A -> res B) (xs : list A) : res (list B) :=
  match xs with
  | [] => Ok []
  | x :: rest => rbind (f x) (fun y => rbind (rmap f rest) (fun ys => Ok (y :: ys)))
  end.

(** Dictionaries as association lists in insertion order. *)
Fixpoint assoc {V} (k : string) (d : list (string * V)) : option V :=
  match d with
  | [] => None
  | (k', v) :: rest => if String.eqb k k' then Some v else assoc k rest
  end.

(** [d[k] = v]: an existing key keeps its place, a new one goes last. *)
Fixpoint dict_set {V} (k : string) (v : V) (d : list (string * V)) : list (string * V) :=
  match d with
  | [] => [(k, v)]
  | (k', v') :: rest => if String.eqb k k' then (k, v) :: rest else (k', v') :: dict_set k v rest
  end.

Module Json.

Definition type_name (j : json) : string :=
  match j with
  | JNull => "NoneType"
  | JBool _ => "bool"
  | JInt _ => "int"
  | JFloat _ => "float"
  | JStr _ => "str"
  | JList _ => "list"
  | JDict _ => "dict"
  end.

Definition no_attribute (ty attr : string) : exn :=
  Exn AttributeError (Text.quote ty +:+ " object has no attribute " +:+ Text.quote attr).

Definition not_iterable (ty : string) : exn :=
  Exn TypeError (Text.quote ty +:+ " object is not iterable").

Definition not_container (ty : string) : exn :=
  Exn TypeError ("argument of type " +:+ Text.quote ty +:+ " is not iterable").

Definition bad_subscript (ty : string) : exn :=
  Exn TypeError
    (if String.eqb ty "list" then "list indices must be integers or slices, not str"
     else if String.eqb ty "str" then "string indices must be integers, not 'str'"
     else Text.quote ty +:+ " object is not subscriptable").

Definition no_len (ty : string) : exn :=
  Exn TypeError ("object of type " +:+ Text.quote ty +:+ " has no len()").

Definition key_error (k : string) : exn := Exn KeyError (Text.quote k).

(** [bool(j)] *)
Definition truthy (j : json) : bool :=
  match j with
  | JNull => false
  | JBool b => b
  | JInt n => negb (n =? 0)
  | JFloat (S754_zero _) => false
  | JFloat _ => true
  | JStr s => negb (String.eqb s EmptyString)
  | JList xs => match xs with [] => false | _ => true end
  | JDict kvs => match kvs with [] => false | _ => true end
  end.

(** [j[k]] with a string key *)
Definition getitem (j : json) (k : string) : res json :=
  match j with
  | JDict kvs =>
      match assoc k kvs with
      | Some v => Ok v
      | None => Raise (key_error k)
      end
  | _ => Raise (bad_subscript (type_name j))
  end.

(** [j.get(k, default)] *)
Definition get (j : json) (k : string) (default : json) : res json :=
  match j with
  | JDict kvs =>
      match assoc k kvs with
      | Some v => Ok v
      | None => Ok default
      end
  | _ => Raise (no_attribute (type_name j) "get")
  end.

(** The items [for x in j] yields. *)
Definition iter (j : json) : res (list json) :=
  match j with
  | JList xs => Ok xs
  | JStr s => Ok (List.map JStr (Text.chars s))
  | JDict kvs => Ok (List.map (fun kv => JStr (fst kv)) kvs)
  | _ => Raise (not_iterable (type_name j))
  end.

Definition is_str (s : string) (j : json) : bool :=
  match j with
  | JStr t => String.eqb s t
  | _ => false
  end.

(** [s in j] for a string [s] *)
Definition contains (s : string) (j : json) : res bool :=
  match j with
  | JStr t => Ok (Text.contains s t)
  | JList xs => Ok (existsb (is_str s) xs)
  | JDict kvs => Ok (existsb (fun kv => String.eqb s (fst kv)) kvs)
  | _ => Raise (not_container (type_name j))
  end.

(** [len(j)] *)
Definition len (j : json) : res Z :=
  match j with
  | JList xs => Ok (Z.of_nat (length xs))
  | JDict kvs => Ok (Z.of_nat (length kvs))
  | JStr s => Ok (Z.of_nat (length (Text.chars s)))
  | _ => Raise (no_len (type_name j))
  end.

End Json.

(** ** The store *)

(** A value held by a variable or a field: immutable data, or a reference
    to an object of the store. *)
Inductive val : Type :=
| VJ (j : json)
| VRef (l : nat).

(** [StockAssociator] instances: the path and the two keyword tables. *)
Record StockAssociator : Type := {
  config_path : string;
  stock_mappings : json;
  industry_mappings : json
}.

Inductive obj : Type :=
| ODict (kvs : list (string * val))
| OList (xs : list val)
| OAssoc (a : StockAssociator).

(** A JSON-RPC call sent with [requests.post], and what comes back. *)
Record request : Type := {
  req_url : string;
  req_method : string;
  req_prompt : option string;
  req_id : Z;
  req_timeout : Z
}.

Record response : Type := {
  status_code : Z;
  response_json : res json
}.

Inductive event : Type :=
| Printed (line : string)
| Posted (r : request)
| Slept (milliseconds : Z).

(** The state of the process: the store, what has been printed and sent so
    far, and the module-level [_stock_associator]. *)
Record state : Type := {
  heap : list obj;
  trace : list event;
  stock_associator_global : option nat
}.

Definition with_heap (s : state) (h : list obj) : state :=
  {| heap := h; trace := trace s; stock_associator_global := stock_associator_global s |}.

Definition with_event (s : state) (e : event) : state :=
  {| heap := heap s; trace := trace s ++ [e]; stock_associator_global := stock_associator_global s |}.

Definition with_global (s : state) (l : nat) : state :=
  {| heap := heap s; trace := trace s; stock_associator_global := Some l |}.

(** The outcome of a statement: it returns, it raises, or it steps outside
    what the store can express (a reference to nothing, an update of
    immutable data); [Stuck] is no Python exception and no handler sees it. *)
Inductive outcome (A : Type) : Type :=
| Return (a : A) (s : state)
| Throw (e : exn) (s : state)
| Stuck.
Arguments Return {A} a s.
Arguments Throw {A} e s.
Arguments Stuck {A}.

Definition M (A : Type) : Type := state -> outcome A.

Definition ret {A} (a : A) : M A := fun s => Return a s.

Definition bind {A B} (m : M A) (f : A -> M B) : M B :=
  fun s =>
    match m s with
    | Return a s' => f a s'
    | Throw e s' => Throw e s'
    | Stuck => Stuck
    end.

Definition throw {A} (e : exn) : M A := fun s => Throw e s.

Definition stuck {A} : M A := fun _ => Stuck.

(** [try: m except Exception as e: handler(e)] *)
Definition try_except {A} (m : M A) (handler : exn -> M A) : M A :=
  fun s =>
    match m s with
    | Throw e s' => handler e s'
    | o => o
    end.

Definition lift {A} (r : res A) : M A :=
  match r with
  | Ok a => ret a
  | Raise e => throw e
  end.

Declare Scope M_scope.
Delimit Scope M_scope with M.
Notation "x <- c1 ;; c2" := (bind c1 (fun x => c2))
  (at level 100, c1 at next level, right associativity) : M_scope.
Notation "c1 ;; c2" := (bind c1 (fun _ => c2))
  (at level 100, right associativity) : M_scope.

(** [for x in xs: acc = body(acc, x)] *)
Fixpoint fold_for {A B} (xs : list A) (acc : B) (body : B -> A -> M B) : M B :=
  match xs with
  | [] => ret acc
  | x :: rest => bind (body acc x) (fun acc' => fold_for rest acc' body)
  end.

Definition get_heap : M (list obj) := fun s => Return (heap s) s.

Definition deref (l : nat) : M obj :=
  fun s =>
    match heap s !! l with
    | Some o => Return o s
    | None => Stuck
    end.

(** A new object, at the next free location. *)
Definition alloc (o : obj) : M val :=
  fun s => Return (VRef (length (heap s))) (with_heap s (heap s ++ [o])).

Definition store (l : nat) (o : obj) : M unit :=
  fun s => Return tt (with_heap s (<[l := o]> (heap s))).

Definition emit (e : event) : M unit := fun s => Return tt (with_event s e).

(** [print(line)] *)
Definition print (line : string) : M unit := emit (Printed line).

(** [time.sleep] *)
Definition sleep (milliseconds : Z) : M unit := emit (Slept milliseconds).

Module Py.

Definition obj_type_name (o : obj) : string :=
  match o with
  | ODict _ => "dict"
  | OList _ => "list"
  | OAssoc _ => "StockAssociator"
  end.

(** [bool(v)] *)
Definition truthy (v : val) : M bool :=
  match v with
  | VJ j => ret (Json.truthy j)
  | VRef l =>
      bind (deref l) (fun o =>
        match o with
        | ODict kvs => ret (match kvs with [] => false | _ => true end)
        | OList xs => ret (match xs with [] => false | _ => true end)
        | OAssoc _ => ret true
        end)
  end.

(** [v.get(k, default)] *)
Definition get (v : val) (k : string) (default : val) : M val :=
  match v with
  | VJ (JDict kvs) =>
      match assoc k kvs with
      | Some x => ret (VJ x)
      | None => ret default
      end
  | VJ j => throw (Json.no_attribute (Json.type_name j) "get")
  | VRef l =>
      bind (deref l) (fun o =>
        match o with
        | ODict kvs =>
            match assoc k kvs with
            | Some x => ret x
            | None => ret default
            end
        | _ => throw (Json.no_attribute (obj_type_name o) "get")
        end)
  end.

(** [v[k]] with a string key *)
Definition getitem (v : val) (k : string) : M val :=
  match v with
  | VJ j => bind (lift (Json.getitem j k)) (fun x => ret (VJ x))
  | VRef l =>
      bind (deref l) (fun o =>
        match o with
        | ODict kvs =>
            match assoc k kvs with
            | Some x => ret x
            | None => throw (Json.key_error k)
            end
        | _ => throw (Json.bad_subscript (obj_type_name o))
        end)
  end.

(** The items [for x in v] yields. *)
Definition iter (v : val) : M (list val) :=
  match v with
  | VJ j => bind (lift (Json.iter j)) (fun xs => ret (List.map VJ xs))
  | VRef l =>
      bind (deref l) (fun o =>
        match o with
        | OList xs => ret xs
        | ODict kvs => ret (List.map (fun kv => VJ (JStr (fst kv))) kvs)
        | OAssoc _ => throw (Json.not_iterable (obj_type_name o))
        end)
  end.

Definition is_str (s : string) (v : val) : bool :=
  match v with
  | VJ j => Json.is_str s j
  | VRef _ => false
  end.

(** [s in v] for a string [s] *)
Definition contains (s : string) (v : val) : M bool :=
  match v with
  | VJ j => lift (Json.contains s j)
  | VRef l =>
      bind (deref l) (fun o =>
        match o with
        | OList xs => ret (existsb (is_str s) xs)
        | ODict kvs => ret (existsb (fun kv => String.eqb s (fst kv)) kvs)
        | OAssoc _ => throw (Json.not_container (obj_type_name o))
        end)
  end.

(** [v[k] = x]: only objects of the store can be updated. *)
Definition setitem (v : val) (k : string) (x : val) : M unit :=
  match v with
  | VJ (JDict _) => stuck
  | VJ j =>
      throw (Exn TypeError (Text.quote (Json.type_name j)
                            +:+ " object does not support item assignment"))
  | VRef l =>
      bind (deref l) (fun o =>
        match o with
        | ODict kvs => store l (ODict (dict_set k x kvs))
        | OList _ => throw (Json.bad_subscript "list")
        | OAssoc _ =>
            throw (Exn TypeError (Text.quote (obj_type_name o)
                                  +:+ " object does not support item assignment"))
        end)
  end.

(** [v.copy()]: a new object with the same fields or items. *)
Definition copy (v : val) : M val :=
  match v with
  | VJ (JDict kvs) => alloc (ODict (List.map (fun kv => (fst kv, VJ (snd kv))) kvs))
  | VJ (JList xs) => alloc (OList (List.map VJ xs))
  | VJ j => throw (Json.no_attribute (Json.type_name j) "copy")
  | VRef l =>
      bind (deref l) (fun o =>
        match o with
        | ODict kvs => alloc (ODict kvs)
        | OList xs => alloc (OList xs)
        | OAssoc _ => throw (Json.no_attribute (obj_type_name o) "copy")
        end)
  end.

End Py.

(** ** Sorting *)

(** [list.sort(key=..., reverse=True)] is a stable sort into descending key
    order: items with equal keys keep the order they had. [insert_desc]
    puts an item in front of the first item whose key is not greater, so
    sorting from the right end keeps earlier items first among equals. *)
Fixpoint insert_desc {A} (k : Z) (x : A) (l : list (Z * A)) : list (Z * A) :=
  match l with
  | [] => [(k, x)]
  | (k', y) :: rest =>
      if k <? k' then (k', y) :: insert_desc k x rest else (k, x) :: (k', y) :: rest
  end.

Fixpoint stable_sort_desc {A} (l : list (Z * A)) : list (Z * A) :=
  match l with
  | [] => []
  | (k, x) :: rest => insert_desc k x (stable_sort_desc rest)
  end.

(** The keys this program sorts by are the integers it stored itself;
    [int_key] reads one. *)
Definition int_key (j : json) : res Z :=
  match j with
  | JInt n => Ok n
  | _ => Raise (Exn TypeError "'<' not supported between these instances")
  end.

(** The keys are computed first, one call per item, then the items are
    ordered by them. *)
Definition list_sort_reverse (key : json -> res json) (l : list json) : res (list json) :=
  rbind (rmap (fun x => rbind (key x) int_key) l) (fun keys =>
  Ok (List.map snd (stable_sort_desc (combine keys l)))).

(** ** mcp_enhance.py: constants *)

Definition MCP_SERVER_URL : string := "http://localhost:3333/mcp".

Definition prompt_text (title platform : string) : string :=
  "你是一位资深A股事件驱动型投资分析师。请分析以下新闻：" +:+ Text.nl +:+ "【新闻标题】" +:+ title +:+ Text.nl +:+ "【来源平台】"
  +:+ platform +:+ Text.nl +:+ "要求：" +:+ Text.nl
  +:+ "1. 判断该新闻是否属于「事件驱动型」（如政策出台、订单签订、技术突破、处罚调查等），若否，返回空" +:+ Text.nl +:+ "2. 若是，请用一句话概括事件类型"
  +:+ Text.nl +:+ "3. 列出最可能受益的2个产业链环节" +:+ Text.nl
  +:+ "4. 各环节推荐1家市值<200亿的弹性小盘标的（若无则写“暂无明确小盘标的”）" +:+ Text.nl +:+ "5. 标注潜在风险：如“信息未证实”“影响有限”等"
  +:+ Text.nl +:+ "输出格式（严格按此JSON）：" +:+ Text.nl +:+ "{" +:+ Text.dq +:+ "event_type" +:+ Text.dq
  +:+ ": " +:+ Text.dq +:+ "..." +:+ Text.dq +:+ ", " +:+ Text.dq +:+ "benefit_sectors"
  +:+ Text.dq +:+ ": [" +:+ Text.dq +:+ "..." +:+ Text.dq +:+ ", " +:+ Text.dq +:+ "..."
  +:+ Text.dq +:+ "], " +:+ Text.dq +:+ "small_cap_stocks" +:+ Text.dq +:+ ": [" +:+ Text.dq
  +:+ "..." +:+ Text.dq +:+ ", " +:+ Text.dq +:+ "..." +:+ Text.dq +:+ "], " +:+ Text.dq
  +:+ "risk_note" +:+ Text.dq +:+ ": " +:+ Text.dq +:+ "..." +:+ Text.dq +:+ "}" +:+ Text.nl.

Definition annotation_block (event_type benefit_sectors small_cap_stocks risk_note : string) : string :=
  Text.nl +:+ "                            <div class=" +:+ Text.dq +:+ "ai-annotation"
  +:+ Text.dq +:+ " style=" +:+ Text.dq
  +:+ "background:#f8f9fa; padding:8px; border-left:3px solid #1976d2; margin:8px 0; font-size:0.9em;"
  +:+ Text.dq +:+ ">" +:+ Text.nl +:+ "                              🤖 <b>AI分析</b>："
  +:+ event_type +:+ "<br>" +:+ Text.nl +:+ "                              ✅ <b>受益环节</b>："
  +:+ benefit_sectors +:+ "<br>" +:+ Text.nl
  +:+ "                              📌 <b>小盘标的</b>：" +:+ small_cap_stocks +:+ "<br>"
  +:+ Text.nl +:+ "                              ⚠️ <b>风险提示</b>：" +:+ risk_note +:+ Text.nl
  +:+ "                            </div>" +:+ Text.nl +:+ "                            ".

Definition parse_failed : json := JDict [("error", JStr "解析失败")].

Definition error_marker (e : exn) : json := JDict [("error", JStr (exn_text e))].

(** [xs[i]] on the pieces of a split *)
Definition list_index (xs : list string) (i : nat) : res string :=
  match xs !! i with
  | Some x => Ok x
  | None => Raise (Exn IndexError "list index out of range")
  end.

(** [enumerate(xs)] *)
Definition enumerate {A} (xs : list A) : list (Z * A) :=
  combine (List.map Z.of_nat (seq 0 (length xs))) xs.


(** * Sample surroundings and inputs

    Concrete stand-ins for what the programs take from outside, and a few
    inputs, used to run the definitions and to instantiate the
    properties. *)

Module Sample.

Definition lower_ascii (a : ascii) : ascii :=
  let n := nat_of_ascii a in
  if ((65 <=? n) && (n <=? 90))%nat then ascii_of_nat (n + 32) else a.

(** [str.lower] on the letters A-Z. *)
Fixpoint lower (s : string) : string :=
  match s with
  | EmptyString => EmptyString
  | String a rest => String (lower_ascii a) (lower rest)
  end.

(** An object whose stock table is null. *)
Definition null_table : string :=
  "{" +:+ Text.dq +:+ "股票映射配置" +:+ Text.dq +:+ ": null}".

(** A decoder that knows four documents. *)
Definition json_loads (s : string) : res json :=
  if String.eqb s "{}" then Ok (JDict [])
  else if String.eqb s "[]" then Ok (JList [])
  else if String.eqb s "42" then Ok (JInt 42)
  else if String.eqb s null_table then Ok (JDict [("股票映射配置", JNull)])
  else Raise (Exn ValueError "Expecting value: line 1 column 1 (char 0)").

(** A file system with two readable files: one does not hold JSON, the
    other holds [null_table]. One directory cannot be searched. *)
Definition path_exists (p : string) : res bool :=
  if String.eqb p "locked/map.json" then Raise (Exn OSError "[Errno 13] Permission denied")
  else Ok (String.eqb p "broken.json" || String.eqb p "partial.json").

(** [str(Path(p))] for the paths used here: a leading [./] goes. *)
Definition path_str (p : string) : string :=
  if Text.starts_with "./" p then Text.drop 2 p else p.

Definition read_text (p : string) : res string :=
  if String.eqb p "broken.json" then Ok "not json"
  else if String.eqb p "partial.json" then Ok null_table
  else Raise (Exn OSError "No such file or directory").

Definition environ (name : string) : option string := None.


(** A service that answers the probe, fails the first request and answers
    the following ones with a body whose content is not JSON. *)
Definition http_flaky (history : list event) (r : request) : res response :=
  if String.eqb (req_method r) "mcp/ping" then
    Ok {| status_code := 200; response_json := Ok (JDict []) |}
  else if req_id r =? 1 then Raise (Exn RequestException "Read timed out")
  else Ok {| status_code := 200;
             response_json :=
               Ok (JDict [("result", JDict [("content", JStr "not json")])]) |}.

Definition repr (h : list obj) (v : val) : string := "<object>".

Definition entry (name code : string) (keywords : list string) : json :=
  JDict [("股票名称", JStr name); ("股票代码", JStr code);
         ("关联关键词", JList (List.map JStr keywords))].

Definition sector (name : string) (keywords : list string) : json :=
  JDict [("板块名称", JStr name); ("关联关键词", JList (List.map JStr keywords))].

Definition tables : StockAssociator :=
  {| config_path := "config/stock_keywords_map.json";
     stock_mappings :=
       JList [entry "A" "001" ["芯片"];
              entry "B" "002" ["锂电池"; "AI"];
              entry "C" "003" ["芯片"; "电池"];
              entry "D" "004" ["电池"; "ai"; "技术"];
              entry "E" "005" ["突破"]];
     industry_mappings :=
       JList [sector "半导体" ["芯片"; "晶圆"];
              sector "新能源" ["电池"; "锂"];
              sector "人工智能" ["AI"]] |}.

Definition title : string := "芯片电池技术突破 Ai".

(** A table whose only entry lists the same keyword twice. *)
Definition repeated : StockAssociator :=
  {| config_path := "config/stock_keywords_map.json";
     stock_mappings := JList [entry "A" "001" ["芯片"; "芯片"]];
     industry_mappings := JList [] |}.

(** A table with an entry that has no code. *)
Definition incomplete : StockAssociator :=
  {| config_path := "config/stock_keywords_map.json";
     stock_mappings := JList [JDict [("股票名称", JStr "A");
                                     ("关联关键词", JList [JStr "芯片"])]];
     industry_mappings := JList [] |}.

Definition news_item (t : string) : obj :=
  ODict [("title", VJ (JStr t)); ("platform", VJ (JStr "weibo"))].

(** A store holding the associator, two news items, one item without a
    title, a list of the two news items, a [stats] entry and a payload. *)
Definition store0 : list obj :=
  [OAssoc tables;
   news_item title;
   news_item "锂电池出口增长";
   ODict [("url", VJ (JStr "https://example.org"))];
   OList [VRef 1; VRef 2];
   ODict [("word", VJ (JStr "芯片")); ("titles", VRef 6)];
   OList [VRef 1; VRef 3];
   ODict [("stats", VRef 8); ("id", VJ (JInt 7))];
   OList [VRef 5]].

Definition state0 : state :=
  {| heap := store0; trace := []; stock_associator_global := Some 0%nat |}.

(** A report of three lines, and news groups with one annotated item, one
    item whose annotation failed and one without annotation. *)
Definition html : string :=
  "<ul>" +:+ Text.nl
  +:+ "  <li><a href=" +:+ Text.dq +:+ "u" +:+ Text.dq +:+ ">芯片</a></li>" +:+ Text.nl
  +:+ "</ul>".

(** The same report with a class on the list item. *)
Definition classed_line : string :=
  "<li class=" +:+ Text.dq +:+ "n" +:+ Text.dq +:+ "><a href=" +:+ Text.dq +:+ "u1"
  +:+ Text.dq +:+ ">芯片</a></li>".

Definition classed_html : string :=
  "<ul>" +:+ Text.nl +:+ classed_line +:+ Text.nl +:+ "</ul>".

Definition annotation : json :=
  JDict [("event_type", JStr "技术突破");
         ("benefit_sectors", JList [JStr "半导体"; JStr "设备"]);
         ("small_cap_stocks", JList [JStr "暂无明确小盘标的"]);
         ("risk_note", JStr "信息未证实")].

Definition groups : val :=
  VJ (JList [JDict [("news",
     JList [JDict [("title", JStr "芯片电池技术突破"); ("ai_annotation", annotation)];
            JDict [("title", JStr "芯片价格"); ("ai_annotation", parse_failed)];
            JDict [("title", JStr "芯片出口")]])]]).

End Sample.

(** * More sample surroundings and inputs *)

Module SampleExtra.

(** A decoder that knows one document: an object with a stock table and
    no industry table. *)
Definition json_loads (s : string) : res json :=
  if String.eqb s "<stock table>"
  then Ok (JDict [("股票映射配置", stock_mappings Sample.tables)])
  else Raise (Exn ValueError "Expecting value: line 1 column 1 (char 0)").

(** A file system with one file, which holds that document. *)
Definition path_exists (p : string) : res bool := Ok (String.eqb p "map.json").

Definition read_text (p : string) : res string :=
  if String.eqb p "map.json" then Ok "<stock table>"
  else Raise (Exn OSError "No such file or directory").

(** Tables whose only stock lists the empty keyword. *)
Definition blank : StockAssociator :=
  {| config_path := "config/stock_keywords_map.json";
     stock_mappings := JList [Sample.entry "A" "001" [EmptyString]];
     industry_mappings := JList [] |}.


(** Two stocks, the second without a code. *)
Definition stocks_without_code : val :=
  VJ (JList [Sample.entry "A" "001" []; JDict [("股票名称", JStr "B")]]).

(** A report without list items, and a list item whose link is written
    with single quotes. *)
Definition plain_html : string := "<p>a</p>" +:+ Text.nl +:+ "<p>b</p>".

Definition unquoted_line : string := "<li><a href='u'>T</a></li>".

(** News groups whose items were never annotated. *)
Definition plain_groups : val :=
  VJ (JList [JDict [("news", JList [JDict [("title", JStr "芯片电池技术突破")];
                                    JDict [("title", JStr "芯片出口")]])];
             JDict [("name", JStr "empty")]]).

End SampleExtra.
(** * The programs *)

Section Program.

(** What the programs take from their surroundings. *)
Variable lower : string -> string.                 (* [str.lower] *)
Variable json_loads : string -> res json.          (* [json.loads] *)
Variable path_str : string -> string.              (* [str(Path(p))]: the path, normalised *)
Variable path_exists : string -> res bool.         (* [Path.exists], on the normalised path *)
Variable read_text : string -> res string.         (* [open(path).read()], on the same *)
Variable environ : string -> option string.        (* [os.environ.get] *)
Variable http_post : list event -> request -> res response.
                                                   (* the service, given what happened so far *)
Variable repr : list obj -> val -> string.         (* [str] of what is not text or a whole number *)

(** ** stock_association.py *)

(** [j.lower()] *)
Definition str_lower (j : json) : res string :=
  match j with
  | JStr s => Ok (lower s)
  | _ => Raise (Json.no_attribute (Json.type_name j) "lower")
  end.

(** Lines 61-64 and 95-98: the keywords of one entry found in the title. *)
Definition scan_keywords (title_lower : string) (keywords : json) : res (list json) :=
  (kws <- Json.iter keywords ;;
   rfor kws [] (fun matched_keywords keyword =>
     keyword_lower <- str_lower keyword ;;
     Ok (if Text.contains keyword_lower title_lower
         then matched_keywords ++ [keyword]
         else matched_keywords)))%res.

Definition stock_record (stock_code stock_name : json) (matched_keywords : list json) : json :=
  JDict [("股票代码", stock_code);
         ("股票名称", stock_name);
         ("匹配关键词", JList matched_keywords);
         ("匹配强度", JInt (Z.of_nat (length matched_keywords)))].

(** Lines 53-72: the matches, in the order of the table. *)
Definition collect_related_stocks (self : StockAssociator) (title : json) : res (list json) :=
  (title_lower <- str_lower title ;;
   stocks <- Json.iter (stock_mappings self) ;;
   rfor stocks [] (fun related_stocks stock =>
     stock_name <- Json.getitem stock "股票名称" ;;
     stock_code <- Json.getitem stock "股票代码" ;;
     keywords <- Json.getitem stock "关联关键词" ;;
     matched_keywords <- scan_keywords title_lower keywords ;;
     Ok (match matched_keywords with
         | [] => related_stocks
         | _ => related_stocks ++ [stock_record stock_code stock_name matched_keywords]
         end)))%res.

Definition find_related_stocks (self : StockAssociator) (title : json) : res (list json) :=
  (related_stocks <- collect_related_stocks self title ;;
   related_stocks <- list_sort_reverse (fun x => Json.getitem x "匹配强度") related_stocks ;;
   Ok (take 3 related_stocks))%res.

Definition industry_record (industry_name : json) (matched_keywords : list json) : json :=
  JDict [("板块名称", industry_name);
         ("匹配关键词", JList matched_keywords);
         ("匹配强度", JInt (Z.of_nat (length matched_keywords)))].

(** Lines 88-105 *)
Definition collect_related_industries (self : StockAssociator) (title : json) : res (list json) :=
  (title_lower <- str_lower title ;;
   industries <- Json.iter (industry_mappings self) ;;
   rfor industries [] (fun related_industries industry =>
     industry_name <- Json.getitem industry "板块名称" ;;
     keywords <- Json.getitem industry "关联关键词" ;;
     matched_keywords <- scan_keywords title_lower keywords ;;
     Ok (match matched_keywords with
         | [] => related_industries
         | _ => related_industries ++ [industry_record industry_name matched_keywords]
         end)))%res.

Definition find_related_industries (self : StockAssociator) (title : json) : res (list json) :=
  (related_industries <- collect_related_industries self title ;;
   related_industries <- list_sort_reverse (fun x => Json.getitem x "匹配强度") related_industries ;;
   Ok (take 2 related_industries))%res.

(** The instance a method is called on. *)
Definition the_associator (self : val) : M StockAssociator :=
  match self with
  | VRef l =>
      bind (deref l) (fun o =>
        match o with
        | OAssoc a => ret a
        | _ => stuck
        end)
  | VJ _ => stuck
  end.

(** A method whose first step is [title.lower()], called with any value:
    the objects of the store have no [lower]. *)
Definition with_title {A} (f : json -> res A) (title : val) : M A :=
  match title with
  | VJ j => lift (f j)
  | VRef l =>
      bind (deref l) (fun o => throw (Json.no_attribute (Py.obj_type_name o) "lower"))
  end.

Definition associate_title_with_stocks (self title_data : val) : M val :=
  (title <- Py.get title_data "title" (VJ (JStr EmptyString)) ;;
   nonempty <- Py.truthy title ;;
   if negb nonempty then ret title_data
   else
     a <- the_associator self ;;
     related_stocks <- with_title (find_related_stocks a) title ;;
     related_industries <- with_title (find_related_industries a) title ;;
     updated_data <- Py.copy title_data ;;
     Py.setitem updated_data "related_stocks" (VJ (JList related_stocks)) ;;
     Py.setitem updated_data "related_industries" (VJ (JList related_industries)) ;;
     ret updated_data)%M.

Definition set_stock_mappings (self : val) (j : json) : M unit :=
  (a <- the_associator self ;;
   match self with
   | VRef l => store l (OAssoc {| config_path := config_path a;
                                  stock_mappings := j;
                                  industry_mappings := industry_mappings a |})
   | VJ _ => stuck
   end)%M.

Definition set_industry_mappings (self : val) (j : json) : M unit :=
  (a <- the_associator self ;;
   match self with
   | VRef l => store l (OAssoc {| config_path := config_path a;
                                  stock_mappings := stock_mappings a;
                                  industry_mappings := j |})
   | VJ _ => stuck
   end)%M.

(** Lines 26-42. [self.config_path.exists()] stands before the [try]: an
    error it raises leaves the method. *)
Definition _load_config (self : val) : M unit :=
  (a <- the_associator self ;;
   found <- lift (path_exists (config_path a)) ;;
   if negb found then
     print ("警告: 股票关键词映射配置文件 " +:+ config_path a +:+ " 不存在")
   else
     try_except
       (text <- lift (read_text (config_path a)) ;;
        config <- lift (json_loads text) ;;
        stocks <- lift (Json.get config "股票映射配置" (JList [])) ;;
        set_stock_mappings self stocks ;;
        industries <- lift (Json.get config "行业板块映射" (JList [])) ;;
        set_industry_mappings self industries ;;
        a' <- the_associator self ;;
        n_stocks <- lift (Json.len (stock_mappings a')) ;;
        n_industries <- lift (Json.len (industry_mappings a')) ;;
        print ("已加载 " +:+ Text.of_Z n_stocks +:+ " 个股票映射和 "
               +:+ Text.of_Z n_industries +:+ " 个行业板块映射"))
       (fun e => print ("加载股票关键词映射配置失败: " +:+ exn_text e)))%M.

(** [StockAssociator(config_path)]. The instance keeps [Path(config_path)];
    [config_path] holds its text, which is what the messages show and what
    the file system is asked about. *)
Definition StockAssociator_init (path : option string) : M val :=
  (let path :=
     match path with
     | Some p => p
     | None =>
         match environ "STOCK_KEYWORDS_MAP_PATH" with
         | Some p => p
         | None => "config/stock_keywords_map.json"
         end
     end in
   self <- alloc (OAssoc {| config_path := path_str path;
                            stock_mappings := JList [];
                            industry_mappings := JList [] |}) ;;
   _load_config self ;;
   ret self)%M.

Definition get_stock_associator : M val :=
  fun s =>
    match stock_associator_global s with
    | Some l => Return (VRef l) s
    | None =>
        match StockAssociator_init None s with
        | Return (VRef l) s' => Return (VRef l) (with_global s' l)
        | Return (VJ _) _ => Stuck
        | Throw e s' => Throw e s'
        | Stuck => Stuck
        end
    end.

(** Lines 169-177 and 183-191: one entry of a collection, its titles
    enriched. *)
Definition associate_entry (associator entry : val) : M val :=
  (titles <- Py.get entry "titles" (VJ (JList [])) ;;
   title_items <- Py.iter titles ;;
   updated_titles <- fold_for title_items [] (fun updated_titles title_data =>
     updated_title_data <- associate_title_with_stocks associator title_data ;;
     ret (updated_titles ++ [updated_title_data])) ;;
   updated_entry <- Py.copy entry ;;
   updated_titles <- alloc (OList updated_titles) ;;
   Py.setitem updated_entry "titles" updated_titles ;;
   ret updated_entry)%M.

Definition associate_news_with_stocks (news_data : val) : M val :=
  (associator <- get_stock_associator ;;
   stats <- Py.get news_data "stats" (VJ (JList [])) ;;
   stat_items <- Py.iter stats ;;
   updated_stats <- fold_for stat_items [] (fun updated_stats stat =>
     updated_stat <- associate_entry associator stat ;;
     ret (updated_stats ++ [updated_stat])) ;;
   new_titles <- Py.get news_data "new_titles" (VJ (JList [])) ;;
   source_items <- Py.iter new_titles ;;
   updated_new_titles <- fold_for source_items [] (fun updated_new_titles source_data =>
     updated_source <- associate_entry associator source_data ;;
     ret (updated_new_titles ++ [updated_source])) ;;
   updated_news_data <- Py.copy news_data ;;
   updated_stats <- alloc (OList updated_stats) ;;
   Py.setitem updated_news_data "stats" updated_stats ;;
   updated_new_titles <- alloc (OList updated_new_titles) ;;
   Py.setitem updated_news_data "new_titles" updated_new_titles ;;
   ret updated_news_data)%M.

(** [str(v)], as an f-string renders a value. *)
Definition py_str (v : val) : M string :=
  match v with
  | VJ (JStr s) => ret s
  | VJ JNull => ret "None"
  | VJ (JBool true) => ret "True"
  | VJ (JBool false) => ret "False"
  | VJ (JInt n) => ret (Text.of_Z n)
  | _ => bind get_heap (fun h => ret (repr h v))
  end.

Definition format_stock_info (related_stocks : val) (platform : string) : M string :=
  (nonempty <- Py.truthy related_stocks ;;
   if negb nonempty then ret EmptyString
   else
     stocks <- Py.iter related_stocks ;;
     stock_info_parts <- fold_for stocks [] (fun stock_info_parts stock =>
       stock_name <- Py.getitem stock "股票名称" ;;
       stock_code <- Py.getitem stock "股票代码" ;;
       name <- py_str stock_name ;;
       code <- py_str stock_code ;;
       let cell := "[" +:+ name +:+ "(" +:+ code +:+ ")]" in
       ret (stock_info_parts
            ++ [if String.eqb platform "feishu" then "<font color='blue'>" +:+ cell +:+ "</font>"
                else if String.eqb platform "dingtalk" || String.eqb platform "wework" then cell
                else if String.eqb platform "telegram" then "<b>" +:+ cell +:+ "</b>"
                else if String.eqb platform "ntfy" then cell
                else cell])) ;;
     let joined := Text.join " " stock_info_parts in
     ret (if String.eqb platform "feishu" then " <font color='grey'>相关股票:</font> " +:+ joined
          else if String.eqb platform "dingtalk" || String.eqb platform "wework"
                  || String.eqb platform "ntfy" then " 相关股票: " +:+ joined
          else if String.eqb platform "telegram" then " <b>相关股票:</b> " +:+ joined
          else " 相关股票: " +:+ joined))%M.

(** ** mcp_enhance.py *)

(** [requests.post(MCP_SERVER_URL, json=..., timeout=...)] *)
Definition post (r : request) : M response :=
  fun s =>
    match http_post (trace s) r with
    | Ok res => Return res (with_event s (Posted r))
    | Raise e => Throw e (with_event s (Posted r))
    end.

Definition is_mcp_available : M bool :=
  try_except
    (res <- post {| req_url := MCP_SERVER_URL; req_method := "mcp/ping";
                    req_prompt := None; req_id := 1; req_timeout := 2 |} ;;
     ret (status_code res =? 200))%M
    (fun _ => ret false).

(** [json.loads(j)] on a decoded value: only text can be parsed. *)
Definition loads (j : json) : res json :=
  match j with
  | JStr s => json_loads s
  | _ => Raise (Exn TypeError ("the JSON object must be str, bytes or bytearray, not "
                               +:+ Json.type_name j))
  end.

(** Lines 38-61: the request for one item and what it leaves on the item. *)
Definition annotate_item (i : Z) (item : val) (prompt : string) : M unit :=
  try_except
    (res <- post {| req_url := MCP_SERVER_URL; req_method := "mcp/invoke_tool";
                    req_prompt := Some prompt; req_id := i + 1; req_timeout := 5 |} ;;
     (if status_code res =? 200 then
        result <- lift (response_json res) ;;
        has_result <- lift (Json.contains "result" result) ;;
        has_content <- (if has_result
                        then inner <- lift (Json.getitem result "result") ;;
                             lift (Json.contains "content" inner)
                        else ret false) ;;
        if has_content then
          try_except
            (inner <- lift (Json.getitem result "result") ;;
             content <- lift (Json.getitem inner "content") ;;
             ai_data <- lift (loads content) ;;
             Py.setitem item "ai_annotation" (VJ ai_data))
            (fun _ => Py.setitem item "ai_annotation" (VJ parse_failed))
        else ret tt
      else ret tt) ;;
     sleep 200)%M
    (fun e => Py.setitem item "ai_annotation" (VJ (error_marker e))).

Definition annotate_news_with_ai (news_list : val) : M val :=
  (available <- is_mcp_available ;;
   if negb available then
     print "⚠️ MCP 服务未运行，跳过 AI 标注" ;;
     ret news_list
   else
     items <- Py.iter news_list ;;
     annotated <- fold_for (enumerate items) [] (fun annotated '(i, item) =>
       title <- Py.get item "title" (VJ (JStr EmptyString)) ;;
       platform <- Py.get item "platform" (VJ (JStr EmptyString)) ;;
       title <- py_str title ;;
       platform <- py_str platform ;;
       annotate_item i item (prompt_text title platform) ;;
       ret (annotated ++ [item])) ;;
     alloc (OList annotated))%M.

(** [sep.join(v)]: every item must be text. *)
Definition py_join (sep : string) (v : val) : M string :=
  (items <- Py.iter v ;;
   parts <- fold_for (enumerate items) [] (fun parts '(i, item) =>
     match item with
     | VJ (JStr s) => ret (parts ++ [s])
     | VJ j => throw (Exn TypeError ("sequence item " +:+ Text.of_Z i
                                     +:+ ": expected str instance, "
                                     +:+ Json.type_name j +:+ " found"))
     | VRef l =>
         o <- deref l ;;
         throw (Exn TypeError ("sequence item " +:+ Text.of_Z i
                               +:+ ": expected str instance, "
                               +:+ Py.obj_type_name o +:+ " found"))
     end) ;;
   ret (Text.join sep parts))%M.

(** Line 73: a list item that holds a link. *)
Definition is_news_line (line : string) : bool :=
  Text.starts_with "<li>" (Text.strip line) && Text.contains "href=" line.

(** Line 75: the text after the first double quote followed by [>], up to
    the next closing anchor tag. *)
Definition title_match_of (line : string) : res string :=
  if Text.contains (Text.dq +:+ ">") line && Text.contains "</a>" line then
    (rest <- list_index (Text.split (Text.dq +:+ ">") line) 1 ;;
     list_index (Text.split "</a>" rest) 0)%res
  else Ok EmptyString.

(** Lines 78-89: the block one item adds, if any. *)
Definition item_blocks (title_match : string) (new_lines : list string) (item : val)
  : M (list string) :=
  (title <- Py.get item "title" (VJ (JStr EmptyString)) ;;
   in_title <- Py.contains title_match title ;;
   annotated <- (if in_title then Py.contains "ai_annotation" item else ret false) ;;
   if annotated then
     ann <- Py.getitem item "ai_annotation" ;;
     nonempty <- Py.truthy ann ;;
     good <- (if nonempty
              then failed <- Py.contains "error" ann ;; ret (negb failed)
              else ret false) ;;
     if good then
       event_type <- Py.get ann "event_type" (VJ (JStr EmptyString)) ;;
       event_type <- py_str event_type ;;
       benefit_sectors <- Py.get ann "benefit_sectors" (VJ (JList [])) ;;
       benefit_sectors <- py_join ", " benefit_sectors ;;
       small_cap_stocks <- Py.get ann "small_cap_stocks" (VJ (JList [])) ;;
       small_cap_stocks <- py_join ", " small_cap_stocks ;;
       risk_note <- Py.get ann "risk_note" (VJ (JStr EmptyString)) ;;
       risk_note <- py_str risk_note ;;
       ret (new_lines
            ++ [annotation_block event_type benefit_sectors small_cap_stocks risk_note])
     else ret new_lines
   else ret new_lines)%M.

Definition add_ai_html_blocks (html_content : string) (news_groups : val) : M string :=
  (let lines := Text.split Text.nl html_content in
   new_lines <- fold_for lines [] (fun new_lines line =>
     let new_lines := new_lines ++ [line] in
     if is_news_line line then
       title_match <- lift (title_match_of line) ;;
       groups <- Py.iter news_groups ;;
       fold_for groups new_lines (fun new_lines group =>
         news <- Py.get group "news" (VJ (JList [])) ;;
         items <- Py.iter news ;;
         fold_for items new_lines (item_blocks title_match))
     else ret new_lines) ;;
   ret (Text.join Text.nl new_lines))%M.


(** * The notions the properties are stated with *)

(** The match strength a record carries. *)
Definition strength (r : json) : Z :=
  match r with
  | JDict kvs =>
      match assoc "匹配强度" kvs with
      | Some (JInt n) => n
      | _ => 0
      end
  | _ => 0
  end.

(** [keyword.lower()] on an item of a keyword list, the item itself kept
    when it is found. *)
Definition keyword_hit (title_lower : string) (keyword : json) : res (option json) :=
  (keyword_lower <- str_lower keyword ;;
   Ok (if Text.contains keyword_lower title_lower then Some keyword else None))%res.

(** What one entry of the stock table adds to [related_stocks]
    (lines 57-72). *)
Definition stock_hit (title_lower : string) (stock : json) : res (option json) :=
  (stock_name <- Json.getitem stock "股票名称" ;;
   stock_code <- Json.getitem stock "股票代码" ;;
   keywords <- Json.getitem stock "关联关键词" ;;
   matched_keywords <- scan_keywords title_lower keywords ;;
   Ok (match matched_keywords with
       | [] => None
       | _ => Some (stock_record stock_code stock_name matched_keywords)
       end))%res.

(** What one entry of the industry table adds (lines 92-105). *)
Definition industry_hit (title_lower : string) (industry : json) : res (option json) :=
  (industry_name <- Json.getitem industry "板块名称" ;;
   keywords <- Json.getitem industry "关联关键词" ;;
   matched_keywords <- scan_keywords title_lower keywords ;;
   Ok (match matched_keywords with
       | [] => None
       | _ => Some (industry_record industry_name matched_keywords)
       end))%res.

(** The list a table yields: the records of its entries, in table order. *)
Definition option_list {A} (o : option A) : list A :=
  match o with
  | Some a => [a]
  | None => []
  end.

(** The records of [hits], each with the position of its entry. *)
Fixpoint tag_hits {A} (p : nat) (hits : list (option A)) : list (nat * A) :=
  match hits with
  | [] => []
  | Some r :: rest => (p, r) :: tag_hits (S p) rest
  | None :: rest => tag_hits (S p) rest
  end.

(** [a], from position [p] of the table, is ranked before [b], from
    position [q]: it is stronger, or as strong and earlier in the table. *)
Definition ranks_before (a : json) (p : nat) (b : json) (q : nat) : Prop :=
  strength b <= strength a /\ (strength a = strength b -> (p < q)%nat).

(** [rs] are the [n] best records of the table [entries], best first. [ps]
    gives the table position each record comes from. *)
Definition top_ranked (n : nat) (hit : json -> res (option json))
           (entries rs : list json) : Prop :=
  (length rs <= n)%nat /\
  exists ps : list nat,
    Forall2 (fun r p => exists e, entries !! p = Some e /\ hit e = Ok (Some r)) rs ps /\
    (forall i j a b p q,
        (i < j)%nat ->
        rs !! i = Some a -> ps !! i = Some p ->
        rs !! j = Some b -> ps !! j = Some q ->
        ranks_before a p b q) /\
    (forall q e c,
        entries !! q = Some e -> hit e = Ok (Some c) -> q ∉ ps ->
        length rs = n /\
        forall i a p, rs !! i = Some a -> ps !! i = Some p -> ranks_before a p c q).

(** The order on decorated, tagged records that the sort establishes. *)
Definition sorted_before {A} (a b : Z * (nat * A)) : Prop :=
  a.1 > b.1 \/ (a.1 = b.1 /\ (a.2.1 < b.2.1)%nat).

(** The keywords of an entry, as texts. *)
Definition text_of (j : json) : res string :=
  match j with
  | JStr s => Ok s
  | _ => Raise (Json.no_attribute (Json.type_name j) "lower")
  end.

Definition entry_keywords (entry : json) : res (list string) :=
  (keywords <- Json.getitem entry "关联关键词" ;;
   items <- Json.iter keywords ;;
   rmap text_of items)%res.

(** The keywords found in the title, repeated ones kept. *)
Definition found_keywords (title_lower : string) (kws : list string) : list string :=
  List.filter (fun kw => Text.contains (lower kw) title_lower) kws.

(** The entries [find_related_stocks] can process. *)
Definition is_text (j : json) : bool :=
  match j with
  | JStr _ => true
  | _ => false
  end.

Definition has_key (k : string) (entry : json) : bool :=
  match entry with
  | JDict kvs =>
      match assoc k kvs with
      | Some _ => true
      | None => false
      end
  | _ => false
  end.

Definition keywords_ok (entry : json) : bool :=
  match entry with
  | JDict kvs =>
      match assoc "关联关键词" kvs with
      | Some keywords =>
          match Json.iter keywords with
          | Ok items => forallb is_text items
          | Raise _ => false
          end
      | None => false
      end
  | _ => false
  end.

Definition stock_entry_ok (entry : json) : bool :=
  has_key "股票名称" entry && has_key "股票代码" entry && keywords_ok entry.

Definition industry_entry_ok (entry : json) : bool :=
  has_key "板块名称" entry && keywords_ok entry.

(** The records of [hits] in the order the sort leaves them, each with its
    strength and the table position it comes from. *)
Definition ranked_hits (hits : list (option json)) : list (Z * (nat * json)) :=
  stable_sort_desc ((fun pr => (strength pr.2, pr)) <$> tag_hits 0 hits).

(** The number of keywords found, repeated ones counted each time, and
    the number of different keywords found. *)
Definition found_count (title_lower : string) (kws : list string) : nat :=
  length (found_keywords title_lower kws).

Definition distinct_found_count (title_lower : string) (kws : list string) : nat :=
  length (remove_dups (found_keywords title_lower kws)).

(** Entry [e] contributes [h]: a record exactly when one of its keywords
    occurs in the lowered title, and then of strength [count]. *)
Definition hit_counts (hit : string -> json -> res (option json))
           (count : string -> list string -> nat)
           (title_lower : string) (e : json) (h : option json) : Prop :=
  hit title_lower e = Ok h /\
  exists kws,
    entry_keywords e = Ok kws /\
    (is_Some h <-> exists kw, kw ∈ kws /\ Text.occurs_in (lower kw) title_lower) /\
    (forall r, h = Some r -> strength r = Z.of_nat (count title_lower kws)).

(** The list collected from a table is made of the records of its
    entries, in table order, each counted by [count]. *)
Definition collected_counts (hit : string -> json -> res (option json))
           (count : string -> list string -> nat)
           (table title : json) (cs : list json) : Prop :=
  exists title_lower entries hits,
    str_lower title = Ok title_lower
    /\ Json.iter table = Ok entries
    /\ Forall2 (hit_counts hit count title_lower) entries hits
    /\ cs = omap id hits.

(** The strength of every collected record is the number of different
    keywords found. *)
Definition strength_counts_distinct (self : StockAssociator) (title : json) : Prop :=
  forall cs,
    collect_related_stocks self title = Ok cs ->
    collected_counts stock_hit distinct_found_count (stock_mappings self) title cs.

(** ** Reading the store *)

(** The fields of a dictionary, whether data or an object of the store. *)
Definition fields_of (h : list obj) (v : val) : option (list (string * val)) :=
  match v with
  | VJ (JDict kvs) => Some ((fun kv => (fst kv, VJ (snd kv))) <$> kvs)
  | VJ _ => None
  | VRef l =>
      match h !! l with
      | Some (ODict kvs) => Some kvs
      | _ => None
      end
  end.

(** The items a [for] loop over [v] goes through. *)
Definition items_of (h : list obj) (v : val) : option (list val) :=
  match v with
  | VJ j =>
      match Json.iter j with
      | Ok xs => Some (VJ <$> xs)
      | Raise _ => None
      end
  | VRef l =>
      match h !! l with
      | Some (OList xs) => Some xs
      | Some (ODict kvs) => Some ((fun kv => VJ (JStr (fst kv))) <$> kvs)
      | _ => None
      end
  end.

(** [fields.get(k, default)] *)
Definition field_or (k : string) (default : val) (fields : list (string * val)) : val :=
  match assoc k fields with
  | Some v => v
  | None => default
  end.

(** [self] is an instance holding the tables [a]. *)
Definition associator_at (h : list obj) (self : val) (a : StockAssociator) : Prop :=
  exists l, self = VRef l /\ h !! l = Some (OAssoc a).

(** The fields of an item after [associate_title_with_stocks]. *)
Definition with_related (rs ri : list json) (fields : list (string * val))
  : list (string * val) :=
  dict_set "related_industries" (VJ (JList ri))
    (dict_set "related_stocks" (VJ (JList rs)) fields).


(** Both tables can be iterated and hold entries the searches can
    process. *)
Definition tables_ok (a : StockAssociator) : Prop :=
  (exists entries, Json.iter (stock_mappings a) = Ok entries
                   /\ Forall (fun e => stock_entry_ok e = true) entries)
  /\ (exists entries, Json.iter (industry_mappings a) = Ok entries
                      /\ Forall (fun e => industry_entry_ok e = true) entries).

(** ** Loading the configuration *)

(** The path [StockAssociator(path)] reads, as the instance keeps it. *)
Definition resolved_path (path : option string) : string :=
  path_str match path with
           | Some p => p
           | None =>
               match environ "STOCK_KEYWORDS_MAP_PATH" with
               | Some p => p
               | None => "config/stock_keywords_map.json"
               end
           end.

(** The file is missing, or it is there and cannot be read, does not hold
    JSON, or holds JSON that is not an object. *)
Definition config_unusable (path : string) : Prop :=
  path_exists path = Ok false
  \/ (path_exists path = Ok true
      /\ ((exists e, read_text path = Raise e)
          \/ (exists text e, read_text path = Ok text /\ json_loads text = Raise e)
          \/ (exists text j, read_text path = Ok text /\ json_loads text = Ok j
                             /\ forall kvs, j <> JDict kvs))).

(** The file holds a JSON object whose 股票映射配置 is [v], a value
    [len] raises [e] on: null, a truth value or a number. *)
Definition table_not_sized (path : string) (v : json) (e : exn) : Prop :=
  path_exists path = Ok true
  /\ exists text kvs,
      read_text path = Ok text
      /\ json_loads text = Ok (JDict kvs)
      /\ assoc "股票映射配置" kvs = Some v
      /\ Json.len v = Raise e.

(** The two messages that report a configuration that was not loaded. *)
Definition is_warning (path line : string) : Prop :=
  line = "警告: 股票关键词映射配置文件 " +:+ path +:+ " 不存在"
  \/ exists e, line = "加载股票关键词映射配置失败: " +:+ exn_text e.

Definition fresh_associator (path : string) : StockAssociator :=
  {| config_path := path; stock_mappings := JList []; industry_mappings := JList [] |}.

(** ** Enriched payloads *)

(** [bool(v)], read off a store. *)
Definition truthy_in (h : list obj) (v : val) : option bool :=
  match v with
  | VJ j => Some (Json.truthy j)
  | VRef l =>
      match h !! l with
      | Some (ODict kvs) => Some (match kvs with [] => false | _ => true end)
      | Some (OList xs) => Some (match xs with [] => false | _ => true end)
      | Some (OAssoc _) => Some true
      | None => None
      end
  end.



(** ** Notions for format_stock_info and mcp_enhance *)

(** [v] is the empty list. *)
Definition is_empty_list (h : list obj) (v : val) : Prop :=
  v = VJ (JList []) \/ exists l, v = VRef l /\ h !! l = Some (OList []).

(** [v] is a dictionary of the store, the only kind of news item
    [annotate_news_with_ai] can write to. *)
Definition is_dict_ref (h : list obj) (v : val) : Prop :=
  exists l kvs, v = VRef l /\ h !! l = Some (ODict kvs).

Definition ping_request : request :=
  {| req_url := MCP_SERVER_URL; req_method := "mcp/ping";
     req_prompt := None; req_id := 1; req_timeout := 2 |}.

Definition invoke_request (i : Z) (prompt : string) : request :=
  {| req_url := MCP_SERVER_URL; req_method := "mcp/invoke_tool";
     req_prompt := Some prompt; req_id := i + 1; req_timeout := 5 |}.

(** The store after [item["ai_annotation"] = x] on the dictionary at [l]. *)
Definition annotated_heap (h : list obj) (l : nat) (kvs : list (string * val)) (x : json)
  : list obj :=
  <[l := ODict (dict_set "ai_annotation" (VJ x) kvs)]> h.

(** The decoded body carries [result.content], as lines 53 tests it. *)
Definition has_content (result inner : json) : Prop :=
  Json.contains "result" result = Ok true
  /\ Json.getitem result "result" = Ok inner
  /\ Json.contains "content" inner = Ok true.




(** From [s] to [s'] the store keeps its size and dictionaries stay
    dictionaries. *)
Definition items_kept (s s' : state) : Prop :=
  length (heap s') = length (heap s)
  /\ forall v, is_dict_ref (heap s) v -> is_dict_ref (heap s') v.

(** ** Notions for add_ai_html_blocks *)

(** [item] matches the anchor text and carries the annotation [ann], which
    is not empty and has no [error]. *)
Definition successful_annotation (s : state) (title_match : string) (item ann : val) : Prop :=
  exists fields,
    fields_of (heap s) item = Some fields
    /\ Py.contains title_match (field_or "title" (VJ (JStr EmptyString)) fields) s
       = Return true s
    /\ assoc "ai_annotation" fields = Some ann
    /\ truthy_in (heap s) ann = Some true
    /\ Py.contains "error" ann s = Return false s.

(** [block] is the annotation [ann] laid out as lines 81-88 do. *)
Definition rendered_block (s : state) (ann : val) (block : string) : Prop :=
  exists fields event_type benefit_sectors small_cap_stocks risk_note,
    fields_of (heap s) ann = Some fields
    /\ py_str (field_or "event_type" (VJ (JStr EmptyString)) fields) s
       = Return event_type s
    /\ py_join ", " (field_or "benefit_sectors" (VJ (JList [])) fields) s
       = Return benefit_sectors s
    /\ py_join ", " (field_or "small_cap_stocks" (VJ (JList [])) fields) s
       = Return small_cap_stocks s
    /\ py_str (field_or "risk_note" (VJ (JStr EmptyString)) fields) s
       = Return risk_note s
    /\ block = annotation_block event_type benefit_sectors small_cap_stocks risk_note.

(** What one item adds after a line: the block of its annotation when
    that is successful, nothing otherwise. *)
Definition item_block (s : state) (title_match : string) (item : val) (bs : list string)
  : Prop :=
  (exists ann block,
      successful_annotation s title_match item ann
      /\ rendered_block s ann block
      /\ bs = [block])
  \/ (bs = [] /\ forall ann, ~ successful_annotation s title_match item ann).

(** The news items of all the groups, in order. *)
Definition news_items (h : list obj) (news_groups : val) (items : list val) : Prop :=
  exists groups per_group,
    items_of h news_groups = Some groups
    /\ Forall2 (fun group news =>
                  exists fields,
                    fields_of h group = Some fields
                    /\ items_of h (field_or "news" (VJ (JList [])) fields) = Some news)
               groups per_group
    /\ items = concat per_group.

(** What follows a line in the output: for a list item that holds a
    link, the blocks of the news items, in order; for any other line,
    nothing. *)
Definition line_blocks (s : state) (news_groups : val) (line : string) (bs : list string)
  : Prop :=
  if is_news_line line then
    exists title_match items per_item,
      title_match_of line = Ok title_match
      /\ news_items (heap s) news_groups items
      /\ Forall2 (item_block s title_match) items per_item
      /\ bs = concat per_item
  else bs = [].

(** The same, in the terms of the report. A line is a list item that
    holds a link when, white space around it set aside, it opens with the
    tag [<li>] written without attributes, and [href=] occurs in it. *)
Definition linked_item_line (line : string) : Prop :=
  (exists rest, Text.strip line = "<li>" +:+ rest) /\ Text.occurs_in "href=" line.

(** The anchor text taken from a line: of the pieces the line falls into
    at every double quote followed by [>], the second, up to its first
    [</a>]; the empty text when the line has no such double quote or no
    [</a>]. *)
Definition anchor_text (line a : string) : Prop :=
  (Text.occurs_in (Text.dq +:+ ">") line
   /\ Text.occurs_in "</a>" line
   /\ exists rest,
       Text.split (Text.dq +:+ ">") line !! 1%nat = Some rest
       /\ Text.split "</a>" rest !! 0%nat = Some a)
  \/ (~ (Text.occurs_in (Text.dq +:+ ">") line /\ Text.occurs_in "</a>" line)
      /\ a = EmptyString).

(** What follows a line in the output: after a list item that holds a
    link, the blocks of the news items whose title holds the anchor text
    and whose annotation is successful, in the order of the groups; after
    any other line, nothing. *)
Definition blocks_after (s : state) (news_groups : val) (line : string) (bs : list string)
  : Prop :=
  (linked_item_line line ->
   exists a items per_item,
     anchor_text line a
     /\ news_items (heap s) news_groups items
     /\ Forall2 (item_block s a) items per_item
     /\ bs = concat per_item)
  /\ (~ linked_item_line line -> bs = []).

(** C9 in its own words. A list item, whether its tag has attributes or
    not; a link in it; the text of the link. *)
Definition list_item_line (line : string) : Prop :=
  (exists rest, Text.strip line = "<li>" +:+ rest)
  \/ (exists rest, Text.strip line = "<li " +:+ rest).

Definition holds_link (line : string) : Prop :=
  Text.occurs_in "<a " line /\ Text.occurs_in "href=" line.

Definition link_text (line a : string) : Prop :=
  exists pre attrs post,
    line = pre +:+ "<a " +:+ attrs +:+ ">" +:+ a +:+ "</a>" +:+ post
    /\ ~ Text.occurs_in ">" attrs
    /\ ~ Text.occurs_in "</a>" a.

(** After every list item that holds a link, the block of each news item
    whose title holds the text of the link and whose annotation is
    successful stands directly after the line. *)
Definition blocks_follow_linked_items (html_content : string) (news_groups : val)
           (s : state) : Prop :=
  forall out line a items item ann block,
    add_ai_html_blocks html_content news_groups s = Return out s ->
    line ∈ Text.split Text.nl html_content ->
    list_item_line line ->
    holds_link line ->
    link_text line a ->
    news_items (heap s) news_groups items ->
    item ∈ items ->
    successful_annotation s a item ann ->
    rendered_block s ann block ->
    Text.occurs_in (line +:+ Text.nl +:+ block) out.

(** The characters of a text. *)
Definition no_newline (line : string) : Prop :=
  Text.byte 10 ∉ list_ascii_of_string line.

(** ** Well-formed payloads *)





(** ** Well-formed news groups *)

(** [v] can be iterated and holds texts. *)
Definition texts_ok (h : list obj) (v : val) : Prop :=
  exists texts, items_of h v = Some (List.map (fun t => VJ (JStr t)) texts).

(** An annotation [add_ai_html_blocks] can handle: empty, or a dictionary
    that records an error or whose two lists hold texts. *)
Definition annotation_ok (h : list obj) (ann : val) : Prop :=
  truthy_in h ann = Some false
  \/ exists fields,
      fields_of h ann = Some fields
      /\ (is_Some (assoc "error" fields)
          \/ (texts_ok h (field_or "benefit_sectors" (VJ (JList [])) fields)
              /\ texts_ok h (field_or "small_cap_stocks" (VJ (JList [])) fields))).

Definition item_ok (h : list obj) (item : val) : Prop :=
  exists fields,
    fields_of h item = Some fields
    /\ (exists t, field_or "title" (VJ (JStr EmptyString)) fields = VJ (JStr t))
    /\ forall ann, assoc "ai_annotation" fields = Some ann -> annotation_ok h ann.

Definition group_ok (h : list obj) (group : val) : Prop :=
  exists fields news,
    fields_of h group = Some fields
    /\ items_of h (field_or "news" (VJ (JList [])) fields) = Some news
    /\ Forall (item_ok h) news.

Definition groups_ok (h : list obj) (news_groups : val) : Prop :=
  exists groups, items_of h news_groups = Some groups /\ Forall (group_ok h) groups.

(** ** Notions for the further properties *)

(** A statement that prints and sends nothing and leaves the module-level
    instance as it is, whenever it returns. *)
Definition keeps_log {A} (m : M A) : Prop :=
  forall s a s',
    m s = Return a s' ->
    trace s' = trace s /\ stock_associator_global s' = stock_associator_global s.

(** What [format_stock_info] shows of one stock, and the heading it puts
    in front, by platform: coloured for feishu, bold for telegram, plain
    for every other platform. *)
Definition stock_cell (platform name code : string) : string :=
  let cell := "[" +:+ name +:+ "(" +:+ code +:+ ")]" in
  if String.eqb platform "feishu" then "<font color='blue'>" +:+ cell +:+ "</font>"
  else if String.eqb platform "telegram" then "<b>" +:+ cell +:+ "</b>"
  else cell.

Definition stock_heading (platform : string) : string :=
  if String.eqb platform "feishu" then " <font color='grey'>相关股票:</font> "
  else if String.eqb platform "telegram" then " <b>相关股票:</b> "
  else " 相关股票: ".

(** [stock] is a dictionary with a name and a code, which print as
    [shown.1] and [shown.2]. *)
Definition stock_shown (s : state) (stock : val) (shown : string * string) : Prop :=
  exists fields name code,
    fields_of (heap s) stock = Some fields
    /\ assoc "股票名称" fields = Some name
    /\ assoc "股票代码" fields = Some code
    /\ py_str name s = Return shown.1 s
    /\ py_str code s = Return shown.2 s.

(** [stock] is a dictionary whose first missing key, of the two
    [format_stock_info] reads, is [k]. *)
Definition stock_lacks (h : list obj) (stock : val) (k : string) : Prop :=
  exists fields,
    fields_of h stock = Some fields
    /\ ((assoc "股票名称" fields = None /\ k = "股票名称")
        \/ (is_Some (assoc "股票名称" fields)
            /\ assoc "股票代码" fields = None /\ k = "股票代码")).

(** From the store [h] to [h'] every object is as it was, but for the
    [ai_annotation] of dictionaries. *)
Definition only_annotated (h h' : list obj) : Prop :=
  forall l o,
    h !! l = Some o ->
    match o with
    | ODict kvs =>
        exists kvs',
          h' !! l = Some (ODict kvs')
          /\ forall k, k <> "ai_annotation" -> assoc k kvs' = assoc k kvs
    | _ => h' !! l = Some o
    end.

(** A news item that was never annotated: a dictionary with a text title
    (or none) and no [ai_annotation]. *)
Definition not_annotated (h : list obj) (item : val) : Prop :=
  exists fields,
    fields_of h item = Some fields
    /\ (exists t, field_or "title" (VJ (JStr EmptyString)) fields = VJ (JStr t))
    /\ assoc "ai_annotation" fields = None.

(** The requests sent so far, in order. *)
Definition posted (tr : list event) : list request :=
  omap (fun e => match e with Posted r => Some r | _ => None end) tr.

(** A statement that sends no request, however it ends. *)
Definition adds_no_request {A} (m : M A) : Prop :=
  forall s,
    match m s with
    | Return _ s' => posted (trace s') = posted (trace s)
    | Throw _ s' => posted (trace s') = posted (trace s)
    | Stuck => True
    end.

(** * Properties *)

(** ** Text *)

Lemma starts_with_spec p s :
  Text.starts_with p s = true <-> exists post, s = p +:+ post.
Proof.
  revert s. induction p as [|a p IH]; intros s; simpl.
  - split; [intros _; exists s; reflexivity | reflexivity].
  - destruct s as [|b s]; simpl.
    + split; [discriminate | intros [post H]; discriminate].
    + destruct (Ascii.eqb_spec a b) as [->|Hne].
      * rewrite IH. split; intros [post H]; exists post; [now rewrite H | now inversion H].
      * split; [discriminate | intros [post H]; inversion H; congruence].
Qed.

Lemma contains_starts needle hay :
  Text.starts_with needle hay = true -> Text.contains needle hay = true.
Proof. destruct hay; simpl; intros ->; reflexivity. Qed.

Lemma contains_spec needle hay :
  Text.contains needle hay = true <-> Text.occurs_in needle hay.
Proof.
  split.
  - induction hay as [|a hay IH]; simpl; rewrite orb_true_iff; intros [H|H].
    + apply starts_with_spec in H as [post ->]. exists EmptyString, post. reflexivity.
    + discriminate.
    + apply starts_with_spec in H as [post H]. exists EmptyString, post. exact H.
    + destruct (IH H) as (pre & post & ->). exists (String a pre), post. reflexivity.
  - intros (pre & post & ->). induction pre as [|a pre IH]; simpl.
    + apply contains_starts, starts_with_spec. eauto.
    + change (String a pre +:+ needle +:+ post) with (String a (pre +:+ needle +:+ post)).
      cbn [Text.contains]. rewrite IH. apply orb_true_r.
Qed.

(** ** Loops over immutable data *)

Lemma rmap_Ok {A B} (f : A -> res B) xs ys :
  rmap f xs = Ok ys <-> Forall2 (fun x y => f x = Ok y) xs ys.
Proof.
  revert ys. induction xs as [|x xs IH]; intros ys; simpl.
  - split; [intros [= <-]; constructor | intros H; inversion H; reflexivity].
  - destruct (f x) as [y|e] eqn:Hx; simpl.
    + destruct (rmap f xs) as [ys'|e] eqn:Hxs; simpl.
      * split.
        -- intros [= <-]. constructor; [exact Hx | now apply IH].
        -- intros H. inversion H as [|? y0 ? ys0 Hy Hys]; subst.
           rewrite Hx in Hy. injection Hy as <-. apply IH in Hys. now injection Hys as <-.
      * split; [discriminate|].
        intros H. inversion H as [|? y0 ? ys0 Hy Hys]; subst.
        apply IH in Hys. discriminate.
    + split; [discriminate|].
      intros H. inversion H as [|? y0 ? ys0 Hy Hys]; subst. congruence.
Qed.

(** A loop that appends what each item contributes computes the
    contributions first and joins them. *)
Lemma rfor_collect {A B C} (hit : A -> res C) (contrib : C -> list B)
      (body : list B -> A -> res (list B)) :
  (forall acc x, body acc x = rbind (hit x) (fun c => Ok (acc ++ contrib c))) ->
  forall xs acc,
    rfor xs acc body
    = rbind (rmap hit xs) (fun cs => Ok (acc ++ concat (List.map contrib cs))).
Proof.
  intros Hbody xs. induction xs as [|x xs IH]; intros acc; simpl.
  - now rewrite app_nil_r.
  - rewrite Hbody. destruct (hit x) as [c|e]; simpl; [|reflexivity].
    rewrite IH. destruct (rmap hit xs) as [cs|e]; simpl; [|reflexivity].
    now rewrite app_assoc.
Qed.

Lemma concat_option_list {A} (hits : list (option A)) :
  concat (List.map option_list hits) = omap id hits.
Proof.
  induction hits as [|[r|] hits IH]; simpl; [reflexivity | | exact IH].
  now rewrite IH.
Qed.

(** ** Sorting *)

Lemma insert_desc_perm {A} k (x : A) l :
  Permutation (insert_desc k x l) ((k, x) :: l).
Proof.
  induction l as [|[k' y] l IH]; simpl; [reflexivity|].
  destruct (k <? k'); [|reflexivity].
  rewrite IH. apply perm_swap.
Qed.

Lemma stable_sort_desc_perm {A} (l : list (Z * A)) :
  Permutation (stable_sort_desc l) l.
Proof.
  induction l as [|[k x] l IH]; simpl; [reflexivity|].
  rewrite insert_desc_perm. now constructor.
Qed.

Lemma insert_desc_map {A B} (f : A -> B) k x l :
  insert_desc k (f x) (prod_map id f <$> l)
  = prod_map id f <$> insert_desc k x l.
Proof.
  induction l as [|[k' y] l IH]; simpl; [reflexivity|].
  destruct (k <? k'); simpl; [f_equal; exact IH | reflexivity].
Qed.

Lemma stable_sort_desc_map {A B} (f : A -> B) l :
  stable_sort_desc (prod_map id f <$> l)
  = prod_map id f <$> stable_sort_desc l.
Proof.
  induction l as [|[k x] l IH]; simpl; [reflexivity|].
  etransitivity; [|apply insert_desc_map]. f_equal. exact IH.
Qed.

(** An item that comes from an earlier position than all of [l] lands in
    front of the items of [l] that are not stronger. *)
Lemma insert_desc_sorted {A} k p (x : A) l :
  StronglySorted sorted_before l ->
  Forall (fun y => (p < y.2.1)%nat) l ->
  StronglySorted sorted_before (insert_desc k (p, x) l).
Proof.
  induction l as [|[k' y] l IH]; simpl; intros Hs Hp.
  - repeat constructor.
  - apply StronglySorted_inv in Hs as [Hs Hall].
    apply Forall_cons in Hp as [Hpy Hp].
    destruct (Z.ltb_spec k k') as [Hlt|Hge].
    + constructor; [now apply IH|].
      eapply Permutation_Forall; [symmetry; apply insert_desc_perm|].
      constructor; [left; simpl; lia | exact Hall].
    + constructor; [now constructor|].
      constructor.
      * unfold sorted_before; simpl in *. lia.
      * rewrite Forall_forall in *. intros [k2 [q z]] Hin.
        specialize (Hall _ Hin). specialize (Hp _ Hin).
        unfold sorted_before in *; simpl in *. lia.
Qed.

Lemma stable_sort_desc_sorted {A} (l : list (Z * (nat * A))) :
  StronglySorted (fun a b => (a.2.1 < b.2.1)%nat) l ->
  StronglySorted sorted_before (stable_sort_desc l).
Proof.
  induction l as [|[k [p x]] l IH]; simpl; intros Hs; [constructor|].
  apply StronglySorted_inv in Hs as [Hs Hall].
  apply insert_desc_sorted; [now apply IH|].
  eapply Permutation_Forall; [symmetry; apply stable_sort_desc_perm | exact Hall].
Qed.

Lemma StronglySorted_lookup {A} (R : A -> A -> Prop) l i j x y :
  StronglySorted R l -> (i < j)%nat -> l !! i = Some x -> l !! j = Some y -> R x y.
Proof.
  intros Hs. revert i j x y. induction Hs as [|a l Hs IH Hall]; intros i j x y Hij Hi Hj.
  - discriminate.
  - destruct j as [|j]; [lia|]. simpl in Hj.
    destruct i as [|i]; simpl in Hi.
    + injection Hi as <-. rewrite Forall_forall in Hall.
      apply Hall. eapply list_elem_of_lookup_2, Hj.
    + eapply IH; [|exact Hi|exact Hj]. lia.
Qed.

(** ** Records and their table positions *)

Lemma tag_hits_snd {A} p (hits : list (option A)) :
  snd <$> tag_hits p hits = omap id hits.
Proof.
  revert p. induction hits as [|[r|] hits IH]; intros p; simpl; [reflexivity | | apply IH].
  f_equal. apply IH.
Qed.

Lemma tag_hits_elem {A} p (hits : list (option A)) q r :
  (q, r) ∈ tag_hits p hits <-> (p <= q)%nat /\ hits !! (q - p)%nat = Some (Some r).
Proof.
  revert p. induction hits as [|h hits IH]; intros p.
  - simpl. rewrite elem_of_nil. split; [contradiction | intros [_ H]; discriminate].
  - assert (Hrest : (q, r) ∈ tag_hits (S p) hits
                    <-> (p < q)%nat /\ (h :: hits) !! (q - p)%nat = Some (Some r)).
    { rewrite IH. split; intros [Hle H]; (split; [lia|]).
      - replace (q - p)%nat with (S (q - S p)) by lia. exact H.
      - replace (q - p)%nat with (S (q - S p)) in H by lia. exact H. }
    destruct h as [r'|]; simpl tag_hits.
    + rewrite elem_of_cons, Hrest. split.
      * intros [[= <- <-]|[Hlt H]]; [|split; [lia | exact H]].
        split; [lia|]. now rewrite Nat.sub_diag.
      * intros [Hle H]. destruct (decide (q = p)) as [->|Hne].
        -- left. rewrite Nat.sub_diag in H. simpl in H. congruence.
        -- right. split; [lia | exact H].
    + rewrite Hrest. split; intros [Hle H]; (split; [|exact H]); [lia|].
      destruct (decide (q = p)) as [->|Hne]; [|lia].
      rewrite Nat.sub_diag in H. discriminate.
Qed.

Lemma tag_hits_sorted {A} p (hits : list (option A)) :
  StronglySorted (fun a b => (a.1 < b.1)%nat) (tag_hits p hits).
Proof.
  revert p. induction hits as [|[r|] hits IH]; intros p; simpl; [constructor | | apply IH].
  constructor; [apply IH|].
  rewrite Forall_forall. intros [q r'] Hin. apply tag_hits_elem in Hin. simpl. lia.
Qed.

(** ** The best records of a table *)

Lemma ranked_hits_elem hits d :
  d ∈ ranked_hits hits <-> d.1 = strength d.2.2 /\ hits !! d.2.1 = Some (Some d.2.2).
Proof.
  unfold ranked_hits. rewrite stable_sort_desc_perm, list_elem_of_fmap.
  destruct d as [k [p r]]; simpl. split.
  - intros ([q r'] & [= -> -> ->] & Hin). apply tag_hits_elem in Hin as [_ Hin].
    rewrite Nat.sub_0_r in Hin. auto.
  - intros [-> H]. exists (p, r). split; [reflexivity|].
    apply tag_hits_elem. rewrite Nat.sub_0_r. split; [lia | exact H].
Qed.

Lemma ranked_hits_sorted hits : StronglySorted sorted_before (ranked_hits hits).
Proof.
  apply stable_sort_desc_sorted.
  generalize (tag_hits_sorted (A:=json) 0 hits). generalize (tag_hits (A:=json) 0 hits).
  intros l Hs. induction Hs as [|a l Hs IH Hall]; simpl.
  - constructor.
  - constructor; [exact IH|].
    rewrite Forall_forall in Hall. apply Forall_forall.
    intros y (x & -> & Hin)%list_elem_of_fmap. simpl. auto.
Qed.

Lemma sorted_before_ranks (d1 d2 : Z * (nat * json)) :
  d1.1 = strength d1.2.2 -> d2.1 = strength d2.2.2 ->
  sorted_before d1 d2 -> ranks_before d1.2.2 d1.2.1 d2.2.2 d2.2.1.
Proof. unfold sorted_before, ranks_before. intros <- <-. lia. Qed.

Lemma take_top_ranked n hit entries hits :
  Forall2 (fun e h => hit e = Ok h) entries hits ->
  top_ranked n hit entries (take n ((fun d => d.2.2) <$> ranked_hits hits)).
Proof.
  intros HF. pose proof (ranked_hits_sorted hits) as Hsorted.
  pose proof (ranked_hits_elem hits) as Helem.
  set (S := ranked_hits hits) in *.
  rewrite <- fmap_take. split.
  - rewrite length_fmap, length_take. lia.
  - exists ((fun d => d.2.1) <$> take n S). split; [|split].
    + apply Forall2_fmap, Forall_Forall2_diag, Forall_forall.
      intros d Hd%elem_of_take. destruct Hd as (i & Hd & _).
      apply list_elem_of_lookup_2, Helem in Hd as [_ Hd].
      destruct (Forall2_lookup_r _ _ _ _ _ HF Hd) as (e & He & Hhit). eauto.
    + intros i j a b p q Hij Ha Hp Hb Hq.
      apply list_lookup_fmap_Some in Ha as (da & -> & Hda).
      apply list_lookup_fmap_Some in Hp as (da' & -> & Hda').
      apply list_lookup_fmap_Some in Hb as (db & -> & Hdb).
      apply list_lookup_fmap_Some in Hq as (db' & -> & Hdb').
      assert (da' = da) as -> by congruence. assert (db' = db) as -> by congruence.
      apply lookup_take_Some in Hda as [Hda _]. apply lookup_take_Some in Hdb as [Hdb _].
      apply sorted_before_ranks.
      * eapply Helem, list_elem_of_lookup_2, Hda.
      * eapply Helem, list_elem_of_lookup_2, Hdb.
      * eapply StronglySorted_lookup; eauto.
    + intros q e c He Hhit Hq.
      destruct (Forall2_lookup_l _ _ _ _ _ HF He) as (h & Hh & Hhit').
      assert (h = Some c) as -> by congruence.
      assert (Hd : (strength c, (q, c)) ∈ S) by (apply Helem; auto).
      rewrite <- (take_drop n S) in Hd. apply elem_of_app in Hd as [Hd|Hd].
      { exfalso. apply Hq. apply list_elem_of_fmap. eexists. split; [|exact Hd]. reflexivity. }
      apply list_elem_of_lookup in Hd as [k Hk]. rewrite lookup_drop in Hk.
      pose proof (lookup_lt_Some _ _ _ Hk) as Hlen.
      split; [rewrite length_fmap, length_take; lia|].
      intros i a p Ha Hp.
      apply list_lookup_fmap_Some in Ha as (da & -> & Hda).
      apply list_lookup_fmap_Some in Hp as (da' & -> & Hda').
      assert (da' = da) as -> by congruence.
      apply lookup_take_Some in Hda as [Hda Hi].
      apply (sorted_before_ranks da (strength c, (q, c))).
      * eapply Helem, list_elem_of_lookup_2, Hda.
      * reflexivity.
      * eapply (StronglySorted_lookup _ S i (n + k)); eauto. lia.
Qed.

(** ** The two searches *)

Lemma scan_keywords_hits title_lower keywords :
  scan_keywords title_lower keywords
  = (items <- Json.iter keywords ;;
     hits <- rmap (keyword_hit title_lower) items ;;
     Ok (omap id hits))%res.
Proof.
  unfold scan_keywords. destruct (Json.iter keywords) as [items|e]; simpl; [|reflexivity].
  rewrite (rfor_collect (keyword_hit title_lower) option_list).
  - destruct (rmap _ _); simpl; [now rewrite concat_option_list | reflexivity].
  - intros acc x. unfold keyword_hit. destruct (str_lower x) as [kl|e]; simpl; [|reflexivity].
    destruct (Text.contains kl title_lower); simpl; [reflexivity | now rewrite app_nil_r].
Qed.

Lemma collect_related_stocks_hits self title :
  collect_related_stocks self title
  = (title_lower <- str_lower title ;;
     entries <- Json.iter (stock_mappings self) ;;
     hits <- rmap (stock_hit title_lower) entries ;;
     Ok (omap id hits))%res.
Proof.
  unfold collect_related_stocks.
  destruct (str_lower title) as [tl|e]; simpl; [|reflexivity].
  destruct (Json.iter (stock_mappings self)) as [entries|e]; simpl; [|reflexivity].
  rewrite (rfor_collect (stock_hit tl) option_list).
  - destruct (rmap _ _); simpl; [now rewrite concat_option_list | reflexivity].
  - intros acc x. unfold stock_hit.
    destruct (Json.getitem x "股票名称") as [name|e]; simpl; [|reflexivity].
    destruct (Json.getitem x "股票代码") as [code|e]; simpl; [|reflexivity].
    destruct (Json.getitem x "关联关键词") as [kws|e]; simpl; [|reflexivity].
    destruct (scan_keywords tl kws) as [[|m ms]|e]; simpl; [|reflexivity..].
    now rewrite app_nil_r.
Qed.

Lemma collect_related_industries_hits self title :
  collect_related_industries self title
  = (title_lower <- str_lower title ;;
     entries <- Json.iter (industry_mappings self) ;;
     hits <- rmap (industry_hit title_lower) entries ;;
     Ok (omap id hits))%res.
Proof.
  unfold collect_related_industries.
  destruct (str_lower title) as [tl|e]; simpl; [|reflexivity].
  destruct (Json.iter (industry_mappings self)) as [entries|e]; simpl; [|reflexivity].
  rewrite (rfor_collect (industry_hit tl) option_list).
  - destruct (rmap _ _); simpl; [now rewrite concat_option_list | reflexivity].
  - intros acc x. unfold industry_hit.
    destruct (Json.getitem x "板块名称") as [name|e]; simpl; [|reflexivity].
    destruct (Json.getitem x "关联关键词") as [kws|e]; simpl; [|reflexivity].
    destruct (scan_keywords tl kws) as [[|m ms]|e]; simpl; [|reflexivity..].
    now rewrite app_nil_r.
Qed.

(** Inverting a chain of [rbind]s that returned. *)
Ltac rbind_inv H :=
  repeat match type of H with
         | rbind ?r _ = Ok _ =>
             let E := fresh "E" in
             destruct r eqn:E; simpl in H; [|discriminate H]
         end.

Lemma stock_hit_strength title_lower e r :
  stock_hit title_lower e = Ok (Some r) ->
  Json.getitem r "匹配强度" = Ok (JInt (strength r)).
Proof.
  unfold stock_hit. intros H. rbind_inv H.
  destruct a2; [discriminate|]. now injection H as <-.
Qed.

Lemma industry_hit_strength title_lower e r :
  industry_hit title_lower e = Ok (Some r) ->
  Json.getitem r "匹配强度" = Ok (JInt (strength r)).
Proof.
  unfold industry_hit. intros H. rbind_inv H.
  destruct a1; [discriminate|]. now injection H as <-.
Qed.

Lemma combine_fmap_self {A B} (f : A -> B) (l : list A) :
  combine (f <$> l) l = (fun x => (f x, x)) <$> l.
Proof. induction l as [|x l IH]; simpl; [reflexivity | f_equal; exact IH]. Qed.

Lemma list_sort_reverse_records cs :
  Forall (fun r => Json.getitem r "匹配强度" = Ok (JInt (strength r))) cs ->
  list_sort_reverse (fun x => Json.getitem x "匹配强度") cs
  = Ok (snd <$> stable_sort_desc ((fun r => (strength r, r)) <$> cs)).
Proof.
  intros Hall. unfold list_sort_reverse.
  assert (Hkeys : rmap (fun x => rbind (Json.getitem x "匹配强度") int_key) cs
                  = Ok (strength <$> cs)).
  { apply rmap_Ok, Forall2_fmap_r, Forall_Forall2_diag.
    eapply Forall_impl; [exact Hall|]. intros r Hr. simpl. now rewrite Hr. }
  rewrite Hkeys. simpl. now rewrite combine_fmap_self.
Qed.

Lemma sort_hits (hits : list (option json)) :
  snd <$> stable_sort_desc ((fun r => (strength r, r)) <$> omap id hits)
  = (fun d => d.2.2) <$> ranked_hits hits.
Proof.
  unfold ranked_hits. rewrite <- tag_hits_snd with (p := 0%nat).
  rewrite <- list_fmap_compose.
  rewrite (list_fmap_ext _ (prod_map id snd ∘ (fun pr : nat * json => (strength pr.2, pr))))
    by (intros ? [? ?] _; reflexivity).
  rewrite list_fmap_compose, stable_sort_desc_map.
  rewrite <- list_fmap_compose. apply list_fmap_ext. now intros ? [? [? ?]] _.
Qed.

Lemma sorted_hits_top_ranked n hit entries hits :
  (forall e r, hit e = Ok (Some r) -> Json.getitem r "匹配强度" = Ok (JInt (strength r))) ->
  rmap hit entries = Ok hits ->
  exists sorted,
    list_sort_reverse (fun x => Json.getitem x "匹配强度") (omap id hits) = Ok sorted
    /\ top_ranked n hit entries (take n sorted).
Proof.
  intros Hkey Hhits%rmap_Ok. eexists. split.
  - apply list_sort_reverse_records. apply Forall_forall.
    intros r Hr. apply list_elem_of_omap in Hr as ([r0|] & Hin & Heq); [|discriminate]. injection Heq as ->.
    apply list_elem_of_lookup in Hin as [i Hi].
    destruct (Forall2_lookup_r _ _ _ _ _ Hhits Hi) as (e & _ & He). eauto.
  - rewrite sort_hits. now apply take_top_ranked.
Qed.

(** The best records of a table, best first, are what a search returns. *)
Lemma find_related_stocks_ranked self title rs :
  find_related_stocks self title = Ok rs ->
  exists title_lower entries,
    str_lower title = Ok title_lower
    /\ Json.iter (stock_mappings self) = Ok entries
    /\ top_ranked 3 (stock_hit title_lower) entries rs.
Proof.
  intros H. unfold find_related_stocks in H. rewrite collect_related_stocks_hits in H.
  destruct (str_lower title) as [tl|] eqn:Htl; simpl in H; [|discriminate].
  destruct (Json.iter (stock_mappings self)) as [entries|] eqn:Hit; simpl in H; [|discriminate].
  destruct (rmap (stock_hit tl) entries) as [hits|] eqn:Hhits; simpl in H; [|discriminate].
  destruct (sorted_hits_top_ranked 3 _ _ _ (stock_hit_strength tl) Hhits)
    as (sorted & Hsort & Htop).
  rewrite Hsort in H. simpl in H. injection H as <-. eauto.
Qed.

Lemma find_related_industries_ranked self title rs :
  find_related_industries self title = Ok rs ->
  exists title_lower entries,
    str_lower title = Ok title_lower
    /\ Json.iter (industry_mappings self) = Ok entries
    /\ top_ranked 2 (industry_hit title_lower) entries rs.
Proof.
  intros H. unfold find_related_industries in H. rewrite collect_related_industries_hits in H.
  destruct (str_lower title) as [tl|] eqn:Htl; simpl in H; [|discriminate].
  destruct (Json.iter (industry_mappings self)) as [entries|] eqn:Hit; simpl in H; [|discriminate].
  destruct (rmap (industry_hit tl) entries) as [hits|] eqn:Hhits; simpl in H; [|discriminate].
  destruct (sorted_hits_top_ranked 2 _ _ _ (industry_hit_strength tl) Hhits)
    as (sorted & Hsort & Htop).
  rewrite Hsort in H. simpl in H. injection H as <-. eauto.
Qed.


(** ** What an entry contributes *)

Lemma rmap_keyword_hit title_lower items :
  rmap (keyword_hit title_lower) items
  = (kws <- rmap text_of items ;;
     Ok ((fun kw => if Text.contains (lower kw) title_lower then Some (JStr kw) else None)
           <$> kws))%res.
Proof.
  induction items as [|x items IH]; simpl; [reflexivity|].
  rewrite IH. unfold keyword_hit at 1, str_lower, text_of at 2.
  destruct x; simpl; try reflexivity.
  destruct (rmap text_of items); reflexivity.
Qed.

Lemma omap_found title_lower kws :
  omap id ((fun kw => if Text.contains (lower kw) title_lower then Some (JStr kw) else None)
             <$> kws)
  = JStr <$> found_keywords title_lower kws.
Proof.
  unfold found_keywords. induction kws as [|kw kws IH]; simpl; [reflexivity|].
  destruct (Text.contains (lower kw) title_lower); simpl; [f_equal|]; exact IH.
Qed.

Lemma scan_keywords_found title_lower keywords :
  scan_keywords title_lower keywords
  = (items <- Json.iter keywords ;;
     kws <- rmap text_of items ;;
     Ok (JStr <$> found_keywords title_lower kws))%res.
Proof.
  rewrite scan_keywords_hits.
  destruct (Json.iter keywords) as [items|]; simpl; [|reflexivity].
  rewrite rmap_keyword_hit. destruct (rmap text_of items); simpl; [|reflexivity].
  now rewrite omap_found.
Qed.

Lemma found_keywords_elem title_lower kws kw :
  kw ∈ found_keywords title_lower kws
  <-> kw ∈ kws /\ Text.occurs_in (lower kw) title_lower.
Proof.
  unfold found_keywords. rewrite list_elem_of_In, filter_In, <- list_elem_of_In.
  now rewrite contains_spec.
Qed.

Lemma found_keywords_nonempty title_lower kws :
  found_keywords title_lower kws <> []
  <-> exists kw, kw ∈ kws /\ Text.occurs_in (lower kw) title_lower.
Proof.
  split.
  - destruct (found_keywords title_lower kws) as [|kw l] eqn:E; [congruence|].
    intros _. exists kw. apply found_keywords_elem. rewrite E. left.
  - intros (kw & Hkw) E. apply found_keywords_elem in Hkw. rewrite E in Hkw.
    now apply elem_of_nil in Hkw.
Qed.

Lemma found_keywords_NoDup title_lower kws :
  NoDup kws -> NoDup (found_keywords title_lower kws).
Proof.
  unfold found_keywords. induction 1 as [|kw kws Hnot Hnd IH]; simpl; [constructor|].
  destruct (Text.contains (lower kw) title_lower); [|exact IH].
  constructor; [|exact IH].
  intros Hin. apply Hnot. apply list_elem_of_In. apply list_elem_of_In in Hin.
  now apply filter_In in Hin.
Qed.

Lemma remove_dups_NoDup {A} `{EqDecision A} (l : list A) :
  NoDup l -> remove_dups l = l.
Proof.
  induction 1 as [|x l Hnot Hnd IH]; simpl; [reflexivity|].
  destruct (decide_rel elem_of x l); [contradiction | now rewrite IH].
Qed.

Lemma distinct_found_count_NoDup title_lower kws :
  NoDup kws -> distinct_found_count title_lower kws = found_count title_lower kws.
Proof.
  intros H. unfold distinct_found_count, found_count.
  now rewrite remove_dups_NoDup by now apply found_keywords_NoDup.
Qed.

(** The shape of what [stock_hit] and [industry_hit] return. *)
Lemma stock_hit_found title_lower e h :
  stock_hit title_lower e = Ok h ->
  exists name code kws,
    Json.getitem e "股票名称" = Ok name
    /\ Json.getitem e "股票代码" = Ok code
    /\ entry_keywords e = Ok kws
    /\ h = match found_keywords title_lower kws with
           | [] => None
           | m => Some (stock_record code name (JStr <$> m))
           end.
Proof.
  unfold stock_hit, entry_keywords. intros H.
  destruct (Json.getitem e "股票名称") as [name|]; simpl in H; [|discriminate].
  destruct (Json.getitem e "股票代码") as [code|]; simpl in H; [|discriminate].
  destruct (Json.getitem e "关联关键词") as [keywords|]; simpl in *; [|discriminate].
  rewrite scan_keywords_found in H.
  destruct (Json.iter keywords) as [items|]; simpl in *; [|discriminate].
  destruct (rmap text_of items) as [kws|]; simpl in *; [|discriminate].
  exists name, code, kws. repeat split; try reflexivity.
  injection H as <-. now destruct (found_keywords title_lower kws).
Qed.

Lemma industry_hit_found title_lower e h :
  industry_hit title_lower e = Ok h ->
  exists name kws,
    Json.getitem e "板块名称" = Ok name
    /\ entry_keywords e = Ok kws
    /\ h = match found_keywords title_lower kws with
           | [] => None
           | m => Some (industry_record name (JStr <$> m))
           end.
Proof.
  unfold industry_hit, entry_keywords. intros H.
  destruct (Json.getitem e "板块名称") as [name|]; simpl in H; [|discriminate].
  destruct (Json.getitem e "关联关键词") as [keywords|]; simpl in *; [|discriminate].
  rewrite scan_keywords_found in H.
  destruct (Json.iter keywords) as [items|]; simpl in *; [|discriminate].
  destruct (rmap text_of items) as [kws|]; simpl in *; [|discriminate].
  exists name, kws. repeat split; try reflexivity.
  injection H as <-. now destruct (found_keywords title_lower kws).
Qed.

Lemma stock_hit_counts title_lower e h :
  stock_hit title_lower e = Ok h -> hit_counts stock_hit found_count title_lower e h.
Proof.
  intros H. split; [exact H|].
  destruct (stock_hit_found _ _ _ H) as (name & code & kws & _ & _ & Hkws & ->).
  exists kws. split; [exact Hkws|]. rewrite <- found_keywords_nonempty.
  unfold found_count. destruct (found_keywords title_lower kws) as [|m ms]; split.
  - split; [intros [? [=]] | congruence].
  - discriminate.
  - split; [discriminate | eauto].
  - intros r [= <-]. unfold strength, stock_record. simpl. now rewrite length_fmap.
Qed.

Lemma industry_hit_counts title_lower e h :
  industry_hit title_lower e = Ok h -> hit_counts industry_hit found_count title_lower e h.
Proof.
  intros H. split; [exact H|].
  destruct (industry_hit_found _ _ _ H) as (name & kws & _ & Hkws & ->).
  exists kws. split; [exact Hkws|]. rewrite <- found_keywords_nonempty.
  unfold found_count. destruct (found_keywords title_lower kws) as [|m ms]; split.
  - split; [intros [? [=]] | congruence].
  - discriminate.
  - split; [discriminate | eauto].
  - intros r [= <-]. unfold strength, industry_record. simpl. now rewrite length_fmap.
Qed.

(** The list collected from a table holds one record for each entry with a
    keyword that occurs, in table order, of the strength [found_count]. *)
Lemma collect_related_stocks_counts self title cs :
  collect_related_stocks self title = Ok cs ->
  collected_counts stock_hit found_count (stock_mappings self) title cs.
Proof.
  intros H. rewrite collect_related_stocks_hits in H.
  destruct (str_lower title) as [tl|] eqn:Htl; simpl in H; [|discriminate].
  destruct (Json.iter (stock_mappings self)) as [entries|] eqn:Hit; simpl in H; [|discriminate].
  destruct (rmap (stock_hit tl) entries) as [hits|] eqn:Hhits; simpl in H; [|discriminate].
  injection H as <-. exists tl, entries, hits.
  split; [exact Htl|]. split; [exact Hit|]. split; [|reflexivity].
  apply rmap_Ok in Hhits. eapply Forall2_impl; [exact Hhits|]. apply stock_hit_counts.
Qed.

Lemma collect_related_industries_counts self title cs :
  collect_related_industries self title = Ok cs ->
  collected_counts industry_hit found_count (industry_mappings self) title cs.
Proof.
  intros H. rewrite collect_related_industries_hits in H.
  destruct (str_lower title) as [tl|] eqn:Htl; simpl in H; [|discriminate].
  destruct (Json.iter (industry_mappings self)) as [entries|] eqn:Hit; simpl in H; [|discriminate].
  destruct (rmap (industry_hit tl) entries) as [hits|] eqn:Hhits; simpl in H; [|discriminate].
  injection H as <-. exists tl, entries, hits.
  split; [exact Htl|]. split; [exact Hit|]. split; [|reflexivity].
  apply rmap_Ok in Hhits. eapply Forall2_impl; [exact Hhits|]. apply industry_hit_counts.
Qed.

(** ** When the searches return *)

Lemma rmap_total {A B} (f : A -> res B) xs :
  (exists ys, rmap f xs = Ok ys) <-> Forall (fun x => exists y, f x = Ok y) xs.
Proof.
  induction xs as [|x xs IH]; simpl.
  - split; [constructor | eauto].
  - rewrite Forall_cons, <- IH. destruct (f x) as [y|e]; simpl.
    + destruct (rmap f xs) as [ys|e]; simpl.
      * split; eauto.
      * split; [intros [? [=]] | intros [_ [? [=]]]].
    + split; [intros [? [=]] | intros [[? [=]] _]].
Qed.

Lemma text_of_total items :
  (exists kws, rmap text_of items = Ok kws) <-> forallb is_text items = true.
Proof.
  rewrite rmap_total, forallb_forall, Forall_forall.
  split; intros H x Hx.
  - apply list_elem_of_In, H in Hx as [y Hy]. destruct x; try discriminate. reflexivity.
  - apply list_elem_of_In, H in Hx. destruct x; try discriminate. simpl. eauto.
Qed.

Lemma scan_keywords_total title_lower keywords :
  (exists m, scan_keywords title_lower keywords = Ok m)
  <-> match Json.iter keywords with
      | Ok items => forallb is_text items = true
      | Raise _ => False
      end.
Proof.
  rewrite scan_keywords_found.
  destruct (Json.iter keywords) as [items|e]; simpl.
  - rewrite <- text_of_total. destruct (rmap text_of items) as [kws|e]; simpl.
    + split; eauto.
    + split; intros [? [=]].
  - split; [intros [? [=]] | contradiction].
Qed.

Lemma stock_hit_total title_lower e :
  (exists h, stock_hit title_lower e = Ok h) <-> stock_entry_ok e = true.
Proof.
  unfold stock_hit, stock_entry_ok, has_key, keywords_ok, Json.getitem.
  destruct e as [| | | | |xs|kvs]; simpl; try (split; [intros [? [=]] | discriminate]).
  destruct (assoc "股票名称" kvs) as [name|]; simpl; [|split; [intros [? [=]] | discriminate]].
  destruct (assoc "股票代码" kvs) as [code|]; simpl; [|split; [intros [? [=]] | discriminate]].
  destruct (assoc "关联关键词" kvs) as [keywords|]; simpl; [|split; [intros [? [=]] | discriminate]].
  pose proof (scan_keywords_total title_lower keywords) as Hscan.
  destruct (Json.iter keywords) as [items|err]; simpl in *.
  - rewrite <- Hscan. destruct (scan_keywords title_lower keywords) as [m|err]; simpl.
    + split; eauto.
    + split; intros [? [=]].
  - destruct (scan_keywords title_lower keywords) as [m|err']; simpl.
    + exfalso. apply Hscan. eauto.
    + split; [intros [? [=]] | discriminate].
Qed.

Lemma industry_hit_total title_lower e :
  (exists h, industry_hit title_lower e = Ok h) <-> industry_entry_ok e = true.
Proof.
  unfold industry_hit, industry_entry_ok, has_key, keywords_ok, Json.getitem.
  destruct e as [| | | | |xs|kvs]; simpl; try (split; [intros [? [=]] | discriminate]).
  destruct (assoc "板块名称" kvs) as [name|]; simpl; [|split; [intros [? [=]] | discriminate]].
  destruct (assoc "关联关键词" kvs) as [keywords|]; simpl; [|split; [intros [? [=]] | discriminate]].
  pose proof (scan_keywords_total title_lower keywords) as Hscan.
  destruct (Json.iter keywords) as [items|err]; simpl in *.
  - rewrite <- Hscan. destruct (scan_keywords title_lower keywords) as [m|err]; simpl.
    + split; eauto.
    + split; intros [? [=]].
  - destruct (scan_keywords title_lower keywords) as [m|err']; simpl.
    + exfalso. apply Hscan. eauto.
    + split; [intros [? [=]] | discriminate].
Qed.

(** A search over a table returns exactly when the table can be iterated
    and every entry can be processed. *)
Lemma search_total n hit table (find : res (list json)) :
  (forall e r, hit e = Ok (Some r) -> Json.getitem r "匹配强度" = Ok (JInt (strength r))) ->
  find = (entries <- Json.iter table ;;
          hits <- rmap hit entries ;;
          sorted <- list_sort_reverse (fun x => Json.getitem x "匹配强度") (omap id hits) ;;
          Ok (take n sorted))%res ->
  (exists rs, find = Ok rs)
  <-> exists entries, Json.iter table = Ok entries
                      /\ Forall (fun e => exists h, hit e = Ok h) entries.
Proof.
  intros Hkey ->. destruct (Json.iter table) as [entries|e]; simpl.
  - split.
    + intros [rs H]. exists entries. split; [reflexivity|]. apply rmap_total.
      destruct (rmap hit entries) as [hits|]; [eauto | discriminate].
    + intros (entries' & [= <-] & Hall). apply rmap_total in Hall as [hits Hhits].
      rewrite Hhits. simpl.
      destruct (sorted_hits_top_ranked n _ _ _ Hkey Hhits) as (sorted & -> & _).
      simpl. eauto.
  - split; [intros [? [=]] | intros (? & [=] & _)].
Qed.

Lemma find_related_stocks_returns self (title : string) :
  (exists rs, find_related_stocks self (JStr title) = Ok rs)
  <-> exists entries,
      Json.iter (stock_mappings self) = Ok entries
      /\ Forall (fun e => stock_entry_ok e = true) entries.
Proof.
  rewrite (search_total 3 (stock_hit (lower title)) (stock_mappings self)).
  - split; intros (entries & Hit & Hall); exists entries; (split; [exact Hit|]);
      eapply Forall_impl; try exact Hall; intros e; apply stock_hit_total.
  - apply stock_hit_strength.
  - unfold find_related_stocks. rewrite collect_related_stocks_hits. simpl.
    destruct (Json.iter (stock_mappings self)); simpl; [|reflexivity].
    destruct (rmap _ _); reflexivity.
Qed.

Lemma find_related_industries_returns self (title : string) :
  (exists rs, find_related_industries self (JStr title) = Ok rs)
  <-> exists entries,
      Json.iter (industry_mappings self) = Ok entries
      /\ Forall (fun e => industry_entry_ok e = true) entries.
Proof.
  rewrite (search_total 2 (industry_hit (lower title)) (industry_mappings self)).
  - split; intros (entries & Hit & Hall); exists entries; (split; [exact Hit|]);
      eapply Forall_impl; try exact Hall; intros e; apply industry_hit_total.
  - apply industry_hit_strength.
  - unfold find_related_industries. rewrite collect_related_industries_hits. simpl.
    destruct (Json.iter (industry_mappings self)); simpl; [|reflexivity].
    destruct (rmap _ _); reflexivity.
Qed.

(** The collecting loop returns whenever the search does. *)
Lemma collect_related_stocks_returns self (title : string) entries :
  Json.iter (stock_mappings self) = Ok entries ->
  Forall (fun e => stock_entry_ok e = true) entries ->
  exists cs, collect_related_stocks self (JStr title) = Ok cs.
Proof.
  intros Hit Hall.
  destruct (proj2 (find_related_stocks_returns self title)) as [rs H]; [eauto|].
  unfold find_related_stocks in H.
  destruct (collect_related_stocks self (JStr title)) as [cs|e]; [eauto|].
  simpl in H. discriminate.
Qed.

Lemma collect_related_industries_returns self (title : string) entries :
  Json.iter (industry_mappings self) = Ok entries ->
  Forall (fun e => industry_entry_ok e = true) entries ->
  exists cs, collect_related_industries self (JStr title) = Ok cs.
Proof.
  intros Hit Hall.
  destruct (proj2 (find_related_industries_returns self title)) as [rs H]; [eauto|].
  unfold find_related_industries in H.
  destruct (collect_related_industries self (JStr title)) as [cs|e]; [eauto|].
  simpl in H. discriminate.
Qed.

(** ** The searches *)

(** C1. For a title that is text and tables whose entries can be
    processed, [find_related_stocks] and [find_related_industries] return.
    Whenever [find_related_stocks] returns, it returns at most 3 records,
    and [find_related_industries] at most 2; in both, the records are the
    best of their table: strengths do not increase along the list, records
    of equal strength stand in the order of their table entries, and every
    record left out is ranked after every record kept (so nothing is left
    out unless the list is full). *)
Theorem find_related_top_ranked self title :
  (forall t entries,
      title = JStr t ->
      Json.iter (stock_mappings self) = Ok entries ->
      Forall (fun e => stock_entry_ok e = true) entries ->
      exists rs, find_related_stocks self title = Ok rs)
  /\ (forall rs,
         find_related_stocks self title = Ok rs ->
         exists title_lower entries,
           str_lower title = Ok title_lower
           /\ Json.iter (stock_mappings self) = Ok entries
           /\ top_ranked 3 (stock_hit title_lower) entries rs)
  /\ (forall t entries,
         title = JStr t ->
         Json.iter (industry_mappings self) = Ok entries ->
         Forall (fun e => industry_entry_ok e = true) entries ->
         exists rs, find_related_industries self title = Ok rs)
  /\ (forall rs,
         find_related_industries self title = Ok rs ->
         exists title_lower entries,
           str_lower title = Ok title_lower
           /\ Json.iter (industry_mappings self) = Ok entries
           /\ top_ranked 2 (industry_hit title_lower) entries rs).
Proof.
  repeat split.
  - intros t entries -> Hit Hall. apply find_related_stocks_returns. eauto.
  - apply find_related_stocks_ranked.
  - intros t entries -> Hit Hall. apply find_related_industries_returns. eauto.
  - apply find_related_industries_ranked.
Qed.

(** C2, as the code has it. For a title that is text and tables whose
    entries can be processed, both collecting loops return. The list
    collected from a table holds, in table order, one record for each entry
    with a keyword that occurs in the lowered title (the keyword lowered
    too), and no other; the strength of the record is the number of items
    of the entry's keyword list that occur, an item listed twice counting
    twice. For a keyword list without repeated items this is the number of
    different keywords that occur. *)
Theorem collected_strength_counts self title :
  (forall t entries,
      title = JStr t ->
      Json.iter (stock_mappings self) = Ok entries ->
      Forall (fun e => stock_entry_ok e = true) entries ->
      exists cs, collect_related_stocks self title = Ok cs)
  /\ (forall cs,
         collect_related_stocks self title = Ok cs ->
         collected_counts stock_hit found_count (stock_mappings self) title cs)
  /\ (forall t entries,
         title = JStr t ->
         Json.iter (industry_mappings self) = Ok entries ->
         Forall (fun e => industry_entry_ok e = true) entries ->
         exists cs, collect_related_industries self title = Ok cs)
  /\ (forall cs,
         collect_related_industries self title = Ok cs ->
         collected_counts industry_hit found_count (industry_mappings self) title cs)
  /\ (forall title_lower kws,
         NoDup kws ->
         found_count title_lower kws = distinct_found_count title_lower kws).
Proof.
  repeat split.
  - intros t entries -> Hit Hall. eapply collect_related_stocks_returns; eauto.
  - apply collect_related_stocks_counts.
  - intros t entries -> Hit Hall. eapply collect_related_industries_returns; eauto.
  - apply collect_related_industries_counts.
  - intros tl kws H. symmetry. now apply distinct_found_count_NoDup.
Qed.

(** C10. For a title that is text, [find_related_stocks] returns exactly
    when the stock table can be iterated and every entry is a dict with the
    keys 股票名称, 股票代码 and 关联关键词, the last an iterable of texts;
    [find_related_industries] returns exactly when the industry table can
    be iterated and every entry has 板块名称 and such a 关联关键词. An
    entry that misses one of these makes the search raise. *)
Theorem find_related_returns_iff_entries_ok self (title : string) :
  ((exists rs, find_related_stocks self (JStr title) = Ok rs)
   <-> exists entries,
        Json.iter (stock_mappings self) = Ok entries
        /\ Forall (fun e => stock_entry_ok e = true) entries)
  /\ ((exists rs, find_related_industries self (JStr title) = Ok rs)
      <-> exists entries,
          Json.iter (industry_mappings self) = Ok entries
          /\ Forall (fun e => industry_entry_ok e = true) entries).
Proof.
  split; [apply find_related_stocks_returns | apply find_related_industries_returns].
Qed.

(** ** Dictionaries *)

Lemma assoc_dict_set_eq {V} k (v : V) d : assoc k (dict_set k v d) = Some v.
Proof.
  induction d as [|[k' v'] d IH]; simpl.
  - now rewrite String.eqb_refl.
  - destruct (String.eqb k k') eqn:E; simpl; [now rewrite String.eqb_refl | now rewrite E].
Qed.

Lemma assoc_dict_set_ne {V} k k' (v : V) d :
  k <> k' -> assoc k' (dict_set k v d) = assoc k' d.
Proof.
  intros Hne. induction d as [|[k0 v0] d IH]; simpl.
  - destruct (String.eqb_spec k' k); [congruence | reflexivity].
  - destruct (String.eqb_spec k k0) as [->|Hk]; simpl.
    + destruct (String.eqb_spec k' k0); [congruence | reflexivity].
    + destruct (String.eqb_spec k' k0); [reflexivity | exact IH].
Qed.

(** ** Running statements *)

Lemma bind_Return {A B} (m : M A) (f : A -> M B) s b s' :
  bind m f s = Return b s' <-> exists a s1, m s = Return a s1 /\ f a s1 = Return b s'.
Proof.
  unfold bind. destruct (m s) as [a s1|e s1|]; split.
  - eauto.
  - now intros (? & ? & [= <- <-] & ?).
  - discriminate.
  - now intros (? & ? & [=] & _).
  - discriminate.
  - now intros (? & ? & [=] & _).
Qed.

Lemma lift_Return {A} (r : res A) s a s' :
  lift r s = Return a s' <-> r = Ok a /\ s' = s.
Proof.
  destruct r; simpl; unfold ret, throw; split.
  - now intros [= <- <-].
  - now intros [[= <-] ->].
  - discriminate.
  - now intros [[=] _].
Qed.

Lemma lift_Throw {A} (r : res A) s e s' :
  lift r s = Throw e s' <-> r = Raise e /\ s' = s.
Proof.
  destruct r; simpl; unfold ret, throw; split.
  - discriminate.
  - now intros [[=] _].
  - now intros [= <- <-].
  - now intros [[= <-] ->].
Qed.

Lemma get_fields h v fields k default s :
  heap s = h -> fields_of h v = Some fields ->
  Py.get v k default s = Return (field_or k default fields) s.
Proof.
  intros <- Hf. unfold fields_of in Hf. unfold Py.get, field_or.
  destruct v as [j|l].
  - destruct j; try discriminate. injection Hf as <-.
    induction kvs as [|[k' x] kvs IH]; simpl; [reflexivity|].
    destruct (String.eqb k k'); [reflexivity | exact IH].
  - unfold bind, deref. destruct (heap s !! l) as [[kvs| |]|]; try discriminate.
    injection Hf as <-. now destruct (assoc k kvs).
Qed.

Lemma get_Return v k default s x s' :
  Py.get v k default s = Return x s' ->
  s' = s /\ exists fields, fields_of (heap s) v = Some fields
                           /\ x = field_or k default fields.
Proof.
  intros H. assert (Hf : exists fields, fields_of (heap s) v = Some fields).
  { unfold Py.get, fields_of in *. destruct v as [j|l].
    - destruct j; try discriminate. eauto.
    - unfold bind, deref in H. destruct (heap s !! l) as [[kvs| |]|]; try discriminate. eauto. }
  destruct Hf as [fields Hf]. rewrite (get_fields _ _ _ _ _ _ eq_refl Hf) in H.
  injection H as <- <-. eauto.
Qed.

Lemma get_Throw v k default s e s' :
  Py.get v k default s = Throw e s' -> s' = s.
Proof.
  unfold Py.get. destruct v as [j|l].
  - destruct j; try (now intros [= _ <-]). destruct (assoc k kvs); discriminate.
  - unfold bind, deref. destruct (heap s !! l) as [[kvs| |]|]; try discriminate;
      try (now intros [= _ <-]). destruct (assoc k kvs); discriminate.
Qed.

Lemma truthy_pure v s b s' : Py.truthy v s = Return b s' -> s' = s.
Proof.
  unfold Py.truthy. destruct v as [j|l]; [now intros [= _ <-]|].
  unfold bind, deref. destruct (heap s !! l) as [[| |]|]; try discriminate; now intros [= _ <-].
Qed.

Lemma truthy_no_throw v s e s' : Py.truthy v s <> Throw e s'.
Proof.
  unfold Py.truthy. destruct v as [j|l]; [discriminate|].
  unfold bind, deref. destruct (heap s !! l) as [[| |]|]; discriminate.
Qed.

Lemma the_associator_Return self s a s' :
  the_associator self s = Return a s' <-> s' = s /\ associator_at (heap s) self a.
Proof.
  unfold the_associator, associator_at. destruct self as [j|l].
  - split; [discriminate | intros [_ (? & [=] & _)]].
  - unfold bind, deref. destruct (heap s !! l) as [[| |a']|] eqn:E; split;
      try discriminate; try (intros [_ (l' & [= <-] & H)]; congruence).
    + intros [= <- <-]. eauto.
    + intros [-> (l' & [= <-] & H)]. unfold ret. congruence.
Qed.

Lemma the_associator_no_throw self s e s' : the_associator self s <> Throw e s'.
Proof.
  unfold the_associator. destruct self as [j|l]; [discriminate|].
  unfold bind, deref. destruct (heap s !! l) as [[| |]|]; discriminate.
Qed.

Lemma with_title_Return {A} (f : json -> res A) title s a s' :
  with_title f title s = Return a s' <-> s' = s /\ exists j, title = VJ j /\ f j = Ok a.
Proof.
  unfold with_title. destruct title as [j|l].
  - rewrite lift_Return. split; [intros [? ->]; eauto | intros [-> (? & [= <-] & ?)]; eauto].
  - unfold bind, deref, throw. destruct (heap s !! l); split; try discriminate;
      intros [_ (? & [=] & _)].
Qed.

Lemma with_title_Throw {A} (f : json -> res A) title s e s' :
  with_title f title s = Throw e s' -> s' = s.
Proof.
  unfold with_title. destruct title as [j|l].
  - now intros [_ ->]%lift_Throw.
  - unfold bind, deref, throw. destruct (heap s !! l); [now intros [= _ <-] | discriminate].
Qed.

Lemma copy_fields v s fields :
  fields_of (heap s) v = Some fields ->
  Py.copy v s = Return (VRef (length (heap s))) (with_heap s (heap s ++ [ODict fields])).
Proof.
  unfold fields_of, Py.copy. destruct v as [j|l].
  - destruct j; try discriminate. intros [= <-]. reflexivity.
  - unfold bind, deref. destruct (heap s !! l) as [[kvs| |]|]; try discriminate.
    intros [= <-]. reflexivity.
Qed.

Lemma setitem_last h o s k x kvs :
  heap s = h ++ [ODict kvs] -> o = length h ->
  Py.setitem (VRef o) k x s = Return tt (with_heap s (h ++ [ODict (dict_set k x kvs)])).
Proof.
  intros Hs ->. unfold Py.setitem, bind, deref, store. rewrite Hs.
  rewrite lookup_app_r, Nat.sub_diag by lia. simpl. rewrite Hs.
  rewrite insert_app_r_alt, Nat.sub_diag by lia. reflexivity.
Qed.

(** ** Enriching one title *)

(** Every way [associate_title_with_stocks] can end. *)
Lemma associate_title_run self title_data s :
  match associate_title_with_stocks self title_data s with
  | Return v s' =>
      exists fields,
        fields_of (heap s) title_data = Some fields /\
        let title := field_or "title" (VJ (JStr EmptyString)) fields in
        (Py.truthy title s = Return false s /\ v = title_data /\ s' = s)
        \/ (Py.truthy title s = Return true s /\
            exists a j rs ri,
              associator_at (heap s) self a
              /\ title = VJ j
              /\ find_related_stocks a j = Ok rs
              /\ find_related_industries a j = Ok ri
              /\ v = VRef (length (heap s))
              /\ s' = with_heap s (heap s ++ [ODict (with_related rs ri fields)]))
  | Throw e s' => s' = s
  | Stuck => True
  end.
Proof.
  unfold associate_title_with_stocks, bind.
  destruct (Py.get title_data "title" (VJ (JStr EmptyString)) s) as [title s1|e s1|] eqn:Hget;
    [|now apply get_Throw in Hget|exact I].
  apply get_Return in Hget as (-> & fields & Hf & ->).
  destruct (Py.truthy _ s) as [b s1|e s1|] eqn:Ht;
    [|now apply truthy_no_throw in Ht|exact I].
  pose proof (truthy_pure _ _ _ _ Ht) as ->.
  destruct b; simpl.
  2:{ exists fields. split; [exact Hf|]. left. auto. }
  destruct (the_associator self s) as [a s1|e s1|] eqn:Ha;
    [|now apply the_associator_no_throw in Ha|exact I].
  apply the_associator_Return in Ha as [-> Ha].
  destruct (with_title (find_related_stocks a) _ s) as [rs s1|e s1|] eqn:Hrs;
    [|now apply with_title_Throw in Hrs|exact I].
  apply with_title_Return in Hrs as (-> & j & Hj & Hrs).
  destruct (with_title (find_related_industries a) _ s) as [ri s1|e s1|] eqn:Hri;
    [|now apply with_title_Throw in Hri|exact I].
  apply with_title_Return in Hri as (-> & j' & Hj' & Hri).
  assert (j' = j) as -> by congruence.
  rewrite (copy_fields _ _ _ Hf).
  erewrite setitem_last; [|reflexivity..].
  erewrite setitem_last; [|reflexivity..].
  exists fields. split; [exact Hf|]. right. split; [exact Ht|].
  exists a, j, rs, ri. repeat split; try assumption.
Qed.

Lemma associate_title_returns self title_data s fields a t :
  fields_of (heap s) title_data = Some fields ->
  field_or "title" (VJ (JStr EmptyString)) fields = VJ (JStr t) ->
  associator_at (heap s) self a ->
  tables_ok a ->
  exists v s', associate_title_with_stocks self title_data s = Return v s'.
Proof.
  intros Hf Ht Ha [Hs Hi].
  apply (find_related_stocks_returns a t) in Hs as [rs Hrs].
  apply (find_related_industries_returns a t) in Hi as [ri Hri].
  unfold associate_title_with_stocks, bind.
  rewrite (get_fields _ _ _ _ _ _ eq_refl Hf), Ht. simpl.
  destruct (negb (negb (String.eqb t EmptyString))); [unfold ret; eauto|].
  assert (Hself : the_associator self s = Return a s)
    by (apply the_associator_Return; auto).
  rewrite Hself. simpl. rewrite Hrs, Hri. simpl.
  rewrite (copy_fields _ _ _ Hf).
  erewrite setitem_last; [|reflexivity..].
  erewrite setitem_last; [|reflexivity..].
  unfold ret. eauto.
Qed.

(** C6. For a dictionary [title_data]: when its title is missing or
    empty, [associate_title_with_stocks] returns [title_data] itself and
    changes nothing. Otherwise, when it returns, it returns a new object,
    placed after every object that existed, whose fields are those of
    [title_data] with [related_stocks] and [related_industries] set to the
    two search results and every other field as it was; the objects that
    existed are all unchanged, [title_data] among them. When it raises,
    the state is unchanged. It returns whenever the title is text and the
    tables hold entries the searches can process. *)
Theorem associate_title_with_stocks_copies self title_data s fields :
  fields_of (heap s) title_data = Some fields ->
  let title := field_or "title" (VJ (JStr EmptyString)) fields in
  (Py.truthy title s = Return false s ->
   associate_title_with_stocks self title_data s = Return title_data s)
  /\ (forall v s',
         associate_title_with_stocks self title_data s = Return v s' ->
         Py.truthy title s = Return true s ->
         exists a j rs ri,
           associator_at (heap s) self a
           /\ title = VJ j
           /\ find_related_stocks a j = Ok rs
           /\ find_related_industries a j = Ok ri
           /\ v = VRef (length (heap s))
           /\ s' = with_heap s (heap s ++ [ODict (with_related rs ri fields)])
           /\ assoc "related_stocks" (with_related rs ri fields) = Some (VJ (JList rs))
           /\ assoc "related_industries" (with_related rs ri fields) = Some (VJ (JList ri))
           /\ forall k, k <> "related_stocks" -> k <> "related_industries" ->
                        assoc k (with_related rs ri fields) = assoc k fields)
  /\ (forall e s', associate_title_with_stocks self title_data s = Throw e s' -> s' = s)
  /\ (forall a t,
         title = VJ (JStr t) -> associator_at (heap s) self a -> tables_ok a ->
         exists v s', associate_title_with_stocks self title_data s = Return v s').
Proof.
  intros Hf title. pose proof (associate_title_run self title_data s) as Hrun.
  split; [|split; [|split]].
  - intros Ht. unfold associate_title_with_stocks, bind.
    rewrite (get_fields _ _ _ _ _ _ eq_refl Hf). fold title. now rewrite Ht.
  - intros v s' Hv Ht. rewrite Hv in Hrun.
    destruct Hrun as (fields' & Hf' & [(Hfalse & _)|(_ & a & j & rs & ri & H)]).
    + assert (fields' = fields) as -> by congruence. fold title in Hfalse. congruence.
    + assert (fields' = fields) as -> by congruence.
      destruct H as (Ha & Hj & Hrs & Hri & -> & ->).
      exists a, j, rs, ri. repeat split; try assumption.
      * unfold with_related. rewrite assoc_dict_set_ne by discriminate.
        apply assoc_dict_set_eq.
      * apply assoc_dict_set_eq.
      * intros k H1 H2. unfold with_related.
        rewrite !assoc_dict_set_ne by congruence. reflexivity.
  - intros e s' He. now rewrite He in Hrun.
  - intros a t Ht Ha Hok. eapply associate_title_returns; eauto.
Qed.

(** ** Loading the configuration *)

Lemma the_associator_last h a s :
  heap s = h ++ [OAssoc a] -> the_associator (VRef (length h)) s = Return a s.
Proof.
  intros Hs. apply the_associator_Return. split; [reflexivity|].
  exists (length h). split; [reflexivity|].
  rewrite Hs, lookup_app_r, Nat.sub_diag by lia. reflexivity.
Qed.

Lemma store_last h o o' s :
  heap s = h ++ [o] -> store (length h) o' s = Return tt (with_heap s (h ++ [o'])).
Proof.
  intros Hs. unfold store. rewrite Hs, insert_app_r_alt, Nat.sub_diag by lia. reflexivity.
Qed.

Lemma set_stock_mappings_last h a j s :
  heap s = h ++ [OAssoc a] ->
  set_stock_mappings (VRef (length h)) j s
  = Return tt (with_heap s (h ++ [OAssoc {| config_path := config_path a;
                                            stock_mappings := j;
                                            industry_mappings := industry_mappings a |}])).
Proof.
  intros Hs. unfold set_stock_mappings, bind.
  rewrite (the_associator_last _ _ _ Hs). now apply store_last with (o := OAssoc a).
Qed.

Lemma set_industry_mappings_last h a j s :
  heap s = h ++ [OAssoc a] ->
  set_industry_mappings (VRef (length h)) j s
  = Return tt (with_heap s (h ++ [OAssoc {| config_path := config_path a;
                                            stock_mappings := stock_mappings a;
                                            industry_mappings := j |}])).
Proof.
  intros Hs. unfold set_industry_mappings, bind.
  rewrite (the_associator_last _ _ _ Hs). now apply store_last with (o := OAssoc a).
Qed.

(** [_load_config] on the instance just created. When the question
    whether the file exists raises, the method raises: the call stands
    before the [try]. *)
Lemma load_config_raises h a s e :
  heap s = h ++ [OAssoc a] ->
  path_exists (config_path a) = Raise e ->
  _load_config (VRef (length h)) s = Throw e s.
Proof.
  intros Hs Hex. unfold _load_config, bind. rewrite (the_associator_last _ _ _ Hs).
  now rewrite Hex.
Qed.

(** Otherwise it returns, having printed one line and changed nothing but
    the instance. A file that cannot be used leaves the instance as it
    was; a table [len] raises on has been stored by then, and stays. *)
Lemma load_config_last h a s found :
  heap s = h ++ [OAssoc a] ->
  path_exists (config_path a) = Ok found ->
  exists a' line,
    _load_config (VRef (length h)) s
    = Return tt (with_event (with_heap s (h ++ [OAssoc a'])) (Printed line))
    /\ config_path a' = config_path a
    /\ (config_unusable (config_path a) -> a' = a /\ is_warning (config_path a) line)
    /\ (forall v e,
           table_not_sized (config_path a) v e ->
           stock_mappings a' = v
           /\ line = "加载股票关键词映射配置失败: " +:+ exn_text e).
Proof.
  intros Hs Hex. unfold _load_config, bind. rewrite (the_associator_last _ _ _ Hs).
  rewrite Hex. cbn [lift ret].
  assert (Hsame : with_heap s (h ++ [OAssoc a]) = s)
    by (destruct s; simpl in *; now rewrite Hs).
  destruct found; cbn [negb].
  2:{ exists a, ("警告: 股票关键词映射配置文件 " +:+ config_path a +:+ " 不存在").
      unfold print, emit. rewrite Hsame.
      split; [reflexivity|]. split; [reflexivity|]. split.
      - intros _. split; [reflexivity|]. now left.
      - intros v e (Hp & _). congruence. }
  unfold try_except, bind.
  destruct (read_text (config_path a)) as [text|e] eqn:Hread; cbn [lift ret throw].
  2:{ exists a, ("加载股票关键词映射配置失败: " +:+ exn_text e).
      unfold print, emit. rewrite Hsame.
      split; [reflexivity|]. split; [reflexivity|]. split.
      - intros _. split; [reflexivity|]. right; eauto.
      - intros v e' (_ & t & k & H1 & _). congruence. }
  destruct (json_loads text) as [config|e] eqn:Hload; cbn [lift ret throw].
  2:{ exists a, ("加载股票关键词映射配置失败: " +:+ exn_text e).
      unfold print, emit. rewrite Hsame.
      split; [reflexivity|]. split; [reflexivity|]. split.
      - intros _. split; [reflexivity|]. right; eauto.
      - intros v e' (_ & t & k & H1 & H2 & _). congruence. }
  destruct config as [| | | | | |kvs];
    try (eexists a, _; unfold print, emit; cbn [lift ret throw Json.get]; rewrite Hsame;
         split; [reflexivity|]; split; [reflexivity|]; split;
         [ intros _; split; [reflexivity | right; eexists (Exn AttributeError _); reflexivity]
         | intros v e' (_ & t & k & H1 & H2 & _); congruence ]).
  unfold Json.get at 1.
  set (stocks := match assoc "股票映射配置" kvs with Some v => v | None => JList [] end).
  replace (lift (match assoc "股票映射配置" kvs with
                 | Some v => Ok v | None => Ok (JList []) end) s)
    with (Return stocks s) by (unfold stocks; now destruct (assoc "股票映射配置" kvs)).
  rewrite (set_stock_mappings_last _ _ _ _ Hs).
  unfold Json.get at 1.
  set (industries := match assoc "行业板块映射" kvs with Some v => v | None => JList [] end).
  match goal with
  | |- context [lift ?r ?s1] =>
      replace (lift r s1) with (Return industries s1)
        by (unfold industries; now destruct (assoc "行业板块映射" kvs))
  end.
  erewrite set_industry_mappings_last by reflexivity.
  erewrite the_associator_last by reflexivity. cbn [stock_mappings industry_mappings].
  set (a' := {| config_path := config_path a; stock_mappings := stocks;
                industry_mappings := industries |}).
  assert (Hnot : ~ config_unusable (config_path a)).
  { intros [H|[_ [[e H]|[(t & e & H1 & H2)|(t & j & H1 & H2 & H3)]]]]; congruence. }
  assert (Hstocks : forall v e, table_not_sized (config_path a) v e ->
                                stocks = v /\ Json.len stocks = Raise e).
  { intros v e (_ & t & k & H1 & H2 & H3 & H4).
    assert (k = kvs) as -> by congruence. unfold stocks. rewrite H3. now split. }
  destruct (Json.len stocks) as [n1|e] eqn:Hn1; cbn [lift ret throw].
  2:{ eexists a', _. unfold print, emit. simpl. split; [reflexivity|].
      split; [reflexivity|]. split; [intros H; contradiction|].
      intros v e' H. destruct (Hstocks v e' H) as [Hv He].
      split; [exact Hv | congruence]. }
  assert (Hsized : forall v e, ~ table_not_sized (config_path a) v e).
  { intros v e H. destruct (Hstocks v e H) as [_ He]. discriminate. }
  destruct (Json.len industries) as [n2|e] eqn:Hn2; cbn [lift ret throw].
  2:{ eexists a', _. unfold print, emit. simpl. split; [reflexivity|].
      split; [reflexivity|]. split; [intros H; contradiction|].
      intros v e' H. destruct (Hsized v e' H). }
  eexists a', _. unfold print, emit. simpl. split; [reflexivity|].
  split; [reflexivity|]. split; [intros H; contradiction|].
  intros v e' H. destruct (Hsized v e' H).
Qed.

(** Construction raises exactly when the question whether the file exists
    does; the instance made by then is left behind, unreferenced. *)
Lemma init_raises path s e :
  path_exists (resolved_path path) = Raise e ->
  StockAssociator_init path s
  = Throw e (with_heap s (heap s ++ [OAssoc (fresh_associator (resolved_path path))])).
Proof.
  intros Hex. unfold StockAssociator_init. fold (resolved_path path).
  fold (fresh_associator (resolved_path path)).
  set (a0 := fresh_associator (resolved_path path)).
  set (s1 := with_heap s (heap s ++ [OAssoc a0])).
  unfold bind, alloc. fold s1.
  now rewrite (load_config_raises (heap s) a0 s1 e eq_refl Hex).
Qed.

Lemma init_run path s found :
  path_exists (resolved_path path) = Ok found ->
  exists a line,
    StockAssociator_init path s
    = Return (VRef (length (heap s)))
             (with_event (with_heap s (heap s ++ [OAssoc a])) (Printed line))
    /\ config_path a = resolved_path path
    /\ (config_unusable (resolved_path path) ->
        a = fresh_associator (resolved_path path)
        /\ is_warning (resolved_path path) line)
    /\ (forall v e,
           table_not_sized (resolved_path path) v e ->
           stock_mappings a = v
           /\ line = "加载股票关键词映射配置失败: " +:+ exn_text e).
Proof.
  intros Hex. unfold StockAssociator_init. fold (resolved_path path).
  fold (fresh_associator (resolved_path path)).
  set (a0 := fresh_associator (resolved_path path)).
  set (s1 := with_heap s (heap s ++ [OAssoc a0])).
  destruct (load_config_last (heap s) a0 s1 found eq_refl Hex)
    as (a & line & Hrun & Hpath & Hbad & Hpartial).
  exists a, line. split; [|split; [exact Hpath | split; [exact Hbad | exact Hpartial]]].
  unfold bind, alloc. fold s1. rewrite Hrun. reflexivity.
Qed.

(** Construction ends in one of the two ways. *)
Lemma init_ends path s :
  (exists e s', StockAssociator_init path s = Throw e s'
                /\ path_exists (resolved_path path) = Raise e
                /\ heap s `prefix_of` heap s'
                /\ trace s' = trace s
                /\ stock_associator_global s' = stock_associator_global s)
  \/ (exists a line,
         StockAssociator_init path s
         = Return (VRef (length (heap s)))
                  (with_event (with_heap s (heap s ++ [OAssoc a])) (Printed line))).
Proof.
  destruct (path_exists (resolved_path path)) as [found|e] eqn:Hex.
  - right. destruct (init_run path s found Hex) as (a & line & Hrun & _). eauto.
  - left. eexists _, _. split; [exact (init_raises path s e Hex)|].
    split; [reflexivity|]. split; [now apply prefix_app_r|]. split; reflexivity.
Qed.






(** ** Loops over the store *)



(** ** Reading a store that has grown *)




Lemma associator_at_mono h h' self a :
  h `prefix_of` h' -> associator_at h self a -> associator_at h' self a.
Proof.
  intros Hp (l & -> & H). exists l. split; [reflexivity|].
  eapply prefix_lookup_Some; eassumption.
Qed.



Lemma truthy_Return v s b s' :
  Py.truthy v s = Return b s' <-> s' = s /\ truthy_in (heap s) v = Some b.
Proof.
  unfold Py.truthy, truthy_in. destruct v as [j|l].
  - unfold ret. split; [now intros [= <- <-] | now intros [-> [= <-]]].
  - unfold bind, deref, ret. destruct (heap s !! l) as [[[|]|[|]|]|]; split;
      try discriminate; try (now intros [= <- <-]); try (now intros [-> [= <-]]);
      now intros [_ [=]].
Qed.

Lemma iter_Return v s items s' :
  Py.iter v s = Return items s' <-> s' = s /\ items_of (heap s) v = Some items.
Proof.
  unfold Py.iter, items_of. destruct v as [j|l].
  - unfold bind. destruct (Json.iter j) as [xs|e]; simpl; unfold ret, throw; split;
      try discriminate; try (now intros [= <- <-]); try (now intros [-> [= <-]]);
      now intros [_ [=]].
  - unfold bind, deref, ret, throw. destruct (heap s !! l) as [[| |]|]; split;
      try discriminate; try (now intros [= <- <-]); try (now intros [-> [= <-]]);
      now intros [_ [=]].
Qed.

(** ** Enriching a payload *)






(** ** Enriching a well-formed payload *)










(** ** format_stock_info *)

(** C8. For every platform, [format_stock_info] of the empty list is the
    empty string, and nothing changes. *)
Theorem format_stock_info_empty related_stocks platform s :
  is_empty_list (heap s) related_stocks ->
  format_stock_info related_stocks platform s = Return EmptyString s.
Proof.
  intros [->|(l & -> & Hl)]; unfold format_stock_info, bind; [reflexivity|].
  unfold Py.truthy, bind, deref. now rewrite Hl.
Qed.

(** ** annotate_news_with_ai *)

Lemma is_mcp_available_run s :
  exists b, is_mcp_available s = Return b (with_event s (Posted ping_request)).
Proof.
  unfold is_mcp_available, try_except, bind, post. fold ping_request.
  destruct (http_post (trace s) ping_request) as [res|e]; unfold ret; eauto.
Qed.


Lemma setitem_dict l kvs k x s :
  heap s !! l = Some (ODict kvs) ->
  Py.setitem (VRef l) k x s
  = Return tt (with_heap s (<[l := ODict (dict_set k x kvs)]> (heap s))).
Proof. intros Hl. unfold Py.setitem, bind, deref. now rewrite Hl. Qed.

(** Facts about the same expression, brought together. *)
Ltac same_results :=
  repeat match goal with
         | H : Ok _ = Ok _ |- _ => first [discriminate H | injection H as <- | clear H]
         | H : Ok _ = Raise _ |- _ => discriminate H
         | H : Raise _ = Ok _ |- _ => discriminate H
         | H : Raise _ = Raise _ |- _ => first [injection H as <- | clear H]
         | H1 : ?x = Ok _, H2 : ?x = Ok _ |- _ => rewrite H1 in H2
         | H1 : ?x = Ok _, H2 : ?x = Raise _ |- _ => rewrite H1 in H2
         | H1 : ?x = Raise _, H2 : ?x = Ok _ |- _ => rewrite H1 in H2
         end.

(** Every way the request for one item can end. *)
Lemma annotate_item_run i l kvs prompt s :
  heap s !! l = Some (ODict kvs) ->
  exists s',
    annotate_item i (VRef l) prompt s = Return tt s'
    /\ (heap s' = heap s \/ exists x, heap s' = annotated_heap (heap s) l kvs x)
    /\ (forall e,
           http_post (trace s) (invoke_request i prompt) = Raise e ->
           heap s' = annotated_heap (heap s) l kvs (error_marker e))
    /\ (forall res result inner e,
           http_post (trace s) (invoke_request i prompt) = Ok res ->
           status_code res = 200 ->
           response_json res = Ok result ->
           has_content result inner ->
           rbind (Json.getitem inner "content") loads = Raise e ->
           heap s' = annotated_heap (heap s) l kvs parse_failed).
Proof.
  intros Hl. unfold annotate_item, post. fold (invoke_request i prompt).
  unfold try_except at 1. unfold bind at 1.
  destruct (http_post (trace s) (invoke_request i prompt)) as [res|e] eqn:Hpost.
  2:{ erewrite setitem_dict by (cbn [heap with_event]; exact Hl).
      eexists. split; [reflexivity|]. cbn [heap with_heap with_event].
      split; [right; eexists; reflexivity|]. split.
      - now intros e' [= <-].
      - discriminate. }
  set (s1 := with_event s (Posted (invoke_request i prompt))).
  assert (Hl1 : heap s1 !! l = Some (ODict kvs)) by exact Hl.
  destruct (status_code res =? 200) eqn:Hstatus.
  2:{ unfold bind, ret, sleep, emit. eexists. split; [reflexivity|].
      cbn [heap with_heap with_event]. split; [now left|]. split; [discriminate|].
      intros res' result inner e Hp H200. same_results. rewrite H200 in Hstatus. discriminate. }
  unfold bind at 1. unfold bind at 1.
  destruct (response_json res) as [result|e] eqn:Hjson; cbn [lift ret throw].
  2:{ erewrite setitem_dict by exact Hl1.
      eexists. split; [reflexivity|]. cbn [heap with_heap with_event].
      split; [right; eexists; reflexivity|]. split; [discriminate|].
      intros res' result inner e' Hp _ Hj. same_results. }
  unfold bind at 1.
  destruct (Json.contains "result" result) as [has_result|e] eqn:Hres; cbn [lift ret throw].
  2:{ erewrite setitem_dict by exact Hl1.
      eexists. split; [reflexivity|]. cbn [heap with_heap with_event].
      split; [right; eexists; reflexivity|]. split; [discriminate|].
      intros res' result' inner e' Hp _ Hj (Hc1 & Hc2 & Hc3). same_results. }
  destruct has_result.
  2:{ unfold bind, ret, sleep, emit. eexists. split; [reflexivity|].
      cbn [heap with_heap with_event]. split; [now left|]. split; [discriminate|].
      intros res' result' inner e' Hp _ Hj (Hc1 & Hc2 & Hc3). same_results. }
  unfold bind at 1. unfold bind at 1.
  destruct (Json.getitem result "result") as [inner|e] eqn:Hinner; cbn [lift ret throw].
  2:{ erewrite setitem_dict by exact Hl1.
      eexists. split; [reflexivity|]. cbn [heap with_heap with_event].
      split; [right; eexists; reflexivity|]. split; [discriminate|].
      intros res' result' inner e' Hp _ Hj (Hc1 & Hc2 & Hc3). same_results. }
  destruct (Json.contains "content" inner) as [has|e] eqn:Hcont; cbn [lift ret throw].
  2:{ erewrite setitem_dict by exact Hl1.
      eexists. split; [reflexivity|]. cbn [heap with_heap with_event].
      split; [right; eexists; reflexivity|]. split; [discriminate|].
      intros res' result' inner' e' Hp _ Hj (Hc1 & Hc2 & Hc3). same_results. }
  destruct has.
  2:{ unfold bind, ret, sleep, emit. eexists. split; [reflexivity|].
      cbn [heap with_heap with_event]. split; [now left|]. split; [discriminate|].
      intros res' result' inner' e' Hp _ Hj (Hc1 & Hc2 & Hc3). same_results. }
  unfold bind at 1. unfold try_except at 1. unfold bind at 1.
  cbn [lift ret throw]. unfold bind at 1.
  destruct (Json.getitem inner "content") as [content|e] eqn:Hcontent; cbn [lift ret throw].
  2:{ erewrite setitem_dict by exact Hl1. unfold sleep, emit.
      eexists. split; [reflexivity|]. cbn [heap with_heap with_event].
      split; [right; eexists; reflexivity|]. split; [discriminate|]. reflexivity. }
  destruct (loads content) as [ai_data|e] eqn:Hloads; cbn [lift ret throw].
  2:{ erewrite setitem_dict by exact Hl1. unfold sleep, emit.
      eexists. split; [reflexivity|]. cbn [heap with_heap with_event].
      split; [right; eexists; reflexivity|]. split; [discriminate|]. reflexivity. }
  erewrite setitem_dict by exact Hl1. unfold sleep, emit.
  eexists. split; [reflexivity|]. cbn [heap with_heap with_event].
  split; [right; eexists; reflexivity|]. split; [discriminate|].
  intros res' result' inner' e' Hp _ Hj (Hc1 & Hc2 & Hc3) H. same_results.
  rewrite Hcontent in H. simpl in H. congruence.
Qed.

Lemma items_kept_refl s : items_kept s s.
Proof. split; auto. Qed.

Lemma items_kept_trans s1 s2 s3 : items_kept s1 s2 -> items_kept s2 s3 -> items_kept s1 s3.
Proof. intros [H1 H2] [H3 H4]. split; [congruence | auto]. Qed.

Lemma items_kept_heap s s' :
  heap s' = heap s \/ (exists l kvs kvs', heap s !! l = Some (ODict kvs)
                                          /\ heap s' = <[l := ODict kvs']> (heap s)) ->
  items_kept s s'.
Proof.
  unfold items_kept, is_dict_ref.
  intros [->|(l & kvs & kvs' & Hl & ->)]; [auto|].
  split; [apply length_insert|].
  intros v (l' & kvs0 & -> & Hl'). destruct (decide (l = l')) as [<-|Hne].
  - exists l, kvs'. split; [reflexivity|].
    apply list_lookup_insert_eq. eapply lookup_lt_Some, Hl.
  - exists l', kvs0. split; [reflexivity|]. now rewrite list_lookup_insert_ne.
Qed.

Lemma py_str_run v s : exists t, py_str v s = Return t s.
Proof.
  unfold py_str, bind, get_heap, ret.
  destruct v as [[| [|] | | | | |]|]; eauto.
Qed.

Lemma fold_for_items (body : list val -> Z * val -> M (list val)) :
  (forall acc i item s,
      is_dict_ref (heap s) item ->
      exists s', body acc (i, item) s = Return (acc ++ [item]) s' /\ items_kept s s') ->
  forall pairs acc s,
    Forall (is_dict_ref (heap s)) (snd <$> pairs) ->
    exists s', fold_for pairs acc body s = Return (acc ++ (snd <$> pairs)) s'
               /\ items_kept s s'.
Proof.
  intros Hbody pairs. induction pairs as [|[i item] pairs IH]; intros acc s Hall.
  - exists s. simpl. rewrite app_nil_r. split; [reflexivity | apply items_kept_refl].
  - apply Forall_cons in Hall as [Hitem Hall].
    destruct (Hbody acc i item s Hitem) as (s1 & Hrun & Hkept).
    destruct (IH (acc ++ [item]) s1) as (s' & Hrest & Hkept').
    { eapply Forall_impl; [exact Hall|]. apply Hkept. }
    exists s'. split; [|eapply items_kept_trans; eassumption].
    cbn [fold_for]. unfold bind. rewrite Hrun, Hrest.
    now rewrite <- app_assoc.
Qed.

Lemma enumerate_snd {A} (xs : list A) : snd <$> enumerate xs = xs.
Proof.
  unfold enumerate. generalize 0%nat. induction xs as [|x xs IH]; intros k; simpl.
  - reflexivity.
  - f_equal. apply IH.
Qed.

(** The loop of [annotate_news_with_ai] over dictionaries of the store. *)
Lemma annotate_loop_body acc i item s :
  is_dict_ref (heap s) item ->
  exists s',
    bind (Py.get item "title" (VJ (JStr EmptyString))) (fun title =>
    bind (Py.get item "platform" (VJ (JStr EmptyString))) (fun platform =>
    bind (py_str title) (fun title =>
    bind (py_str platform) (fun platform =>
    bind (annotate_item i item (prompt_text title platform)) (fun _ =>
    ret (acc ++ [item])))))) s
    = Return (acc ++ [item]) s'
    /\ items_kept s s'.
Proof.
  intros (l & kvs & -> & Hl).
  assert (Hf : fields_of (heap s) (VRef l) = Some kvs) by (simpl; now rewrite Hl).
  unfold bind at 1. rewrite (get_fields _ _ _ _ _ _ eq_refl Hf).
  unfold bind at 1. rewrite (get_fields _ _ _ _ _ _ eq_refl Hf).
  unfold bind at 1.
  destruct (py_str_run (field_or "title" (VJ (JStr EmptyString)) kvs) s) as [t ->].
  unfold bind at 1.
  destruct (py_str_run (field_or "platform" (VJ (JStr EmptyString)) kvs) s) as [p ->].
  destruct (annotate_item_run i l kvs (prompt_text t p) s Hl) as (s' & Hrun & Hheap & _).
  exists s'. unfold bind. rewrite Hrun. split; [reflexivity|].
  apply items_kept_heap. destruct Hheap as [H|[x H]]; [now left|].
  right. exists l, kvs. eexists. split; [exact Hl | exact H].
Qed.

(** ** The turns of the items *)















(** ** add_ai_html_blocks: what one item adds *)

Lemma contains_pure k v s b s' : Py.contains k v s = Return b s' -> s' = s.
Proof.
  unfold Py.contains. destruct v as [j|l].
  - now intros [_ ->]%lift_Return.
  - unfold bind, deref, ret, throw. destruct (heap s !! l) as [[| |]|];
      try discriminate; now intros [= _ <-].
Qed.

Lemma getitem_Return v k s x s' :
  Py.getitem v k s = Return x s' ->
  s' = s /\ forall fields, fields_of (heap s) v = Some fields -> assoc k fields = Some x.
Proof.
  unfold Py.getitem, fields_of. destruct v as [j|l].
  - intros H. apply bind_Return in H as (y & s1 & [Hy ->]%lift_Return & [= <- <-]).
    split; [reflexivity|]. intros fields Hf. destruct j; try discriminate.
    injection Hf as <-. unfold Json.getitem in Hy.
    induction kvs as [|[k' v'] kvs IH]; simpl in *; [discriminate|].
    destruct (String.eqb k k'); [now injection Hy as -> | auto].
  - unfold bind, deref, ret, throw. destruct (heap s !! l) as [[kvs| |]|]; try discriminate.
    destruct (assoc k kvs) eqn:E; [|discriminate]. intros [= <- <-].
    split; [reflexivity|]. now intros fields [= <-].
Qed.

Lemma py_str_pure v s t s' : py_str v s = Return t s' -> s' = s.
Proof. destruct (py_str_run v s) as [t' ->]. now intros [= _ <-]. Qed.

Lemma fold_for_pure {A B} (body : B -> A -> M B) :
  (forall acc x s acc' s', body acc x s = Return acc' s' -> s' = s) ->
  forall xs acc s acc' s', fold_for xs acc body s = Return acc' s' -> s' = s.
Proof.
  intros Hbody xs. induction xs as [|x xs IH]; intros acc s acc' s' H; simpl in H.
  - now injection H as _ <-.
  - apply bind_Return in H as (a & s1 & Ha & H). apply Hbody in Ha as ->. eauto.
Qed.

Lemma py_join_pure sep v s t s' : py_join sep v s = Return t s' -> s' = s.
Proof.
  unfold py_join. intros H.
  apply bind_Return in H as (items & s0 & [-> _]%iter_Return & H).
  apply bind_Return in H as (parts & s1 & Hloop & [= _ <-]).
  eapply fold_for_pure; [|exact Hloop].
  intros acc [i [j|l]] s1' acc' s2; simpl.
  - destruct j; try discriminate. now intros [= _ <-].
  - unfold bind, deref, throw. now destruct (heap s1' !! l).
Qed.

Lemma has_key_assoc {V} k (kvs : list (string * V)) :
  existsb (fun kv => String.eqb k (fst kv)) kvs = true <-> is_Some (assoc k kvs).
Proof.
  induction kvs as [|[k' v] kvs IH]; simpl.
  - split; [discriminate | intros [? [=]]].
  - destruct (String.eqb k k'); simpl; [split; eauto | exact IH].
Qed.

Lemma contains_key k v s fields b :
  fields_of (heap s) v = Some fields ->
  Py.contains k v s = Return b s ->
  (b = true <-> is_Some (assoc k fields)).
Proof.
  unfold fields_of, Py.contains. destruct v as [j|l].
  - destruct j; try discriminate. intros [= <-] [Hc _]%lift_Return.
    injection Hc as <-. rewrite has_key_assoc.
    induction kvs as [|[k' v'] kvs IH]; simpl; [split; intros [? [=]]|].
    destruct (String.eqb k k'); [split; eauto | exact IH].
  - unfold bind, deref, ret. destruct (heap s !! l) as [[kvs| |]|]; try discriminate.
    intros [= <-] [= <-]. apply has_key_assoc.
Qed.

Lemma item_blocks_run title_match acc item s acc' s' :
  item_blocks title_match acc item s = Return acc' s' ->
  s' = s /\ exists bs, acc' = acc ++ bs /\ item_block s title_match item bs.
Proof.
  unfold item_blocks. intros H.
  apply bind_Return in H as (title & s0 & Hget & H).
  apply get_Return in Hget as (-> & fields & Hf & ->).
  apply bind_Return in H as (in_title & s0 & Hin & H).
  pose proof (contains_pure _ _ _ _ _ Hin) as ->.
  apply bind_Return in H as (annotated & s0 & Hann & H).
  assert (s0 = s /\ (annotated = true ->
                     in_title = true /\ is_Some (assoc "ai_annotation" fields))) as [-> Hkey].
  { destruct in_title.
    - pose proof (contains_pure _ _ _ _ _ Hann) as ->. split; [reflexivity|].
      intros ->. split; [reflexivity|]. now apply (contains_key _ _ _ _ _ Hf Hann).
    - injection Hann as <- <-. split; [reflexivity | discriminate]. }
  assert (Hnot : forall P : Prop, (forall ann, successful_annotation s title_match item ann -> P)
                                  -> (P -> False)
                                  -> s = s /\ exists bs, acc = acc ++ bs
                                                         /\ item_block s title_match item bs).
  { intros P HP HnP. split; [reflexivity|]. exists []. split; [now rewrite app_nil_r|].
    right. split; [reflexivity|]. intros ann Hs. exact (HnP (HP ann Hs)). }
  destruct annotated.
  2:{ injection H as <- <-.
      apply (Hnot (in_title = true /\ is_Some (assoc "ai_annotation" fields))).
      - intros ann (fields' & Hf' & Hc & Ha & _). rewrite Hf in Hf'. injection Hf' as <-.
        rewrite Hin in Hc. injection Hc as ->. split; [reflexivity | eauto].
      - intros [-> Hsome]. rewrite <- (contains_key _ _ _ _ _ Hf Hann) in Hsome.
        discriminate. }
  destruct (Hkey eq_refl) as [-> _].
  apply bind_Return in H as (ann & s0 & Hitem & H).
  apply getitem_Return in Hitem as [-> Hitem]. specialize (Hitem _ Hf).
  apply bind_Return in H as (nonempty & s0 & Ht & H).
  apply truthy_Return in Ht as [-> Ht].
  apply bind_Return in H as (good & s0 & Hgood & H).
  assert (s0 = s /\ (good = true ->
                     nonempty = true /\ Py.contains "error" ann s = Return false s)
          /\ (good = false ->
              nonempty = false \/ Py.contains "error" ann s = Return true s))
    as (-> & Hgood1 & Hgood0).
  { destruct nonempty.
    - apply bind_Return in Hgood as (failed & s1 & Hc & [= <- <-]).
      pose proof (contains_pure _ _ _ _ _ Hc) as ->. split; [reflexivity|].
      destruct failed; simpl; split; try discriminate; auto.
    - injection Hgood as <- <-. split; [reflexivity|]. split; [discriminate | auto]. }
  destruct good.
  2:{ injection H as <- <-.
      apply (Hnot (nonempty = true /\ Py.contains "error" ann s = Return false s)).
      - intros ann' (fields' & Hf' & _ & Ha & Htr & Herr).
        rewrite Hf in Hf'. injection Hf' as <-. rewrite Hitem in Ha. injection Ha as <-.
        split; [congruence | exact Herr].
      - intros [-> Herr]. destruct (Hgood0 eq_refl) as [?|Herr']; [discriminate|].
        rewrite Herr in Herr'. discriminate. }
  destruct (Hgood1 eq_refl) as [-> Herr].
  apply bind_Return in H as (et & s0 & Hget & H).
  apply get_Return in Hget as (-> & afields & Haf & ->).
  apply bind_Return in H as (et_s & s0 & Het & H).
  pose proof (py_str_pure _ _ _ _ Het) as ->.
  apply bind_Return in H as (bs_v & s0 & Hget & H).
  apply get_Return in Hget as (-> & afields' & Haf' & ->).
  rewrite Haf in Haf'. injection Haf' as <-.
  apply bind_Return in H as (bs_s & s0 & Hbs & H).
  pose proof (py_join_pure _ _ _ _ _ Hbs) as ->.
  apply bind_Return in H as (sc_v & s0 & Hget & H).
  apply get_Return in Hget as (-> & afields' & Haf' & ->).
  rewrite Haf in Haf'. injection Haf' as <-.
  apply bind_Return in H as (sc_s & s0 & Hsc & H).
  pose proof (py_join_pure _ _ _ _ _ Hsc) as ->.
  apply bind_Return in H as (rn & s0 & Hget & H).
  apply get_Return in Hget as (-> & afields' & Haf' & ->).
  rewrite Haf in Haf'. injection Haf' as <-.
  apply bind_Return in H as (rn_s & s0 & Hrn & H).
  pose proof (py_str_pure _ _ _ _ Hrn) as ->.
  injection H as <- <-. split; [reflexivity|].
  eexists. split; [reflexivity|]. left. exists ann. eexists. split; [|split; [|reflexivity]].
  - exists fields. repeat split; assumption.
  - exists afields, et_s, bs_s, sc_s, rn_s. repeat split; assumption.
Qed.

(** ** Lines *)

Lemma split_go_nl_cons a s cur :
  Text.split_go Text.nl (String a s) 0 cur
  = if Ascii.eqb (Text.byte 10) a
    then string_of_list_ascii (rev cur) :: Text.split_go Text.nl s 0 []
    else Text.split_go Text.nl s 0 (a :: cur).
Proof.
  unfold Text.nl, Text.enc1. cbn [Text.split_go Text.starts_with String.length Nat.sub].
  destruct (Ascii.eqb (Text.byte 10) a); [|reflexivity].
  destruct s; reflexivity.
Qed.

Lemma split_go_app a b cur :
  Text.split_go Text.nl (a +:+ Text.nl +:+ b) 0 cur
  = Text.split_go Text.nl a 0 cur ++ Text.split_go Text.nl b 0 [].
Proof.
  revert cur. induction a as [|c a IH]; intros cur.
  - change (EmptyString +:+ Text.nl +:+ b) with (String (Text.byte 10) b).
    rewrite split_go_nl_cons, Ascii.eqb_refl. reflexivity.
  - change (String c a +:+ Text.nl +:+ b) with (String c (a +:+ Text.nl +:+ b)).
    rewrite !split_go_nl_cons. destruct (Ascii.eqb (Text.byte 10) c).
    + now rewrite IH.
    + apply IH.
Qed.

Lemma split_join parts :
  parts <> [] ->
  Text.split Text.nl (Text.join Text.nl parts) = concat (Text.split Text.nl <$> parts).
Proof.
  induction parts as [|p [|q rest] IH]; intros Hne; [congruence| |].
  - simpl. now rewrite app_nil_r.
  - change (Text.join Text.nl (p :: q :: rest))
      with (p +:+ Text.nl +:+ Text.join Text.nl (q :: rest)).
    unfold Text.split at 1. rewrite split_go_app.
    change (Text.split_go Text.nl (Text.join Text.nl (q :: rest)) 0 [])
      with (Text.split Text.nl (Text.join Text.nl (q :: rest))).
    rewrite IH by discriminate. reflexivity.
Qed.

Lemma split_go_plain s cur :
  no_newline s ->
  Text.split_go Text.nl s 0 cur = [string_of_list_ascii (rev cur ++ list_ascii_of_string s)].
Proof.
  unfold no_newline. revert cur. induction s as [|a s IH]; intros cur Hs.
  - cbn [Text.split_go list_ascii_of_string]. now rewrite app_nil_r.
  - cbn [list_ascii_of_string] in Hs. apply not_elem_of_cons in Hs as [Hne Hs].
    rewrite split_go_nl_cons.
    destruct (Ascii.eqb_spec (Text.byte 10) a) as [Heq|_]; [congruence|].
    rewrite IH by exact Hs. cbn [rev list_ascii_of_string]. now rewrite <- app_assoc.
Qed.

Lemma split_plain line : no_newline line -> Text.split Text.nl line = [line].
Proof.
  intros H. unfold Text.split. rewrite split_go_plain by exact H.
  simpl. now rewrite string_of_list_ascii_of_string.
Qed.

Lemma elem_of_rev {A} (x : A) l : x ∈ rev l <-> x ∈ l.
Proof. rewrite !list_elem_of_In. symmetry. apply in_rev. Qed.

Lemma split_go_no_newline s cur :
  Text.byte 10 ∉ cur -> Forall no_newline (Text.split_go Text.nl s 0 cur).
Proof.
  revert cur. induction s as [|a s IH]; intros cur Hcur.
  - cbn [Text.split_go]. constructor; [|constructor]. unfold no_newline.
    rewrite list_ascii_of_string_of_list_ascii. now rewrite elem_of_rev.
  - rewrite split_go_nl_cons. destruct (Ascii.eqb_spec (Text.byte 10) a) as [Heq|Hne].
    + constructor.
      * unfold no_newline. rewrite list_ascii_of_string_of_list_ascii.
        now rewrite elem_of_rev.
      * apply IH. apply not_elem_of_nil.
    + apply IH. apply not_elem_of_cons. auto.
Qed.

Lemma split_no_newline s : Forall no_newline (Text.split Text.nl s).
Proof. apply split_go_no_newline, not_elem_of_nil. Qed.

Lemma split_go_nonempty sep s skip cur : Text.split_go sep s skip cur <> [].
Proof.
  revert skip cur. induction s as [|a s IH]; intros skip cur; simpl; [discriminate|].
  destruct skip; [|apply IH]. destruct (Text.starts_with sep (String a s)); [discriminate|].
  apply IH.
Qed.

(** Lines followed by blocks: the lines are still there, in order, when
    the text is cut into lines again. *)
Lemma lines_sublist {P : string -> list string -> Prop} lines blocks :
  Forall no_newline lines ->
  Forall2 P lines blocks ->
  lines `sublist_of` concat (Text.split Text.nl <$> concat (zip_with cons lines blocks)).
Proof.
  intros Hplain Hall. induction Hall as [|line bs lines blocks _ _ IH]; simpl.
  - constructor.
  - apply Forall_cons in Hplain as [Hline Hplain].
    rewrite split_plain by exact Hline. simpl.
    apply sublist_skip. rewrite fmap_app, concat_app.
    apply sublist_inserts_l. now apply IH.
Qed.

Lemma Forall2_concat {A B} (P : A -> B -> Prop) xss yss :
  Forall2 (Forall2 P) xss yss -> Forall2 P (concat xss) (concat yss).
Proof.
  induction 1 as [|xs ys xss yss Hxy _ IH]; simpl; [constructor|].
  now apply Forall2_app.
Qed.

(** ** add_ai_html_blocks: the loops *)

(** A loop that reads the store and appends what each item contributes. *)
Lemma fold_for_appends {A} (Q : A -> list string -> Prop)
      (body : list string -> A -> M (list string)) s :
  (forall acc x acc' s',
      body acc x s = Return acc' s' ->
      s' = s /\ exists bs, acc' = acc ++ bs /\ Q x bs) ->
  forall xs acc acc' s',
    fold_for xs acc body s = Return acc' s' ->
    s' = s /\ exists bss, Forall2 Q xs bss /\ acc' = acc ++ concat bss.
Proof.
  intros Hbody xs. induction xs as [|x xs IH]; intros acc acc' s' H; simpl in H.
  - injection H as <- <-. split; [reflexivity|]. exists []. split; [constructor|].
    simpl. now rewrite app_nil_r.
  - apply bind_Return in H as (a & s1 & Ha & H).
    apply Hbody in Ha as (-> & bs & -> & Hq).
    apply IH in H as (-> & bss & Hall & ->).
    split; [reflexivity|]. exists (bs :: bss). split; [now constructor|].
    simpl. now rewrite app_assoc.
Qed.

Lemma group_blocks_run title_match acc group s acc' s' :
  bind (Py.get group "news" (VJ (JList []))) (fun news =>
  bind (Py.iter news) (fun items =>
  fold_for items acc (item_blocks title_match))) s = Return acc' s' ->
  s' = s /\
  exists bs,
    acc' = acc ++ bs /\
    exists fields news per_item,
      fields_of (heap s) group = Some fields
      /\ items_of (heap s) (field_or "news" (VJ (JList [])) fields) = Some news
      /\ Forall2 (item_block s title_match) news per_item
      /\ bs = concat per_item.
Proof.
  intros H. apply bind_Return in H as (news & s0 & Hget & H).
  apply get_Return in Hget as (-> & fields & Hf & ->).
  apply bind_Return in H as (items & s0 & [-> Hitems]%iter_Return & H).
  apply (fold_for_appends (item_block s title_match)) in H as (-> & per_item & Hall & ->);
    [|intros; now apply item_blocks_run].
  split; [reflexivity|]. exists (concat per_item). split; [reflexivity|].
  exists fields, items, per_item. auto.
Qed.

Lemma groups_blocks_run title_match acc news_groups s acc' s' :
  bind (Py.iter news_groups) (fun groups =>
  fold_for groups acc (fun new_lines group =>
    bind (Py.get group "news" (VJ (JList []))) (fun news =>
    bind (Py.iter news) (fun items =>
    fold_for items new_lines (item_blocks title_match))))) s = Return acc' s' ->
  s' = s /\
  exists items per_item,
    news_items (heap s) news_groups items
    /\ Forall2 (item_block s title_match) items per_item
    /\ acc' = acc ++ concat per_item.
Proof.
  intros H. apply bind_Return in H as (groups & s0 & [-> Hgroups]%iter_Return & H).
  eapply fold_for_appends in H as (-> & bss & Hall & ->);
    [|intros acc0 x acc0' s0'; apply group_blocks_run].
  split; [reflexivity|].
  assert (Hsplit : exists per_group per_items,
             Forall2 (fun group news =>
                        exists fields,
                          fields_of (heap s) group = Some fields
                          /\ items_of (heap s) (field_or "news" (VJ (JList [])) fields)
                             = Some news) groups per_group
             /\ Forall2 (Forall2 (item_block s title_match)) per_group per_items
             /\ bss = (fun x => concat x) <$> per_items).
  { clear Hgroups. induction Hall as [|g bs gs bss Hg _ IH].
    - exists [], []. repeat constructor.
    - destruct Hg as (fields & news & per_item & Hf & Hn & Hi & ->).
      destruct IH as (pg & pi & H1 & H2 & ->).
      exists (news :: pg), (per_item :: pi). repeat split; try constructor; eauto. }
  destruct Hsplit as (per_group & per_items & Hg & Hi & ->).
  exists (concat per_group), (concat per_items). split; [|split].
  - exists groups, per_group. auto.
  - now apply Forall2_concat.
  - f_equal. clear. induction per_items as [|x xs IH]; simpl; [reflexivity|].
    rewrite concat_app. f_equal. exact IH.
Qed.

Lemma lines_blocks_run news_groups lines acc s acc' s' :
  fold_for lines acc (fun new_lines line =>
    let new_lines := new_lines ++ [line] in
    if is_news_line line then
      bind (lift (title_match_of line)) (fun title_match =>
      bind (Py.iter news_groups) (fun groups =>
      fold_for groups new_lines (fun new_lines group =>
        bind (Py.get group "news" (VJ (JList []))) (fun news =>
        bind (Py.iter news) (fun items =>
        fold_for items new_lines (item_blocks title_match))))))
    else ret new_lines) s = Return acc' s' ->
  s' = s /\
  exists blocks,
    Forall2 (line_blocks s news_groups) lines blocks
    /\ acc' = acc ++ concat (zip_with cons lines blocks).
Proof.
  intros H.
  eapply (fold_for_appends
            (fun line bs' => exists bs, bs' = line :: bs /\ line_blocks s news_groups line bs))
    in H as (-> & bss & Hall & ->).
  - split; [reflexivity|].
    assert (Hsplit : exists blocks,
               Forall2 (line_blocks s news_groups) lines blocks
               /\ bss = zip_with cons lines blocks).
    { induction Hall as [|line bs' lines bss (bs & -> & Hb) _ (blocks & IH & ->)].
      - exists []. split; constructor.
      - exists (bs :: blocks). split; [now constructor | reflexivity]. }
    destruct Hsplit as (blocks & Hb & ->). eauto.
  - intros acc0 line acc0' s0' Hline. cbv zeta in Hline. unfold line_blocks.
    destruct (is_news_line line).
    + apply bind_Return in Hline as (tm & s0 & [Htm ->]%lift_Return & Hline).
      apply groups_blocks_run in Hline as (-> & items & per_item & Hitems & Hall & ->).
      split; [reflexivity|]. exists (line :: concat per_item).
      split; [now rewrite <- app_assoc|]. exists (concat per_item).
      split; [reflexivity|]. exists tm, items, per_item. auto.
    + injection Hline as <- <-. split; [reflexivity|]. exists [line]. eauto.
Qed.

(** ** add_ai_html_blocks on well-formed news groups *)

Lemma split_go_two c sep s cur :
  Text.contains (String c sep) s = true ->
  (2 <= length (Text.split_go (String c sep) s 0 cur))%nat.
Proof.
  revert cur. induction s as [|a s IH]; intros cur H.
  - discriminate.
  - cbn [Text.split_go]. cbn [Text.contains] in H.
    destruct (Text.starts_with (String c sep) (String a s)) eqn:E.
    + cbn [length].
      pose proof (split_go_nonempty (String c sep) s
                    (String.length (String c sep) - 1) []) as Hne.
      destruct (Text.split_go _ s _ _); [congruence | simpl; lia].
    + cbn [orb] in H. now apply IH.
Qed.

Lemma title_match_total line : exists title_match, title_match_of line = Ok title_match.
Proof.
  unfold title_match_of.
  destruct (Text.contains (Text.dq +:+ ">") line) eqn:E; cbn [andb]; [|eauto].
  destruct (Text.contains "</a>" line); [|eauto].
  change (Text.dq +:+ ">") with (String (Text.byte 34) ">") in *.
  apply (split_go_two _ _ _ []) in E. unfold Text.split at 1.
  destruct (Text.split_go (String (Text.byte 34) ">") line 0 []) as [|p0 [|p1 rest]];
    simpl in E; try lia.
  cbn [list_index lookup list_lookup rbind].
  pose proof (split_go_nonempty "</a>" p1 0 []) as Hne.
  fold (Text.split "</a>" p1) in Hne.
  destruct (Text.split "</a>" p1); [congruence|]. cbn. eauto.
Qed.

Lemma contains_fields k v s fields :
  fields_of (heap s) v = Some fields ->
  exists b, Py.contains k v s = Return b s.
Proof.
  unfold fields_of, Py.contains. destruct v as [j|l].
  - destruct j; try discriminate. intros _. cbn. unfold ret. eauto.
  - unfold bind, deref, ret. destruct (heap s !! l) as [[kvs| |]|]; try discriminate. eauto.
Qed.

Lemma getitem_fields k v s fields x :
  fields_of (heap s) v = Some fields -> assoc k fields = Some x ->
  Py.getitem v k s = Return x s.
Proof.
  unfold fields_of, Py.getitem. destruct v as [j|l].
  - destruct j; try discriminate. intros [= <-] Hx. unfold bind, Json.getitem.
    assert (Hk : exists y, assoc k kvs = Some y /\ x = VJ y).
    { induction kvs as [|[k' y] kvs IH]; simpl in *; [discriminate|].
      destruct (String.eqb k k'); [injection Hx as <-; eauto | auto]. }
    destruct Hk as (y & -> & ->). reflexivity.
  - unfold bind, deref, ret. destruct (heap s !! l) as [[kvs| |]|]; try discriminate.
    intros [= <-] ->. reflexivity.
Qed.

(** A loop whose steps read the store and return. *)
Lemma fold_for_returns {A B} (P : A -> Prop) (body : B -> A -> M B) s :
  (forall acc x, P x -> exists acc', body acc x s = Return acc' s) ->
  forall xs acc, Forall P xs -> exists acc', fold_for xs acc body s = Return acc' s.
Proof.
  intros Hbody xs. induction xs as [|x xs IH]; intros acc Hall.
  - exists acc. reflexivity.
  - apply Forall_cons in Hall as [Hx Hall].
    destruct (Hbody acc x Hx) as [acc1 H1]. destruct (IH acc1 Hall) as [acc2 H2].
    exists acc2. cbn [fold_for]. unfold bind. now rewrite H1.
Qed.

Lemma py_join_texts sep v s :
  texts_ok (heap s) v -> exists t, py_join sep v s = Return t s.
Proof.
  intros [texts Hitems]. unfold py_join. unfold bind at 1.
  assert (Hiter : Py.iter v s = Return (List.map (fun t => VJ (JStr t)) texts) s)
    by (apply iter_Return; auto).
  rewrite Hiter.
  assert (Hall : Forall (fun p : Z * val => exists t, p.2 = VJ (JStr t))
                        (enumerate (List.map (fun t => VJ (JStr t)) texts))).
  { apply (Forall_fmap snd (fun x => exists t, x = VJ (JStr t))).
    rewrite enumerate_snd. apply Forall_forall.
    intros x (t & -> & _)%list_elem_of_fmap. eauto. }
  eapply (fold_for_returns _ _ s) in Hall as [parts Hparts].
  - unfold bind. rewrite Hparts. unfold ret. eauto.
  - intros acc [i item] [t Ht]. simpl in Ht. subst item. unfold ret. eauto.
Qed.

Lemma item_blocks_total title_match acc item s :
  item_ok (heap s) item ->
  exists acc', item_blocks title_match acc item s = Return acc' s.
Proof.
  intros (fields & Hf & [t Ht] & Hann). unfold item_blocks.
  unfold bind at 1. rewrite (get_fields _ _ _ _ _ _ eq_refl Hf), Ht.
  unfold bind at 1. cbn [Py.contains Json.contains lift ret].
  destruct (Text.contains title_match t); [|unfold bind, ret; eauto].
  unfold bind at 1.
  destruct (contains_fields "ai_annotation" item s fields Hf) as [has Hhas].
  rewrite Hhas. pose proof (contains_key _ _ _ _ _ Hf Hhas) as Hkey.
  destruct has; [|unfold ret; eauto].
  destruct (proj1 Hkey eq_refl) as [ann Ha]. clear Hkey.
  unfold bind at 1. rewrite (getitem_fields _ _ _ _ _ Hf Ha).
  unfold bind at 1.
  destruct (Hann ann Ha) as [Hfalse|(afields & Haf & Hcase)].
  { assert (Htr : Py.truthy ann s = Return false s) by (apply truthy_Return; auto).
    rewrite Htr. unfold bind, ret. eauto. }
  assert (Htr : exists b, Py.truthy ann s = Return b s).
  { unfold fields_of in Haf. unfold Py.truthy. destruct ann as [j|l].
    - unfold ret. eauto.
    - unfold bind, deref, ret. destruct (heap s !! l) as [[| |]|]; try discriminate; eauto. }
  destruct Htr as [nonempty ->].
  destruct nonempty; [|unfold bind, ret; eauto].
  unfold bind at 1. unfold bind at 1.
  destruct (contains_fields "error" ann s afields Haf) as [failed Hfailed].
  rewrite Hfailed. pose proof (contains_key _ _ _ _ _ Haf Hfailed) as Hkey.
  destruct failed; cbn [negb ret]; [unfold ret; eauto|].
  destruct Hcase as [Herr|[Hbs Hsc]].
  { apply Hkey in Herr. discriminate. }
  unfold bind at 1. rewrite (get_fields _ _ _ _ _ _ eq_refl Haf).
  unfold bind at 1.
  destruct (py_str_run (field_or "event_type" (VJ (JStr EmptyString)) afields) s) as [et ->].
  unfold bind at 1. rewrite (get_fields _ _ _ _ _ _ eq_refl Haf).
  unfold bind at 1. destruct (py_join_texts ", " _ s Hbs) as [bs ->].
  unfold bind at 1. rewrite (get_fields _ _ _ _ _ _ eq_refl Haf).
  unfold bind at 1. destruct (py_join_texts ", " _ s Hsc) as [sc ->].
  unfold bind at 1. rewrite (get_fields _ _ _ _ _ _ eq_refl Haf).
  unfold bind at 1.
  destruct (py_str_run (field_or "risk_note" (VJ (JStr EmptyString)) afields) s) as [rn ->].
  unfold ret. eauto.
Qed.

Lemma add_ai_html_blocks_total html_content news_groups s :
  groups_ok (heap s) news_groups ->
  exists out, add_ai_html_blocks html_content news_groups s = Return out s.
Proof.
  intros (groups & Hgroups & Hall). unfold add_ai_html_blocks. cbv zeta.
  unfold bind at 1.
  match goal with
  | |- context [fold_for ?lines ?nothing ?body s] =>
      assert (Hlines : exists new_lines, fold_for lines nothing body s = Return new_lines s);
      [apply (fold_for_returns (fun _ : string => True))|]
  end.
  - intros acc line _. destruct (is_news_line line); [|unfold ret; eauto].
    destruct (title_match_total line) as [tm ->]. unfold bind at 1. cbn [lift ret].
    assert (Hiter : Py.iter news_groups s = Return groups s) by (apply iter_Return; auto).
    unfold bind at 1. rewrite Hiter.
    apply (fold_for_returns (group_ok (heap s))); [|exact Hall].
    intros acc0 group (fields & news & Hf & Hnews & Hitems).
    unfold bind at 1. rewrite (get_fields _ _ _ _ _ _ eq_refl Hf).
    assert (Hiter' : Py.iter (field_or "news" (VJ (JList [])) fields) s = Return news s)
      by (apply iter_Return; auto).
    unfold bind at 1. rewrite Hiter'.
    apply (fold_for_returns (item_ok (heap s))); [|exact Hitems].
    intros acc1 item Hitem. now apply item_blocks_total.
  - apply Forall_forall. intros; exact I.
  - destruct Hlines as [new_lines Hloop]. rewrite Hloop. unfold ret. eauto.
Qed.

Lemma add_ai_html_blocks_lines html_content news_groups s out s' :
  add_ai_html_blocks html_content news_groups s = Return out s' ->
  s' = s /\
  exists blocks,
    Forall2 (line_blocks s news_groups) (Text.split Text.nl html_content) blocks
    /\ out = Text.join Text.nl
               (concat (zip_with cons (Text.split Text.nl html_content) blocks))
    /\ Text.split Text.nl html_content `sublist_of` Text.split Text.nl out.
Proof.
  unfold add_ai_html_blocks. cbv zeta. intros H.
  apply bind_Return in H as (new_lines & s1 & Hloop & [= <- <-]).
  apply lines_blocks_run in Hloop as (-> & blocks & Hall & ->).
  split; [reflexivity|]. exists blocks. split; [exact Hall|]. split; [reflexivity|].
  cbn [app]. rewrite split_join.
  - eapply lines_sublist; [apply split_no_newline | exact Hall].
  - pose proof (split_go_nonempty Text.nl html_content 0 []) as Hne.
    fold (Text.split Text.nl html_content) in Hne.
    destruct Hall; [congruence | discriminate].
Qed.

(** ** The lines that get blocks *)

Lemma is_news_line_spec line : is_news_line line = true <-> linked_item_line line.
Proof.
  unfold is_news_line, linked_item_line.
  rewrite andb_true_iff, starts_with_spec, contains_spec. reflexivity.
Qed.

Lemma list_index_Ok xs i x : list_index xs i = Ok x <-> xs !! i = Some x.
Proof. unfold list_index. destruct (xs !! i); split; congruence. Qed.

Lemma title_match_anchor line a : title_match_of line = Ok a -> anchor_text line a.
Proof.
  unfold title_match_of, anchor_text.
  destruct (Text.contains (Text.dq +:+ ">") line && Text.contains "</a>" line) eqn:Hboth.
  - apply andb_true_iff in Hboth as [H1 H2]. apply contains_spec in H1, H2.
    intros H. left. split; [exact H1|]. split; [exact H2|].
    destruct (list_index (Text.split (Text.dq +:+ ">") line) 1) as [rest|e] eqn:Hrest;
      [|discriminate].
    exists rest. split; now apply list_index_Ok.
  - intros [= <-]. right. split; [|reflexivity].
    intros [H1 H2]. apply contains_spec in H1, H2. now rewrite H1, H2 in Hboth.
Qed.

Lemma line_blocks_after s news_groups line bs :
  line_blocks s news_groups line bs -> blocks_after s news_groups line bs.
Proof.
  unfold line_blocks, blocks_after. pose proof (is_news_line_spec line) as Hspec.
  destruct (is_news_line line).
  - intros (tm & items & per_item & Htm & Hitems & Hall & ->). split.
    + intros _. exists tm, items, per_item.
      split; [now apply title_match_anchor|]. auto.
    + intros Hnot. exfalso. apply Hnot. now apply Hspec.
  - intros ->. split; [|reflexivity].
    intros Hline. apply Hspec in Hline. discriminate.
Qed.

(** C9, as the code has it. For news groups that are well formed (groups
    and news items are dictionaries, titles are text, an annotation is
    empty or a dictionary that records an error or whose two lists hold
    texts) [add_ai_html_blocks] returns. Whenever it returns, it has
    changed nothing, and its output is the lines of the input, in order,
    each followed at once by its blocks, joined by line feeds: cut into
    lines again, the output holds every line of the input in the original
    order. Blocks follow only a line that, white space around it set
    aside, opens with the tag [<li>] written without attributes, and in
    which [href=] occurs. The anchor text of such a line is what stands
    between the first double quote followed by [>] and the next [</a>],
    and is empty when the line has no such double quote or no [</a>].
    Each news item, in the order of the groups, adds the block of its
    annotation when the anchor text occurs in its title and its
    annotation is present, is not empty and has no [error]; otherwise it
    adds nothing. *)
Theorem add_ai_html_blocks_keeps_lines html_content news_groups s :
  (groups_ok (heap s) news_groups ->
   exists out, add_ai_html_blocks html_content news_groups s = Return out s)
  /\ (forall out s',
         add_ai_html_blocks html_content news_groups s = Return out s' ->
         s' = s /\
         exists blocks,
           Forall2 (blocks_after s news_groups) (Text.split Text.nl html_content) blocks
           /\ out = Text.join Text.nl
                      (concat (zip_with cons (Text.split Text.nl html_content) blocks))
           /\ Text.split Text.nl html_content `sublist_of` Text.split Text.nl out).
Proof.
  split; [apply add_ai_html_blocks_total|].
  intros out s' Hrun.
  destruct (add_ai_html_blocks_lines _ _ _ _ _ Hrun) as (-> & blocks & Hall & Hout & Hsub).
  split; [reflexivity|]. exists blocks. split; [|split; [exact Hout | exact Hsub]].
  eapply Forall2_impl; [exact Hall|]. intros line bs. apply line_blocks_after.
Qed.

(** * Further properties of the searches *)

Lemma found_keywords_sublist title_lower kws :
  found_keywords title_lower kws `sublist_of` kws.
Proof.
  unfold found_keywords. induction kws as [|kw kws IH]; simpl; [constructor|].
  destruct (Text.contains (lower kw) title_lower); now constructor.
Qed.

Lemma top_ranked_elem n hit entries rs r :
  top_ranked n hit entries rs -> r ∈ rs ->
  exists e, e ∈ entries /\ hit e = Ok (Some r).
Proof.
  intros (_ & ps & Hall & _) Hr.
  apply list_elem_of_lookup in Hr as [i Hi].
  destruct (Forall2_lookup_l _ _ _ _ _ Hall Hi) as (p & _ & e & He & Hhit).
  exists e. split; [|exact Hhit]. eapply list_elem_of_lookup_2. exact He.
Qed.

(** The searches look at the title only through [title.lower()]: two
    titles with the same lowered form get the same answers. *)
Theorem find_related_same_lowered_title self (t1 t2 : string) :
  lower t1 = lower t2 ->
  find_related_stocks self (JStr t1) = find_related_stocks self (JStr t2)
  /\ find_related_industries self (JStr t1) = find_related_industries self (JStr t2).
Proof.
  intros H. unfold find_related_stocks, find_related_industries.
  rewrite !collect_related_stocks_hits, !collect_related_industries_hits.
  unfold str_lower. now rewrite H.
Qed.

(** Every record [find_related_stocks] returns is made from one entry of
    the table: a dictionary with the four keys 股票代码, 股票名称,
    匹配关键词 and 匹配强度, in this order, holding the code and the name
    of the entry, the matched keywords and their number. The matched
    keywords are keywords of the entry, spelled and ordered as there, each
    occurring in the lowered title once lowered itself, and there is at
    least one. The same holds for [find_related_industries], whose records
    have the three keys 板块名称, 匹配关键词 and 匹配强度. *)
Theorem find_related_records self title :
  (forall rs r,
      find_related_stocks self title = Ok rs -> r ∈ rs ->
      exists title_lower entries e name code kws matched,
        str_lower title = Ok title_lower
        /\ Json.iter (stock_mappings self) = Ok entries
        /\ e ∈ entries
        /\ Json.getitem e "股票名称" = Ok name
        /\ Json.getitem e "股票代码" = Ok code
        /\ entry_keywords e = Ok kws
        /\ r = JDict [("股票代码", code);
                      ("股票名称", name);
                      ("匹配关键词", JList (JStr <$> matched));
                      ("匹配强度", JInt (Z.of_nat (length matched)))]
        /\ matched `sublist_of` kws
        /\ matched <> []
        /\ forall kw, kw ∈ matched -> Text.occurs_in (lower kw) title_lower)
  /\ (forall rs r,
         find_related_industries self title = Ok rs -> r ∈ rs ->
         exists title_lower entries e name kws matched,
           str_lower title = Ok title_lower
           /\ Json.iter (industry_mappings self) = Ok entries
           /\ e ∈ entries
           /\ Json.getitem e "板块名称" = Ok name
           /\ entry_keywords e = Ok kws
           /\ r = JDict [("板块名称", name);
                         ("匹配关键词", JList (JStr <$> matched));
                         ("匹配强度", JInt (Z.of_nat (length matched)))]
           /\ matched `sublist_of` kws
           /\ matched <> []
           /\ forall kw, kw ∈ matched -> Text.occurs_in (lower kw) title_lower).
Proof.
  split; intros rs r Hrun Hr.
  - destruct (find_related_stocks_ranked _ _ _ Hrun) as (tl & entries & Htl & Hit & Htop).
    destruct (top_ranked_elem _ _ _ _ _ Htop Hr) as (e & He & Hhit).
    destruct (stock_hit_found _ _ _ Hhit) as (name & code & kws & Hn & Hc & Hk & Hh).
    exists tl, entries, e, name, code, kws, (found_keywords tl kws).
    repeat (split; [assumption|]).
    pose proof (found_keywords_sublist tl kws) as Hsub.
    destruct (found_keywords tl kws) as [|m ms] eqn:Hfound; [discriminate|].
    injection Hh as ->. split.
    { change (stock_record code name (JStr <$> m :: ms) = JDict
                [("股票代码", code); ("股票名称", name);
                 ("匹配关键词", JList (JStr <$> m :: ms));
                 ("匹配强度", JInt (Z.of_nat (length (m :: ms))))]).
      unfold stock_record. now rewrite length_fmap. }
    split; [exact Hsub|].
    split; [discriminate|].
    intros kw Hkw. rewrite <- Hfound in Hkw. now apply found_keywords_elem in Hkw.
  - destruct (find_related_industries_ranked _ _ _ Hrun) as (tl & entries & Htl & Hit & Htop).
    destruct (top_ranked_elem _ _ _ _ _ Htop Hr) as (e & He & Hhit).
    destruct (industry_hit_found _ _ _ Hhit) as (name & kws & Hn & Hk & Hh).
    exists tl, entries, e, name, kws, (found_keywords tl kws).
    repeat (split; [assumption|]).
    pose proof (found_keywords_sublist tl kws) as Hsub.
    destruct (found_keywords tl kws) as [|m ms] eqn:Hfound; [discriminate|].
    injection Hh as ->. split.
    { change (industry_record name (JStr <$> m :: ms) = JDict
                [("板块名称", name);
                 ("匹配关键词", JList (JStr <$> m :: ms));
                 ("匹配强度", JInt (Z.of_nat (length (m :: ms))))]).
      unfold industry_record. now rewrite length_fmap. }
    split; [exact Hsub|].
    split; [discriminate|].
    intros kw Hkw. rewrite <- Hfound in Hkw. now apply found_keywords_elem in Hkw.
Qed.

(** A keyword whose lowered form is the empty text occurs in every title:
    an entry that lists one is collected for every title, and so is an
    industry that lists one. *)
Theorem empty_keyword_matches_every_title self (t : string) e kws kw :
  entry_keywords e = Ok kws -> kw ∈ kws -> lower kw = EmptyString ->
  (forall cs entries,
      collect_related_stocks self (JStr t) = Ok cs ->
      Json.iter (stock_mappings self) = Ok entries -> e ∈ entries ->
      exists r, r ∈ cs /\ stock_hit (lower t) e = Ok (Some r))
  /\ (forall cs entries,
         collect_related_industries self (JStr t) = Ok cs ->
         Json.iter (industry_mappings self) = Ok entries -> e ∈ entries ->
         exists r, r ∈ cs /\ industry_hit (lower t) e = Ok (Some r)).
Proof.
  intros Hkws Hkw Hlow.
  assert (Hocc : exists kw, kw ∈ kws /\ Text.occurs_in (lower kw) (lower t)).
  { exists kw. split; [exact Hkw|]. rewrite Hlow. now exists EmptyString, (lower t). }
  split; intros cs entries Hrun Hit He.
  - rewrite collect_related_stocks_hits in Hrun. simpl in Hrun. rewrite Hit in Hrun.
    simpl in Hrun.
    destruct (rmap (stock_hit (lower t)) entries) as [hits|] eqn:Hhits; [|discriminate].
    injection Hrun as <-. apply rmap_Ok in Hhits.
    apply list_elem_of_lookup in He as [i Hi].
    destruct (Forall2_lookup_l _ _ _ _ _ Hhits Hi) as (h & Hh & Hhit).
    destruct (stock_hit_counts _ _ _ Hhit) as (_ & kws' & Hkws' & Hsome & _).
    assert (kws' = kws) as -> by congruence.
    apply Hsome in Hocc as [r ->]. exists r. split; [|exact Hhit].
    apply list_elem_of_omap. exists (Some r). split; [|reflexivity].
    eapply list_elem_of_lookup_2. exact Hh.
  - rewrite collect_related_industries_hits in Hrun. simpl in Hrun. rewrite Hit in Hrun.
    simpl in Hrun.
    destruct (rmap (industry_hit (lower t)) entries) as [hits|] eqn:Hhits; [|discriminate].
    injection Hrun as <-. apply rmap_Ok in Hhits.
    apply list_elem_of_lookup in He as [i Hi].
    destruct (Forall2_lookup_l _ _ _ _ _ Hhits Hi) as (h & Hh & Hhit).
    destruct (industry_hit_counts _ _ _ Hhit) as (_ & kws' & Hkws' & Hsome & _).
    assert (kws' = kws) as -> by congruence.
    apply Hsome in Hocc as [r ->]. exists r. split; [|exact Hhit].
    apply list_elem_of_omap. exists (Some r). split; [|reflexivity].
    eapply list_elem_of_lookup_2. exact Hh.
Qed.

(** * Further properties of the configuration *)




(** * Further properties of the enrichment of one title *)

Lemma dict_set_same {V} k (v : V) d : assoc k d = Some v -> dict_set k v d = d.
Proof.
  induction d as [|[k' v'] d IH]; simpl; [discriminate|].
  destruct (String.eqb_spec k k') as [->|Hne].
  - now intros [= ->].
  - intros H. now rewrite IH.
Qed.


Lemma with_related_twice rs ri fields :
  with_related rs ri (with_related rs ri fields) = with_related rs ri fields.
Proof.
  unfold with_related.
  rewrite (dict_set_same "related_stocks").
  - apply dict_set_same, assoc_dict_set_eq.
  - rewrite assoc_dict_set_ne by discriminate. apply assoc_dict_set_eq.
Qed.

Lemma with_related_title rs ri fields default :
  field_or "title" default (with_related rs ri fields) = field_or "title" default fields.
Proof.
  unfold field_or, with_related. now rewrite !assoc_dict_set_ne by discriminate.
Qed.

(** [associate_title_with_stocks] on an item whose title is not empty,
    step by step. *)
Lemma associate_title_eval self title_data s fields a j rs ri :
  fields_of (heap s) title_data = Some fields ->
  field_or "title" (VJ (JStr EmptyString)) fields = VJ j ->
  Json.truthy j = true ->
  associator_at (heap s) self a ->
  find_related_stocks a j = Ok rs ->
  find_related_industries a j = Ok ri ->
  associate_title_with_stocks self title_data s
  = Return (VRef (length (heap s)))
           (with_heap s (heap s ++ [ODict (with_related rs ri fields)])).
Proof.
  intros Hf Ht Htrue Ha Hrs Hri.
  unfold associate_title_with_stocks, bind.
  rewrite (get_fields _ _ _ _ _ _ eq_refl Hf), Ht.
  cbn [Py.truthy ret]. rewrite Htrue. cbn [negb].
  assert (Hself : the_associator self s = Return a s)
    by (apply the_associator_Return; auto).
  rewrite Hself. cbn [with_title lift]. rewrite Hrs, Hri. cbn [lift ret].
  rewrite (copy_fields _ _ _ Hf).
  erewrite setitem_last; [|reflexivity..].
  erewrite setitem_last; [|reflexivity..].
  reflexivity.
Qed.

(** Enriching an item that was enriched already gives an item with the
    same fields: the two results are computed again from the same title
    and written over themselves. *)
Theorem associate_title_twice self title_data s v s1 :
  associate_title_with_stocks self title_data s = Return v s1 ->
  exists v2 s2,
    associate_title_with_stocks self v s1 = Return v2 s2
    /\ fields_of (heap s2) v2 = fields_of (heap s1) v.
Proof.
  intros Hrun. pose proof (associate_title_run self title_data s) as H.
  rewrite Hrun in H. destruct H as (fields & Hf & [(Hfalse & -> & ->)|(Htrue & H)]).
  - exists title_data, s. split; [exact Hrun | reflexivity].
  - destruct H as (a & j & rs & ri & Ha & Hj & Hrs & Hri & -> & ->).
    apply truthy_Return in Htrue as [_ Htrue]. rewrite Hj in Htrue.
    injection Htrue as Htrue.
    set (s1 := with_heap s (heap s ++ [ODict (with_related rs ri fields)])).
    assert (Hpre : heap s `prefix_of` heap s1) by apply prefix_app_r, reflexivity.
    assert (Hf1 : fields_of (heap s1) (VRef (length (heap s)))
                  = Some (with_related rs ri fields)).
    { unfold fields_of, s1. cbn [heap with_heap]. now rewrite list_lookup_middle. }
    eexists _, _. split.
    + apply (associate_title_eval self _ s1 (with_related rs ri fields) a j rs ri);
        try assumption.
      * rewrite with_related_title. exact Hj.
      * eapply associator_at_mono; eassumption.
    + rewrite Hf1, with_related_twice. unfold fields_of. cbn [heap with_heap].
      now rewrite list_lookup_middle.
Qed.


(** * Further properties of the enrichment of a payload *)



(** ** What the enrichment prints *)

Lemma keeps_log_ret {A} (a : A) : keeps_log (ret a).
Proof. intros s a' s' [= <- <-]. split; reflexivity. Qed.

Lemma keeps_log_bind {A B} (m : M A) (f : A -> M B) :
  keeps_log m -> (forall a, keeps_log (f a)) -> keeps_log (bind m f).
Proof.
  intros Hm Hf s b s' H. apply bind_Return in H as (a & s1 & H1 & H2).
  destruct (Hm _ _ _ H1) as [E1 E2]. destruct (Hf a _ _ _ H2) as [E3 E4].
  split; congruence.
Qed.

Lemma keeps_log_pure {A} (m : M A) :
  (forall s a s', m s = Return a s' -> s' = s) -> keeps_log m.
Proof. intros Hm s a s' H. apply Hm in H as ->. split; reflexivity. Qed.

Lemma keeps_log_heap {A} (m : M A) :
  (forall s a s', m s = Return a s' -> exists h, s' = with_heap s h) -> keeps_log m.
Proof. intros Hm s a s' H. apply Hm in H as [h ->]. split; reflexivity. Qed.

Lemma keeps_log_fold_for {A B} (body : B -> A -> M B) xs acc :
  (forall acc x, keeps_log (body acc x)) -> keeps_log (fold_for xs acc body).
Proof.
  intros Hbody. revert acc. induction xs as [|x xs IH]; intros acc; cbn [fold_for].
  - apply keeps_log_ret.
  - apply keeps_log_bind; [apply Hbody | exact IH].
Qed.

Lemma keeps_log_get v k default : keeps_log (Py.get v k default).
Proof. apply keeps_log_pure. intros s a s' H. now apply get_Return in H as [-> _]. Qed.

Lemma keeps_log_iter v : keeps_log (Py.iter v).
Proof. apply keeps_log_pure. intros s a s' H. now apply iter_Return in H as [-> _]. Qed.

Lemma keeps_log_alloc o : keeps_log (alloc o).
Proof. apply keeps_log_heap. intros s a s' [= <- <-]. eauto. Qed.

Lemma keeps_log_copy v : keeps_log (Py.copy v).
Proof.
  apply keeps_log_heap. intros s a s'. unfold Py.copy.
  destruct v as [j|l].
  - destruct j; try discriminate; intros [= <- <-]; eauto.
  - unfold bind, deref, alloc. destruct (heap s !! l) as [[| |]|]; try discriminate;
      intros [= <- <-]; eauto.
Qed.

Lemma keeps_log_setitem v k x : keeps_log (Py.setitem v k x).
Proof.
  apply keeps_log_heap. intros s a s'. unfold Py.setitem.
  destruct v as [j|l].
  - destruct j; discriminate.
  - unfold bind, deref, store. destruct (heap s !! l) as [[| |]|]; try discriminate.
    intros [= <- <-]. eauto.
Qed.

Lemma keeps_log_associate_title associator title_data :
  keeps_log (associate_title_with_stocks associator title_data).
Proof.
  intros s v s' Hrun. pose proof (associate_title_run associator title_data s) as H.
  rewrite Hrun in H. destruct H as (fields & _ & [(_ & _ & ->)|(_ & H)]).
  - split; reflexivity.
  - destruct H as (a & j & rs & ri & _ & _ & _ & _ & _ & ->). split; reflexivity.
Qed.

Lemma keeps_log_associate_entry associator entry :
  keeps_log (associate_entry associator entry).
Proof.
  unfold associate_entry.
  apply keeps_log_bind; [apply keeps_log_get | intros titles].
  apply keeps_log_bind; [apply keeps_log_iter | intros items].
  apply keeps_log_bind.
  { apply keeps_log_fold_for. intros acc x.
    apply keeps_log_bind; [apply keeps_log_associate_title | intros u; apply keeps_log_ret]. }
  intros updated_titles.
  apply keeps_log_bind; [apply keeps_log_copy | intros updated_entry].
  apply keeps_log_bind; [apply keeps_log_alloc | intros lt].
  apply keeps_log_bind; [apply keeps_log_setitem | intros _; apply keeps_log_ret].
Qed.

Lemma keeps_log_entries_loop associator entries :
  keeps_log (fold_for entries [] (fun acc entry =>
    bind (associate_entry associator entry) (fun u => ret (acc ++ [u])))).
Proof.
  apply keeps_log_fold_for. intros acc x.
  apply keeps_log_bind; [apply keeps_log_associate_entry | intros u; apply keeps_log_ret].
Qed.

(** [associate_news_with_stocks] prints nothing once the module-level
    instance exists, and leaves it in place. When there is none yet, the
    call creates it at the next free location and prints the one line of
    the loading, nothing more. *)
Theorem associate_news_loads_config_once news_data s v s' :
  associate_news_with_stocks news_data s = Return v s' ->
  (forall l, stock_associator_global s = Some l ->
             trace s' = trace s /\ stock_associator_global s' = Some l)
  /\ (stock_associator_global s = None ->
      stock_associator_global s' = Some (length (heap s))
      /\ exists line, trace s' = trace s ++ [Printed line]).
Proof.
  unfold associate_news_with_stocks. intros H.
  apply bind_Return in H as (associator & s1 & Hassoc & H).
  assert (Hrest : trace s' = trace s1
                  /\ stock_associator_global s' = stock_associator_global s1).
  { revert H. generalize s1 v s'.
    match goal with
    | |- forall s1 v s', ?m s1 = Return v s' -> _ => change (keeps_log m)
    end.
    apply keeps_log_bind; [apply keeps_log_get | intros stats].
    apply keeps_log_bind; [apply keeps_log_iter | intros stat_items].
    apply keeps_log_bind; [apply keeps_log_entries_loop | intros updated_stats].
    apply keeps_log_bind; [apply keeps_log_get | intros new_titles].
    apply keeps_log_bind; [apply keeps_log_iter | intros source_items].
    apply keeps_log_bind; [apply keeps_log_entries_loop | intros updated_new_titles].
    apply keeps_log_bind; [apply keeps_log_copy | intros updated_news_data].
    apply keeps_log_bind; [apply keeps_log_alloc | intros ls].
    apply keeps_log_bind; [apply keeps_log_setitem | intros _].
    apply keeps_log_bind; [apply keeps_log_alloc | intros ln].
    apply keeps_log_bind; [apply keeps_log_setitem | intros _; apply keeps_log_ret]. }
  destruct Hrest as [Htrace Hglobal]. rewrite Htrace, Hglobal.
  unfold get_stock_associator in Hassoc.
  destruct (stock_associator_global s) as [l0|] eqn:Hg.
  - injection Hassoc as <- <-. split; [|discriminate].
    intros l [= <-]. split; [reflexivity | exact Hg].
  - split; [discriminate|]. intros _.
    destruct (init_ends None s) as [(e & s0 & Hinit & _)|(a & line & Hinit)];
      rewrite Hinit in Hassoc; [discriminate|].
    injection Hassoc as <- <-. split; [reflexivity|]. exists line. reflexivity.
Qed.

(** * Further properties of format_stock_info *)

Lemma fold_for_ext {A B} (body1 body2 : B -> A -> M B) :
  (forall acc x s, body1 acc x s = body2 acc x s) ->
  forall xs acc s, fold_for xs acc body1 s = fold_for xs acc body2 s.
Proof.
  intros Hbody xs. induction xs as [|x xs IH]; intros acc s; cbn [fold_for]; [reflexivity|].
  unfold bind. rewrite Hbody. destruct (body2 acc x s); [apply IH | reflexivity..].
Qed.

Lemma cell_by_platform platform cell :
  (if String.eqb platform "feishu" then "<font color='blue'>" +:+ cell +:+ "</font>"
   else if String.eqb platform "dingtalk" || String.eqb platform "wework" then cell
   else if String.eqb platform "telegram" then "<b>" +:+ cell +:+ "</b>"
   else if String.eqb platform "ntfy" then cell
   else cell)
  = (if String.eqb platform "feishu" then "<font color='blue'>" +:+ cell +:+ "</font>"
     else if String.eqb platform "telegram" then "<b>" +:+ cell +:+ "</b>"
     else cell).
Proof.
  destruct (String.eqb platform "feishu"); [reflexivity|].
  destruct (String.eqb_spec platform "dingtalk") as [->|_]; [reflexivity|].
  destruct (String.eqb_spec platform "wework") as [->|_]; [reflexivity|].
  cbn [orb]. destruct (String.eqb platform "telegram"); [reflexivity|].
  now destruct (String.eqb platform "ntfy").
Qed.

Lemma heading_by_platform platform joined :
  (if String.eqb platform "feishu" then " <font color='grey'>相关股票:</font> " +:+ joined
   else if String.eqb platform "dingtalk" || String.eqb platform "wework"
           || String.eqb platform "ntfy" then " 相关股票: " +:+ joined
   else if String.eqb platform "telegram" then " <b>相关股票:</b> " +:+ joined
   else " 相关股票: " +:+ joined)
  = stock_heading platform +:+ joined.
Proof.
  unfold stock_heading.
  destruct (String.eqb platform "feishu"); [reflexivity|].
  destruct (String.eqb_spec platform "dingtalk") as [->|_]; [reflexivity|].
  destruct (String.eqb_spec platform "wework") as [->|_]; [reflexivity|].
  destruct (String.eqb_spec platform "ntfy") as [->|_]; [reflexivity|].
  cbn [orb]. now destruct (String.eqb platform "telegram").
Qed.

(** A value that yields items is true. *)
Lemma truthy_of_items v s items :
  items_of (heap s) v = Some items -> items <> [] -> Py.truthy v s = Return true s.
Proof.
  unfold items_of, Py.truthy. destruct v as [j|l].
  - destruct j as [| | | |t|xs|kvs]; try discriminate; cbn [Json.iter Json.truthy].
    + intros [= <-] Hne. destruct t; [now contradiction Hne | reflexivity].
    + intros [= <-] Hne. destruct xs; [now contradiction Hne | reflexivity].
    + intros [= <-] Hne. destruct kvs; [now contradiction Hne | reflexivity].
  - unfold bind, deref. destruct (heap s !! l) as [[kvs|xs|]|]; try discriminate.
    + intros [= <-] Hne. destruct kvs; [now contradiction Hne | reflexivity].
    + intros [= <-] Hne. destruct xs; [now contradiction Hne | reflexivity].
Qed.

Lemma getitem_missing k v s fields :
  fields_of (heap s) v = Some fields -> assoc k fields = None ->
  Py.getitem v k s = Throw (Json.key_error k) s.
Proof.
  unfold fields_of, Py.getitem. destruct v as [j|l].
  - destruct j; try discriminate. intros [= <-] Hx. unfold bind, Json.getitem.
    assert (Hk : assoc k kvs = None).
    { induction kvs as [|[k' y] kvs IH]; simpl in *; [reflexivity|].
      destruct (String.eqb k k'); [discriminate | auto]. }
    now rewrite Hk.
  - unfold bind, deref. destruct (heap s !! l) as [[kvs| |]|]; try discriminate.
    intros [= <-] ->. reflexivity.
Qed.

(** The loop of lines 216-228 over stocks that can all be shown. *)
Lemma format_cells_run platform s stocks shown :
  Forall2 (stock_shown s) stocks shown ->
  forall acc,
    fold_for stocks acc (fun stock_info_parts stock =>
      bind (Py.getitem stock "股票名称") (fun stock_name =>
      bind (Py.getitem stock "股票代码") (fun stock_code =>
      bind (py_str stock_name) (fun name =>
      bind (py_str stock_code) (fun code =>
      let cell := "[" +:+ name +:+ "(" +:+ code +:+ ")]" in
      ret (stock_info_parts
           ++ [if String.eqb platform "feishu" then "<font color='blue'>" +:+ cell +:+ "</font>"
               else if String.eqb platform "dingtalk" || String.eqb platform "wework" then cell
               else if String.eqb platform "telegram" then "<b>" +:+ cell +:+ "</b>"
               else if String.eqb platform "ntfy" then cell
               else cell])))))) s
    = Return (acc ++ ((fun p => stock_cell platform p.1 p.2) <$> shown)) s.
Proof.
  induction 1 as [|stock p stocks shown Hp Hrest IH]; intros acc; cbn [fold_for].
  - unfold ret. now rewrite app_nil_r.
  - destruct Hp as (fields & name & code & Hf & Hn & Hc & Hsn & Hsc).
    unfold bind at 1. unfold bind at 1.
    rewrite (getitem_fields _ _ _ _ _ Hf Hn).
    unfold bind at 1. rewrite (getitem_fields _ _ _ _ _ Hf Hc).
    unfold bind at 1. rewrite Hsn. unfold bind at 1. rewrite Hsc.
    cbv zeta. unfold ret at 1. rewrite IH, cell_by_platform.
    cbn [fmap list_fmap]. now rewrite <- app_assoc.
Qed.

(** For a list of stocks that each have a name and a code,
    [format_stock_info] returns the heading of the platform followed by
    one cell per stock, in the order of the list, separated by single
    spaces, and changes nothing. Every platform other than feishu and
    telegram, known or not, gets the plain form. *)
Theorem format_stock_info_renders related_stocks platform s stocks shown :
  items_of (heap s) related_stocks = Some stocks ->
  stocks <> [] ->
  Forall2 (stock_shown s) stocks shown ->
  format_stock_info related_stocks platform s
  = Return (stock_heading platform
            +:+ Text.join " " ((fun p => stock_cell platform p.1 p.2) <$> shown)) s.
Proof.
  intros Hitems Hne Hall. unfold format_stock_info.
  unfold bind at 1. rewrite (truthy_of_items _ _ _ Hitems Hne). cbn [negb].
  assert (Hiter : Py.iter related_stocks s = Return stocks s)
    by (apply iter_Return; auto).
  unfold bind at 1. rewrite Hiter.
  unfold bind at 1.
  match goal with
  | |- context [fold_for stocks [] ?body s] =>
      rewrite (format_cells_run platform s stocks shown Hall []
               : fold_for stocks [] body s = _)
  end.
  cbv zeta. unfold ret. now rewrite heading_by_platform.
Qed.

(** A stock without 股票名称, or with it and without 股票代码, makes
    [format_stock_info] raise [KeyError] for that key when the loop comes
    to it; nothing has changed. *)
Theorem format_stock_info_missing_key related_stocks platform s good shown bad k rest :
  items_of (heap s) related_stocks = Some (good ++ bad :: rest) ->
  Forall2 (stock_shown s) good shown ->
  stock_lacks (heap s) bad k ->
  format_stock_info related_stocks platform s = Throw (Json.key_error k) s.
Proof.
  intros Hitems Hgood (fields & Hf & Hk). unfold format_stock_info.
  unfold bind at 1.
  rewrite (truthy_of_items _ _ _ Hitems) by now destruct good.
  cbn [negb].
  assert (Hiter : Py.iter related_stocks s = Return (good ++ bad :: rest) s)
    by (apply iter_Return; auto).
  unfold bind at 1. rewrite Hiter. unfold bind at 1.
  match goal with
  | |- match fold_for _ _ ?body s with _ => _ end = _ =>
      assert (Hloop : forall parts,
                 fold_for (good ++ bad :: rest) parts body s = Throw (Json.key_error k) s)
  end.
  { clear Hitems Hiter. induction Hgood as [|stock p good shown Hp Hrest IH]; intros parts.
    - cbn [app fold_for]. unfold bind at 1. unfold bind at 1.
      destruct Hk as [[Hn ->]|([name Hn] & Hc & ->)].
      + now rewrite (getitem_missing _ _ _ _ Hf Hn).
      + rewrite (getitem_fields _ _ _ _ _ Hf Hn). unfold bind at 1.
        now rewrite (getitem_missing _ _ _ _ Hf Hc).
    - destruct Hp as (fields' & name & code & Hf' & Hn & Hc & Hsn & Hsc).
      cbn [app fold_for]. unfold bind at 1. unfold bind at 1.
      rewrite (getitem_fields _ _ _ _ _ Hf' Hn).
      unfold bind at 1. rewrite (getitem_fields _ _ _ _ _ Hf' Hc).
      unfold bind at 1. rewrite Hsn. unfold bind at 1. rewrite Hsc.
      cbv zeta. unfold ret at 1. apply IH. }
  now rewrite Hloop.
Qed.

Lemma bind_ext {A B} (m : M A) (f g : A -> M B) s :
  (forall a s1, f a s1 = g a s1) -> bind m f s = bind m g s.
Proof. intros H. unfold bind. destruct (m s); [apply H | reflexivity..]. Qed.

(** Whatever the list holds, a platform other than feishu and telegram
    gets what ntfy gets: dingtalk, wework, ntfy and every unknown platform
    are treated alike, also when the call raises. *)
Theorem format_stock_info_plain_platforms related_stocks platform s :
  platform <> "feishu" -> platform <> "telegram" ->
  format_stock_info related_stocks platform s = format_stock_info related_stocks "ntfy" s.
Proof.
  intros Hf Ht. apply String.eqb_neq in Hf, Ht.
  unfold format_stock_info.
  apply bind_ext. intros b s1. destruct (negb b); [reflexivity|].
  apply bind_ext. intros stocks s2. unfold bind.
  match goal with
  | |- match fold_for _ _ ?b1 _ with _ => _ end
       = match fold_for _ _ ?b2 _ with _ => _ end =>
      rewrite (fold_for_ext b1 b2)
  end.
  - destruct (fold_for _ _ _ s2) as [parts s3|e s3|]; [|reflexivity..].
    cbv zeta. rewrite !heading_by_platform. unfold stock_heading.
    now rewrite Hf, Ht.
  - intros acc x st.
    destruct (Py.getitem x "股票名称" st) as [name st1|e st1|]; [|reflexivity..].
    destruct (Py.getitem x "股票代码" st1) as [code st2|e st2|]; [|reflexivity..].
    destruct (py_str name st2) as [n st3|e st3|]; [|reflexivity..].
    destruct (py_str code st3) as [c st4|e st4|]; [|reflexivity..].
    cbv zeta. rewrite !cell_by_platform. now rewrite Hf, Ht.
Qed.

(** * Further properties of the annotation *)

(** The probe never raises: it sends one ping and answers whether the
    service replied with status 200; a request that raises counts as no. *)
Theorem is_mcp_available_answers s :
  is_mcp_available s
  = Return (match http_post (trace s) ping_request with
            | Ok res => status_code res =? 200
            | Raise _ => false
            end)
           (with_event s (Posted ping_request)).
Proof.
  unfold is_mcp_available, try_except, bind, post. fold ping_request.
  now destruct (http_post (trace s) ping_request).
Qed.


(** ** What the annotation leaves alone *)

Lemma only_annotated_refl h : only_annotated h h.
Proof. intros l o Hl. destruct o; eauto. Qed.

Lemma only_annotated_trans h1 h2 h3 :
  only_annotated h1 h2 -> only_annotated h2 h3 -> only_annotated h1 h3.
Proof.
  intros H12 H23 l o Hl. specialize (H12 l o Hl). destruct o as [kvs|xs|a].
  - destruct H12 as (kvs2 & Hl2 & Hk2). destruct (H23 l _ Hl2) as (kvs3 & Hl3 & Hk3).
    exists kvs3. split; [exact Hl3|]. intros k Hk. now rewrite Hk3, Hk2.
  - exact (H23 l _ H12).
  - exact (H23 l _ H12).
Qed.

Lemma only_annotated_set h l kvs x :
  h !! l = Some (ODict kvs) -> only_annotated h (annotated_heap h l kvs x).
Proof.
  intros Hl l' o Hl'. unfold annotated_heap.
  destruct (decide (l' = l)) as [->|Hne].
  - rewrite Hl in Hl'. injection Hl' as <-.
    exists (dict_set "ai_annotation" (VJ x) kvs). split.
    + apply list_lookup_insert_eq. now apply lookup_lt_Some in Hl.
    + intros k Hk. apply assoc_dict_set_ne. congruence.
  - rewrite list_lookup_insert_ne by congruence.
    destruct o; eauto.
Qed.

Lemma only_annotated_app h h' more : only_annotated h h' -> only_annotated h (h' ++ more).
Proof.
  intros H l o Hl. specialize (H l o Hl). destruct o as [kvs|xs|a].
  - destruct H as (kvs' & Hl' & Hk). exists kvs'. split; [|exact Hk].
    now apply lookup_app_l_Some.
  - now apply lookup_app_l_Some.
  - now apply lookup_app_l_Some.
Qed.

(** The loop of [annotate_news_with_ai] over dictionaries of the store. *)
Lemma fold_for_annotated (body : list val -> Z * val -> M (list val)) :
  (forall acc i item s,
      is_dict_ref (heap s) item ->
      exists s', body acc (i, item) s = Return (acc ++ [item]) s'
                 /\ items_kept s s' /\ only_annotated (heap s) (heap s')) ->
  forall pairs acc s,
    Forall (is_dict_ref (heap s)) (snd <$> pairs) ->
    exists s', fold_for pairs acc body s = Return (acc ++ (snd <$> pairs)) s'
               /\ items_kept s s' /\ only_annotated (heap s) (heap s').
Proof.
  intros Hbody pairs. induction pairs as [|[i item] pairs IH]; intros acc s Hall.
  - exists s. simpl. rewrite app_nil_r.
    split; [reflexivity|]. split; [apply items_kept_refl | apply only_annotated_refl].
  - apply Forall_cons in Hall as [Hitem Hall].
    destruct (Hbody acc i item s Hitem) as (s1 & Hrun & Hkept & Honly).
    destruct (IH (acc ++ [item]) s1) as (s' & Hrest & Hkept' & Honly').
    { eapply Forall_impl; [exact Hall|]. apply Hkept. }
    exists s'. split; [|split].
    + cbn [fold_for]. unfold bind. rewrite Hrun, Hrest. now rewrite <- app_assoc.
    + eapply items_kept_trans; eassumption.
    + eapply only_annotated_trans; eassumption.
Qed.

Lemma annotate_loop_body_frame acc i item s :
  is_dict_ref (heap s) item ->
  exists s',
    bind (Py.get item "title" (VJ (JStr EmptyString))) (fun title =>
    bind (Py.get item "platform" (VJ (JStr EmptyString))) (fun platform =>
    bind (py_str title) (fun title =>
    bind (py_str platform) (fun platform =>
    bind (annotate_item i item (prompt_text title platform)) (fun _ =>
    ret (acc ++ [item])))))) s
    = Return (acc ++ [item]) s'
    /\ items_kept s s' /\ only_annotated (heap s) (heap s').
Proof.
  intros (l & kvs & -> & Hl).
  assert (Hf : fields_of (heap s) (VRef l) = Some kvs) by (simpl; now rewrite Hl).
  unfold bind at 1. rewrite (get_fields _ _ _ _ _ _ eq_refl Hf).
  unfold bind at 1. rewrite (get_fields _ _ _ _ _ _ eq_refl Hf).
  unfold bind at 1.
  destruct (py_str_run (field_or "title" (VJ (JStr EmptyString)) kvs) s) as [t ->].
  unfold bind at 1.
  destruct (py_str_run (field_or "platform" (VJ (JStr EmptyString)) kvs) s) as [p ->].
  destruct (annotate_item_run i l kvs (prompt_text t p) s Hl) as (s' & Hrun & Hheap & _).
  exists s'. unfold bind. rewrite Hrun. split; [reflexivity|]. split.
  - apply items_kept_heap. destruct Hheap as [H|[x H]]; [now left|].
    right. exists l, kvs. eexists. split; [exact Hl | exact H].
  - destruct Hheap as [->|[x ->]]; [apply only_annotated_refl|].
    now apply only_annotated_set.
Qed.

(** [annotate_news_with_ai] on a list of dictionaries touches nothing but
    their [ai_annotation]: every other field of every item, and every
    other object, the list it was given among them, is as before. When
    the probe says no, the list given is returned and the store is as it
    was. When the probe says yes, the list returned is a new object, the
    only one added, and holds the items of the list given. *)
Theorem annotate_touches_only_annotations news_list items s v s' :
  items_of (heap s) news_list = Some items ->
  Forall (is_dict_ref (heap s)) items ->
  annotate_news_with_ai news_list s = Return v s' ->
  only_annotated (heap s) (heap s')
  /\ (forall s1, is_mcp_available s = Return false s1 ->
                 v = news_list /\ heap s' = heap s)
  /\ (forall s1, is_mcp_available s = Return true s1 ->
                 v = VRef (length (heap s))
                 /\ length (heap s') = S (length (heap s))
                 /\ heap s' !! length (heap s) = Some (OList items)).
Proof.
  intros Hitems Hall. unfold annotate_news_with_ai. unfold bind at 1.
  destruct (is_mcp_available_run s) as [b Hb]. rewrite Hb.
  set (s1 := with_event s (Posted ping_request)).
  destruct b; cbn [negb].
  2:{ intros [= <- <-]. split; [apply only_annotated_refl|].
      split; [intros _ _; split; reflexivity | discriminate]. }
  assert (Hiter : Py.iter news_list s1 = Return items s1)
    by (apply iter_Return; split; [reflexivity | exact Hitems]).
  unfold bind at 1. rewrite Hiter. unfold bind at 1.
  edestruct (fold_for_annotated
               (fun annotated '(i, item) =>
                  bind (Py.get item "title" (VJ (JStr EmptyString))) (fun title =>
                  bind (Py.get item "platform" (VJ (JStr EmptyString))) (fun platform =>
                  bind (py_str title) (fun title =>
                  bind (py_str platform) (fun platform =>
                  bind (annotate_item i item (prompt_text title platform)) (fun _ =>
                  ret (annotated ++ [item])))))))
               (fun acc i item s => annotate_loop_body_frame acc i item s)
               (enumerate items) [] s1) as (s2 & Hloop & [Hlen Hkept] & Honly).
  { rewrite enumerate_snd. exact Hall. }
  rewrite Hloop, enumerate_snd. cbn [app]. intros [= <- <-].
  cbn [heap with_heap]. change (heap s1) with (heap s) in *. split.
  - now apply only_annotated_app.
  - split; [discriminate|]. intros _ _.
    rewrite <- Hlen. split; [reflexivity|]. split.
    + rewrite length_app. cbn [length]. lia.
    + now rewrite lookup_app_r, Nat.sub_diag by lia.
Qed.

(** ** The requests that are sent *)

Lemma posted_app tr tr' : posted (tr ++ tr') = posted tr ++ posted tr'.
Proof. apply omap_app. Qed.

Lemma anr_ret {A} (a : A) : adds_no_request (ret a).
Proof. intros s. reflexivity. Qed.

Lemma anr_throw {A} e : adds_no_request (@throw A e).
Proof. intros s. reflexivity. Qed.

Lemma anr_lift {A} (r : res A) : adds_no_request (lift r).
Proof. destruct r; [apply anr_ret | apply anr_throw]. Qed.

Lemma anr_bind {A B} (m : M A) (f : A -> M B) :
  adds_no_request m -> (forall a, adds_no_request (f a)) -> adds_no_request (bind m f).
Proof.
  intros Hm Hf s. unfold bind. specialize (Hm s).
  destruct (m s) as [a s1|e s1|]; [|exact Hm|exact I].
  specialize (Hf a s1). destruct (f a s1); [congruence | congruence | exact I].
Qed.

Lemma anr_try {A} (m : M A) (handler : exn -> M A) :
  adds_no_request m -> (forall e, adds_no_request (handler e)) ->
  adds_no_request (try_except m handler).
Proof.
  intros Hm Hh s. unfold try_except. specialize (Hm s).
  destruct (m s) as [a s1|e s1|]; [exact Hm| |exact I].
  specialize (Hh e s1). destruct (handler e s1); [congruence | congruence | exact I].
Qed.

Lemma anr_heap {A} (m : M A) :
  (forall s, match m s with
             | Return _ s' | Throw _ s' => trace s' = trace s
             | Stuck => True
             end) ->
  adds_no_request m.
Proof.
  intros Hm s. specialize (Hm s). destruct (m s); [now rewrite Hm | now rewrite Hm | exact I].
Qed.

Lemma anr_setitem v k x : adds_no_request (Py.setitem v k x).
Proof.
  apply anr_heap. intros s. unfold Py.setitem. destruct v as [j|l].
  - destruct j; reflexivity.
  - unfold bind, deref, store, throw. destruct (heap s !! l) as [[| |]|]; reflexivity.
Qed.

Lemma anr_get v k default : adds_no_request (Py.get v k default).
Proof.
  apply anr_heap. intros s.
  destruct (Py.get v k default s) as [x s'|e s'|] eqn:H; [| |exact I].
  - now apply get_Return in H as [-> _].
  - now apply get_Throw in H as ->.
Qed.

Lemma anr_py_str v : adds_no_request (py_str v).
Proof. intros s. now destruct (py_str_run v s) as [t ->]. Qed.

Lemma anr_sleep n : adds_no_request (sleep n).
Proof.
  intros s. unfold sleep, emit. cbn [trace with_event].
  rewrite posted_app. cbn. apply app_nil_r.
Qed.

Lemma anr_if {A} (b : bool) (m1 m2 : M A) :
  adds_no_request m1 -> adds_no_request m2 -> adds_no_request (if b then m1 else m2).
Proof. now destruct b. Qed.

(** The request for one item sends exactly one request, however it
    ends. *)
Lemma annotate_item_posts i item prompt s :
  match annotate_item i item prompt s with
  | Return _ s' | Throw _ s' =>
      posted (trace s') = posted (trace s) ++ [invoke_request i prompt]
  | Stuck => True
  end.
Proof.
  assert (Hsent : posted (trace (with_event s (Posted (invoke_request i prompt))))
                  = posted (trace s) ++ [invoke_request i prompt]).
  { cbn [trace with_event]. now rewrite posted_app. }
  unfold annotate_item. fold (invoke_request i prompt).
  match goal with
  | |- match try_except (bind _ ?k) ?h s with _ => _ end =>
      assert (Hk : forall res, adds_no_request (try_except (k res) h));
      [|unfold try_except at 1, bind at 1, post;
        destruct (http_post (trace s) (invoke_request i prompt)) as [res|e];
        [specialize (Hk res (with_event s (Posted (invoke_request i prompt))));
         unfold try_except at 1 in Hk|]]
  end.
  - intros res. apply anr_try; [|intros e; apply anr_setitem].
    apply anr_bind; [|intros _; apply anr_sleep].
    apply anr_if; [|apply anr_ret].
    apply anr_bind; [apply anr_lift | intros result].
    apply anr_bind; [apply anr_lift | intros has_result].
    apply anr_bind.
    { apply anr_if; [|apply anr_ret].
      apply anr_bind; [apply anr_lift | intros inner; apply anr_lift]. }
    intros has_content. apply anr_if; [|apply anr_ret].
    apply anr_try; [|intros _; apply anr_setitem].
    apply anr_bind; [apply anr_lift | intros inner].
    apply anr_bind; [apply anr_lift | intros content].
    apply anr_bind; [apply anr_lift | intros ai_data; apply anr_setitem].
  - match goal with
    | |- match match ?o with _ => _ end with _ => _ end =>
        destruct o as [u s1|e s1|]; [| |exact I]
    end.
    + now rewrite Hk.
    + match goal with
      | |- match ?o with _ => _ end => destruct o; [| |exact I]
      end; now rewrite Hk.
  - pose proof (anr_setitem item "ai_annotation" (VJ (error_marker e))
                  (with_event s (Posted (invoke_request i prompt)))) as Hset.
    destruct (Py.setitem _ _ _ _); [| |exact I]; now rewrite Hset.
Qed.

Lemma enumerate_fst {A} (xs : list A) :
  fst <$> enumerate xs = Z.of_nat <$> seq 0 (length xs).
Proof.
  unfold enumerate. generalize 0%nat. induction xs as [|x xs IH]; intros k; simpl.
  - reflexivity.
  - f_equal. apply IH.
Qed.

Lemma annotate_loop_posts (items : list (Z * val)) :
  forall acc s acc' s',
    fold_for items acc (fun annotated '(i, item) =>
      bind (Py.get item "title" (VJ (JStr EmptyString))) (fun title =>
      bind (Py.get item "platform" (VJ (JStr EmptyString))) (fun platform =>
      bind (py_str title) (fun title =>
      bind (py_str platform) (fun platform =>
      bind (annotate_item i item (prompt_text title platform)) (fun _ =>
      ret (annotated ++ [item]))))))) s = Return acc' s' ->
    exists reqs,
      posted (trace s') = posted (trace s) ++ reqs
      /\ Forall2 (fun p r => exists prompt, r = invoke_request p.1 prompt) items reqs.
Proof.
  induction items as [|[i item] items IH]; intros acc s acc' s' H; cbn [fold_for] in H.
  - injection H as <- <-. exists []. split; [now rewrite app_nil_r | constructor].
  - apply bind_Return in H as (acc1 & s1 & Hbody & Hrest).
    apply bind_Return in Hbody as (title & s0 & Hget & Hbody).
    apply get_Return in Hget as [-> _].
    apply bind_Return in Hbody as (platform & s0 & Hget & Hbody).
    apply get_Return in Hget as [-> _].
    apply bind_Return in Hbody as (t & s0 & Hstr & Hbody).
    apply py_str_pure in Hstr as ->.
    apply bind_Return in Hbody as (p & s0 & Hstr & Hbody).
    apply py_str_pure in Hstr as ->.
    apply bind_Return in Hbody as (u & s2 & Hitem & [= <- <-]).
    pose proof (annotate_item_posts i item (prompt_text t p) s) as Hposts.
    rewrite Hitem in Hposts.
    destruct (IH _ _ _ _ Hrest) as (reqs & Htrace & Hall).
    exists (invoke_request i (prompt_text t p) :: reqs). split.
    + rewrite Htrace, Hposts. now rewrite <- app_assoc.
    + constructor; [eauto | exact Hall].
Qed.

(** When the service is there, [annotate_news_with_ai] sends, after the
    ping, exactly one request per item, in the order of the list, each
    with the method [mcp/invoke_tool], numbered from 1: a request that
    fails is not sent again and no item is passed over. *)
Theorem annotate_sends_one_request_per_item news_list items s s1 v s' :
  is_mcp_available s = Return true s1 ->
  items_of (heap s) news_list = Some items ->
  annotate_news_with_ai news_list s = Return v s' ->
  exists reqs,
    posted (trace s') = posted (trace s) ++ ping_request :: reqs
    /\ req_id <$> reqs = (fun i => Z.of_nat i + 1) <$> seq 0 (length items)
    /\ Forall (fun r => req_method r = "mcp/invoke_tool") reqs.
Proof.
  intros Hprobe Hitems. unfold annotate_news_with_ai.
  destruct (is_mcp_available_run s) as [b Hb]. rewrite Hb in Hprobe.
  injection Hprobe as -> <-.
  unfold bind at 1. rewrite Hb. cbn [negb].
  assert (Hiter : Py.iter news_list (with_event s (Posted ping_request))
                  = Return items (with_event s (Posted ping_request)))
    by (apply iter_Return; split; [reflexivity | exact Hitems]).
  unfold bind at 1. rewrite Hiter. intros H.
  apply bind_Return in H as (annotated & s2 & Hloop & [= _ <-]).
  apply annotate_loop_posts in Hloop as (reqs & Htrace & Hall).
  exists reqs. cbn [trace with_heap]. split; [|split].
  - rewrite Htrace. cbn [trace with_event]. rewrite posted_app.
    now rewrite <- app_assoc.
  - transitivity ((fun z => z + 1) <$> (fst <$> enumerate items)).
    + rewrite <- list_fmap_compose. clear Htrace.
      induction Hall as [|[i item] r pairs reqs [prompt ->] Hrest IH]; [reflexivity|].
      cbn [fmap list_fmap]. f_equal. exact IH.
    + rewrite enumerate_fst, <- list_fmap_compose. reflexivity.
  - clear Htrace. induction Hall as [|[i item] r pairs reqs [prompt ->] Hrest IH];
      constructor; [reflexivity | exact IH].
Qed.

(** * Further properties of add_ai_html_blocks *)

Lemma append_empty_r s : s +:+ EmptyString = s.
Proof.
  induction s as [|a s IH]; [reflexivity|].
  change (String a (s +:+ EmptyString) = String a s). f_equal. exact IH.
Qed.

Lemma string_of_list_snoc l a s :
  string_of_list_ascii (l ++ [a]) +:+ s = string_of_list_ascii l +:+ String a s.
Proof.
  induction l as [|b l IH]; [reflexivity|].
  change (String b (string_of_list_ascii (l ++ [a]) +:+ s)
          = String b (string_of_list_ascii l +:+ String a s)).
  f_equal. exact IH.
Qed.

(** Joining what [split] cut gives the text back. *)
Lemma join_split_go s cur :
  Text.join Text.nl (Text.split_go Text.nl s 0 cur)
  = string_of_list_ascii (rev cur) +:+ s.
Proof.
  revert cur. induction s as [|a s IH]; intros cur.
  - cbn [Text.split_go Text.join]. now rewrite append_empty_r.
  - rewrite split_go_nl_cons. destruct (Ascii.eqb_spec (Text.byte 10) a) as [<-|Hne].
    + pose proof (split_go_nonempty Text.nl s 0 []) as Hnonempty.
      specialize (IH []). destruct (Text.split_go Text.nl s 0 []) as [|p ps]; [congruence|].
      cbn [Text.join] in *. rewrite IH. reflexivity.
    + rewrite IH. cbn [rev]. apply string_of_list_snoc.
Qed.

Lemma join_split s : Text.join Text.nl (Text.split Text.nl s) = s.
Proof. unfold Text.split. now rewrite join_split_go. Qed.

Lemma fold_for_idle {A B} (P : A -> Prop) (body : B -> A -> M B) s :
  (forall acc x, P x -> body acc x s = Return acc s) ->
  forall xs acc, Forall P xs -> fold_for xs acc body s = Return acc s.
Proof.
  intros Hbody xs. induction xs as [|x xs IH]; intros acc Hall; [reflexivity|].
  apply Forall_cons in Hall as [Hx Hall].
  cbn [fold_for]. unfold bind. rewrite (Hbody acc x Hx). now apply IH.
Qed.

Lemma fold_for_lines (P : string -> Prop) (body : list string -> string -> M (list string)) s :
  (forall acc line, P line -> body acc line s = Return (acc ++ [line]) s) ->
  forall lines acc, Forall P lines -> fold_for lines acc body s = Return (acc ++ lines) s.
Proof.
  intros Hbody lines. induction lines as [|line lines IH]; intros acc Hall.
  - cbn [fold_for]. unfold ret. now rewrite app_nil_r.
  - apply Forall_cons in Hall as [Hline Hall].
    cbn [fold_for]. unfold bind. rewrite (Hbody acc line Hline), (IH _ Hall).
    now rewrite <- app_assoc.
Qed.

Lemma item_blocks_not_annotated title_match acc item s :
  not_annotated (heap s) item -> item_blocks title_match acc item s = Return acc s.
Proof.
  intros (fields & Hf & [t Ht] & Hann). unfold item_blocks.
  unfold bind at 1. rewrite (get_fields _ _ _ _ _ _ eq_refl Hf), Ht.
  unfold bind at 1. cbn [Py.contains Json.contains lift ret].
  destruct (Text.contains title_match t).
  - destruct (contains_fields "ai_annotation" item s fields Hf) as [b Hb].
    unfold bind at 1. rewrite Hb.
    assert (b = false) as ->.
    { destruct b; [|reflexivity].
      destruct (proj1 (contains_key _ _ _ _ _ Hf Hb) eq_refl) as [x Hx]. congruence. }
    reflexivity.
  - reflexivity.
Qed.

(** A report without list items that hold a link comes back as it is,
    whatever the groups are: they are not looked at. *)
Theorem add_ai_html_blocks_no_news_lines html_content news_groups s :
  Forall (fun line => is_news_line line = false) (Text.split Text.nl html_content) ->
  add_ai_html_blocks html_content news_groups s = Return html_content s.
Proof.
  intros Hall. unfold add_ai_html_blocks. cbv zeta. unfold bind at 1.
  erewrite (fold_for_lines (fun line => is_news_line line = false)).
  - unfold ret. cbn [app]. now rewrite join_split.
  - intros acc line Hline. now rewrite Hline.
  - exact Hall.
Qed.

(** When no news item carries an annotation, as after a run in which the
    service was not there, the report comes back as it is. *)
Theorem add_ai_html_blocks_without_annotations html_content news_groups s items :
  news_items (heap s) news_groups items ->
  Forall (not_annotated (heap s)) items ->
  add_ai_html_blocks html_content news_groups s = Return html_content s.
Proof.
  intros (groups & per_group & Hgroups & Hper & ->) Hall.
  apply Forall_concat in Hall.
  assert (Hiter : Py.iter news_groups s = Return groups s) by (apply iter_Return; auto).
  unfold add_ai_html_blocks. cbv zeta. unfold bind at 1.
  erewrite (fold_for_lines (fun _ => True)).
  - unfold ret. cbn [app]. now rewrite join_split.
  - intros acc line _. destruct (is_news_line line); [|reflexivity].
    destruct (title_match_total line) as [tm ->]. unfold bind at 1. cbn [lift ret].
    unfold bind at 1. rewrite Hiter.
    clear Hgroups Hiter. revert Hall.
    induction Hper as [|group news groups per_group Hg Hrest IH]; intros Hall.
    + reflexivity.
    + apply Forall_cons in Hall as [Hnews Hall].
      destruct Hg as (fields & Hf & Hitems).
      cbn [fold_for]. unfold bind at 1. unfold bind at 1.
      rewrite (get_fields _ _ _ _ _ _ eq_refl Hf).
      assert (Hiter : Py.iter (field_or "news" (VJ (JList [])) fields) s = Return news s)
        by (apply iter_Return; auto).
      unfold bind at 1. rewrite Hiter.
      rewrite (fold_for_idle (not_annotated (heap s)) _ s
                 (fun acc0 item => item_blocks_not_annotated tm acc0 item s) news _ Hnews).
      now apply IH.
  - apply Forall_forall. intros; exact I.
Qed.

Lemma bind_run {A B} (m : M A) (f : A -> M B) s a s1 :
  m s = Return a s1 -> bind m f s = f a s1.
Proof. intros H. unfold bind. now rewrite H. Qed.

Lemma contains_empty t : Text.contains EmptyString t = true.
Proof. apply contains_starts. now destruct t. Qed.

Lemma contains_self t : Text.contains t t = true.
Proof.
  apply contains_spec. exists EmptyString, EmptyString.
  change (t = t +:+ EmptyString). now rewrite append_empty_r.
Qed.

(** A list item whose link is not written with a double quote before [>]
    and a closing [</a>] has the empty anchor text, and the empty text
    occurs in every title: for such a line every item counts as the one
    the line is about, as if the anchor text were the item's own title. *)
Theorem unanchored_line_matches_every_item line :
  Text.contains (Text.dq +:+ ">") line && Text.contains "</a>" line = false ->
  title_match_of line = Ok EmptyString
  /\ forall acc item s fields t,
      fields_of (heap s) item = Some fields ->
      field_or "title" (VJ (JStr EmptyString)) fields = VJ (JStr t) ->
      item_blocks EmptyString acc item s = item_blocks t acc item s.
Proof.
  intros Hline. split.
  - unfold title_match_of. now rewrite Hline.
  - intros acc item s fields t Hf Ht.
    assert (Hget : Py.get item "title" (VJ (JStr EmptyString)) s = Return (VJ (JStr t)) s)
      by now rewrite (get_fields _ _ _ _ _ _ eq_refl Hf), Ht.
    assert (Hempty : Py.contains EmptyString (VJ (JStr t)) s = Return true s)
      by (cbn [Py.contains Json.contains lift]; now rewrite contains_empty).
    assert (Hself : Py.contains t (VJ (JStr t)) s = Return true s)
      by (cbn [Py.contains Json.contains lift]; now rewrite contains_self).
    unfold item_blocks.
    rewrite !(bind_run _ _ _ _ _ Hget).
    now rewrite (bind_run _ _ _ _ _ Hempty), (bind_run _ _ _ _ _ Hself).
Qed.

End Program.

(** * The properties at the sample inputs *)

Example split_lines :
  Text.split Text.nl ("a" +:+ Text.nl +:+ "b" +:+ Text.nl) = ["a"; "b"; EmptyString].
Proof. reflexivity. Qed.

Example split_anchor :
  Text.split (Text.dq +:+ ">") ("<li><a href=" +:+ Text.dq +:+ "u" +:+ Text.dq +:+ ">T</a>")
  = ["<li><a href=" +:+ Text.dq +:+ "u"; "T</a>"].
Proof. reflexivity. Qed.

Example strip_both :
  Text.strip ("  " +:+ Text.enc3 227 128 128 +:+ "<li> x " +:+ Text.nl) = "<li> x".
Proof. reflexivity. Qed.

Example chars_mixed : Text.chars "a股b" = ["a"; "股"; "b"].
Proof. reflexivity. Qed.

Example title_match_sample :
  title_match_of ("  <li><a href=" +:+ Text.dq +:+ "u" +:+ Text.dq +:+ ">芯片</a></li>")
  = Ok "芯片".
Proof. reflexivity. Qed.

Example sort_is_stable :
  stable_sort_desc [(1, "a"); (2, "b"); (1, "c"); (2, "d"); (3, "e")]
  = [(3, "e"); (2, "b"); (2, "d"); (1, "a"); (1, "c")].
Proof. reflexivity. Qed.

Example format_telegram :
  format_stock_info Sample.repr (VJ (JList [Sample.entry "A" "001" []])) "telegram"
                    Sample.state0
  = Return " <b>相关股票:</b> <b>[A(001)]</b>" Sample.state0.
Proof. reflexivity. Qed.

Example incomplete_entry_raises :
  find_related_stocks Sample.lower Sample.incomplete (JStr Sample.title)
  = Raise (Exn KeyError "'股票代码'").
Proof. reflexivity. Qed.

Lemma find_related_top_ranked_witness :
  exists rs,
    find_related_stocks Sample.lower Sample.tables (JStr Sample.title) = Ok rs
    /\ exists title_lower entries,
        str_lower Sample.lower (JStr Sample.title) = Ok title_lower
        /\ Json.iter (stock_mappings Sample.tables) = Ok entries
        /\ top_ranked 3 (stock_hit Sample.lower title_lower) entries rs.
Proof.
  destruct (find_related_top_ranked Sample.lower Sample.tables (JStr Sample.title))
    as (Hreturns & Hranked & _).
  destruct (Hreturns Sample.title _ eq_refl eq_refl) as [rs Hrun].
  { repeat constructor. }
  exists rs. split; [exact Hrun|]. exact (Hranked rs Hrun).
Defined.

Lemma collected_strength_counts_witness :
  exists cs,
    collect_related_stocks Sample.lower Sample.repeated (JStr "芯片") = Ok cs
    /\ collected_counts Sample.lower (stock_hit Sample.lower) (found_count Sample.lower)
         (stock_mappings Sample.repeated) (JStr "芯片") cs.
Proof.
  destruct (collected_strength_counts Sample.lower Sample.repeated (JStr "芯片"))
    as (Hreturns & Hcounts & _).
  destruct (Hreturns "芯片" _ eq_refl eq_refl) as [cs Hrun].
  { repeat constructor. }
  exists cs. split; [exact Hrun|]. exact (Hcounts cs Hrun).
Defined.

(** C2, as stated: an entry that lists 芯片 twice gets strength 2 for the
    title 芯片, where one different keyword occurs. *)
Lemma strength_counts_distinct_fails :
  ~ strength_counts_distinct Sample.lower Sample.repeated (JStr "芯片").
Proof.
  intros H. specialize (H _ eq_refl).
  destruct H as (tl & entries & hits & Htl & Hit & Hall & Hcs).
  injection Htl as <-. injection Hit as <-.
  inversion Hall as [|e h es hs Hh Hrest]; subst.
  inversion Hrest; subst. destruct Hh as (Hhit & kws & Hkws & _ & Hcount).
  injection Hkws as <-. vm_compute in Hhit. injection Hhit as <-.
  specialize (Hcount _ eq_refl). vm_compute in Hcount. discriminate.
Qed.

Lemma find_related_returns_witness :
  (exists rs, find_related_stocks Sample.lower Sample.tables (JStr Sample.title) = Ok rs)
  /\ ~ (exists rs, find_related_stocks Sample.lower Sample.incomplete (JStr Sample.title)
                   = Ok rs).
Proof.
  split.
  - apply (proj1 (find_related_returns_iff_entries_ok Sample.lower Sample.tables Sample.title)).
    eexists. split; [reflexivity|]. repeat constructor.
  - intros H.
    apply (proj1 (find_related_returns_iff_entries_ok
                    Sample.lower Sample.incomplete Sample.title)) in H.
    destruct H as (entries & Hit & Hall). injection Hit as <-.
    inversion Hall as [|e es He _]; subst. discriminate.
Defined.




Example annotate_flaky_marks_both :
  exists s',
    annotate_news_with_ai Sample.json_loads Sample.http_flaky Sample.repr (VRef 4)
                          Sample.state0 = Return (VRef 9) s'
    /\ fields_of (heap s') (VRef 1)
       = Some [("title", VJ (JStr Sample.title)); ("platform", VJ (JStr "weibo"));
               ("ai_annotation",
                VJ (JDict [("error", JStr "Read timed out")]))]
    /\ fields_of (heap s') (VRef 2)
       = Some [("title", VJ (JStr "锂电池出口增长")); ("platform", VJ (JStr "weibo"));
               ("ai_annotation", VJ parse_failed)]
    /\ heap s' !! 9%nat = Some (OList [VRef 1; VRef 2]).
Proof. eexists. split; [vm_compute; reflexivity|]. repeat split. Qed.

Lemma associate_title_copies_witness :
  exists v s',
    associate_title_with_stocks Sample.lower (VRef 0) (VRef 1) Sample.state0 = Return v s'
    /\ v = VRef 9
    /\ associate_title_with_stocks Sample.lower (VRef 0) (VRef 3) Sample.state0
       = Return (VRef 3) Sample.state0.
Proof.
  destruct (associate_title_with_stocks_copies
              Sample.lower (VRef 0) (VRef 1) Sample.state0 _ eq_refl)
    as (_ & Hcopy & _ & Hreturns).
  destruct (Hreturns Sample.tables Sample.title eq_refl) as (v & s' & Hrun).
  { exists 0%nat. split; reflexivity. }
  { split; eexists; (split; [reflexivity|]); repeat constructor. }
  exists v, s'. split; [exact Hrun|].
  destruct (Hcopy v s' Hrun eq_refl) as (a & j & rs & ri & _ & _ & _ & _ & -> & _).
  split; [reflexivity|].
  apply (associate_title_with_stocks_copies
           Sample.lower (VRef 0) (VRef 3) Sample.state0 _ eq_refl).
  reflexivity.
Defined.


(** A file that is not JSON: the tables stay empty. *)
Example init_broken_file :
  exists line,
    StockAssociator_init Sample.json_loads Sample.path_str Sample.path_exists Sample.read_text
      Sample.environ (Some "broken.json") Sample.state0
    = Return (VRef 9)
        (with_event (with_heap Sample.state0
                       (Sample.store0 ++ [OAssoc (fresh_associator "broken.json")]))
                    (Printed line))
    /\ is_warning "broken.json" line.
Proof.
  eexists. split; [vm_compute; reflexivity|]. right.
  exists (Exn ValueError "Expecting value: line 1 column 1 (char 0)"). reflexivity.
Qed.

Lemma format_stock_info_empty_witness :
  format_stock_info Sample.repr (VJ (JList [])) "no such platform" Sample.state0
  = Return EmptyString Sample.state0.
Proof.
  apply (format_stock_info_empty Sample.repr (VJ (JList [])) "no such platform" Sample.state0).
  left. reflexivity.
Defined.

Lemma add_ai_html_blocks_witness :
  exists out,
    add_ai_html_blocks Sample.repr Sample.html Sample.groups Sample.state0
    = Return out Sample.state0
    /\ Text.split Text.nl Sample.html `sublist_of` Text.split Text.nl out.
Proof.
  destruct (add_ai_html_blocks_keeps_lines
              Sample.repr Sample.html Sample.groups Sample.state0) as [Hreturns Hlines].
  destruct Hreturns as [out Hrun].
  - eexists. split; [reflexivity|]. constructor; [|constructor].
    eexists _, _. split; [reflexivity|]. split; [reflexivity|].
    constructor; [|constructor; [|constructor; [|constructor]]].
    + eexists. split; [reflexivity|]. split; [eexists; reflexivity|].
      intros ann [= <-]. right. eexists. split; [reflexivity|]. right.
      split; [exists ["半导体"; "设备"] | exists ["暂无明确小盘标的"]]; reflexivity.
    + eexists. split; [reflexivity|]. split; [eexists; reflexivity|].
      intros ann [= <-]. right. eexists. split; [reflexivity|]. left.
      eexists. reflexivity.
    + eexists. split; [reflexivity|]. split; [eexists; reflexivity|].
      intros ann [=].
  - exists out. split; [exact Hrun|].
    destruct (Hlines out Sample.state0 Hrun) as (_ & blocks & _ & _ & Hsub). exact Hsub.
Defined.

(** C9, as stated: a list item with a class holds a link whose text
    occurs in the title of an annotated item, and no block follows it. *)
Lemma blocks_follow_linked_items_fails :
  ~ blocks_follow_linked_items Sample.repr Sample.classed_html Sample.groups Sample.state0.
Proof.
  intros H.
  specialize (H Sample.classed_html Sample.classed_line "芯片"
                [VJ (JDict [("title", JStr "芯片电池技术突破");
                            ("ai_annotation", Sample.annotation)]);
                 VJ (JDict [("title", JStr "芯片价格"); ("ai_annotation", parse_failed)]);
                 VJ (JDict [("title", JStr "芯片出口")])]
                (VJ (JDict [("title", JStr "芯片电池技术突破");
                            ("ai_annotation", Sample.annotation)]))
                (VJ Sample.annotation)
                (annotation_block "技术突破" "半导体, 设备" "暂无明确小盘标的" "信息未证实")).
  assert (Hout : Text.contains
                   (Sample.classed_line +:+ Text.nl
                    +:+ annotation_block "技术突破" "半导体, 设备" "暂无明确小盘标的"
                          "信息未证实")
                   Sample.classed_html = false) by (vm_compute; reflexivity).
  apply not_true_iff_false in Hout. apply Hout. apply contains_spec. apply H.
  - vm_compute. reflexivity.
  - assert (Hlines : Text.split Text.nl Sample.classed_html
                     = ["<ul>"; Sample.classed_line; "</ul>"]) by (vm_compute; reflexivity).
    rewrite Hlines. right. left.
  - right. exists ("class=" +:+ Text.dq +:+ "n" +:+ Text.dq +:+ "><a href=" +:+ Text.dq
                   +:+ "u1" +:+ Text.dq +:+ ">芯片</a></li>").
    vm_compute. reflexivity.
  - split; apply contains_spec; vm_compute; reflexivity.
  - exists ("<li class=" +:+ Text.dq +:+ "n" +:+ Text.dq +:+ ">"),
           ("href=" +:+ Text.dq +:+ "u1" +:+ Text.dq), "</li>".
    split; [vm_compute; reflexivity|].
    split; intros Hocc; apply contains_spec in Hocc; vm_compute in Hocc; discriminate.
  - eexists _, [[_; _; _]]. split; [reflexivity|]. split; [|reflexivity].
    constructor; [|constructor]. eexists. split; reflexivity.
  - left.
  - eexists. split; [reflexivity|]. split; [vm_compute; reflexivity|].
    split; [reflexivity|]. split; reflexivity.
  - eexists _, _, _, _, _. split; [reflexivity|].
    split; [reflexivity|]. split; [vm_compute; reflexivity|].
    split; [vm_compute; reflexivity|]. split; reflexivity.
Qed.

Example add_ai_html_blocks_sample :
  add_ai_html_blocks Sample.repr Sample.html Sample.groups Sample.state0
  = Return (Text.join Text.nl
              ["<ul>";
               "  <li><a href=" +:+ Text.dq +:+ "u" +:+ Text.dq +:+ ">芯片</a></li>";
               annotation_block "技术突破" "半导体, 设备" "暂无明确小盘标的" "信息未证实";
               "</ul>"])
           Sample.state0.
Proof. vm_compute. reflexivity. Qed.

(** * The further properties at the sample inputs *)

Lemma find_related_same_lowered_title_witness :
  find_related_stocks Sample.lower Sample.tables (JStr "AI芯片")
  = find_related_stocks Sample.lower Sample.tables (JStr "ai芯片")
  /\ find_related_industries Sample.lower Sample.tables (JStr "AI芯片")
     = find_related_industries Sample.lower Sample.tables (JStr "ai芯片").
Proof.
  apply (find_related_same_lowered_title Sample.lower Sample.tables "AI芯片" "ai芯片").
  reflexivity.
Defined.

Lemma find_related_records_witness :
  exists rs r,
    find_related_stocks Sample.lower Sample.tables (JStr Sample.title) = Ok rs
    /\ r ∈ rs
    /\ exists name code matched,
        r = JDict [("股票代码", code);
                   ("股票名称", name);
                   ("匹配关键词", JList (JStr <$> matched));
                   ("匹配强度", JInt (Z.of_nat (length matched)))]
        /\ matched <> [].
Proof.
  assert (H : exists rs r,
             find_related_stocks Sample.lower Sample.tables (JStr Sample.title) = Ok rs
             /\ r ∈ rs).
  { eexists _, _. split; [vm_compute; reflexivity|]. left. }
  destruct H as (rs & r & Hrun & Hr). exists rs, r.
  split; [exact Hrun|]. split; [exact Hr|].
  destruct (proj1 (find_related_records Sample.lower Sample.tables (JStr Sample.title))
              rs r Hrun Hr)
    as (tl & entries & e & name & code & kws & matched & _ & _ & _ & _ & _ & _ & Hrec & _
        & Hne & _).
  exists name, code, matched. split; [exact Hrec | exact Hne].
Defined.

Lemma empty_keyword_matches_every_title_witness :
  exists r,
    stock_hit Sample.lower (Sample.lower "任何标题") (Sample.entry "A" "001" [EmptyString])
    = Ok (Some r).
Proof.
  destruct (proj1 (empty_keyword_matches_every_title
                     Sample.lower SampleExtra.blank "任何标题"
                     (Sample.entry "A" "001" [EmptyString]) [EmptyString] EmptyString
                     eq_refl (list_elem_of_here _ _) eq_refl)
              [stock_record (JStr "001") (JStr "A") [JStr EmptyString]]
              [Sample.entry "A" "001" [EmptyString]])
    as (r & _ & Hhit).
  - vm_compute. reflexivity.
  - reflexivity.
  - left.
  - exists r. exact Hhit.
Defined.


Lemma associate_title_twice_witness :
  exists v s1 v2 s2,
    associate_title_with_stocks Sample.lower (VRef 0) (VRef 1) Sample.state0 = Return v s1
    /\ associate_title_with_stocks Sample.lower (VRef 0) v s1 = Return v2 s2
    /\ fields_of (heap s2) v2 = fields_of (heap s1) v.
Proof.
  assert (H : exists v s1,
             associate_title_with_stocks Sample.lower (VRef 0) (VRef 1) Sample.state0
             = Return v s1)
    by (eexists _, _; vm_compute; reflexivity).
  destruct H as (v & s1 & Hrun).
  destruct (associate_title_twice Sample.lower (VRef 0) (VRef 1) Sample.state0 v s1 Hrun)
    as (v2 & s2 & Hrun2 & Hsame).
  exists v, s1, v2, s2. auto.
Defined.




Lemma associate_news_loads_config_once_witness :
  exists v s',
    associate_news_with_stocks Sample.lower Sample.json_loads Sample.path_str Sample.path_exists
      Sample.read_text Sample.environ (VRef 7) Sample.state0 = Return v s'
    /\ trace s' = [] /\ stock_associator_global s' = Some 0%nat.
Proof.
  assert (H : exists v s',
             associate_news_with_stocks Sample.lower Sample.json_loads Sample.path_str Sample.path_exists
               Sample.read_text Sample.environ (VRef 7) Sample.state0 = Return v s')
    by (eexists _, _; vm_compute; reflexivity).
  destruct H as (v & s' & Hrun). exists v, s'. split; [exact Hrun|].
  exact (proj1 (associate_news_loads_config_once
                  Sample.lower Sample.json_loads Sample.path_str Sample.path_exists Sample.read_text
                  Sample.environ (VRef 7) Sample.state0 v s' Hrun) 0%nat eq_refl).
Defined.

Lemma format_stock_info_renders_witness :
  format_stock_info Sample.repr
    (VJ (JList [Sample.entry "A" "001" []; Sample.entry "B" "002" []])) "telegram"
    Sample.state0
  = Return " <b>相关股票:</b> <b>[A(001)]</b> <b>[B(002)]</b>" Sample.state0.
Proof.
  apply (format_stock_info_renders Sample.repr _ "telegram" Sample.state0
           [VJ (Sample.entry "A" "001" []); VJ (Sample.entry "B" "002" [])]
           [("A", "001"); ("B", "002")]).
  - reflexivity.
  - discriminate.
  - repeat constructor; eexists _, _, _; repeat split; reflexivity.
Defined.

Lemma format_stock_info_missing_key_witness :
  format_stock_info Sample.repr SampleExtra.stocks_without_code "feishu" Sample.state0
  = Throw (Exn KeyError "'股票代码'") Sample.state0.
Proof.
  apply (format_stock_info_missing_key Sample.repr SampleExtra.stocks_without_code
           "feishu" Sample.state0
           [VJ (Sample.entry "A" "001" [])] [("A", "001")]
           (VJ (JDict [("股票名称", JStr "B")])) "股票代码" []).
  - reflexivity.
  - repeat constructor; eexists _, _, _; repeat split; reflexivity.
  - eexists. split; [reflexivity|]. right. split; [eexists; reflexivity|]. split; reflexivity.
Defined.

Lemma format_stock_info_plain_platforms_witness :
  format_stock_info Sample.repr (VJ (JList [Sample.entry "A" "001" []])) "slack"
    Sample.state0
  = format_stock_info Sample.repr (VJ (JList [Sample.entry "A" "001" []])) "ntfy"
      Sample.state0.
Proof.
  apply (format_stock_info_plain_platforms Sample.repr _ "slack" Sample.state0);
    discriminate.
Defined.


Lemma annotate_touches_only_annotations_witness :
  exists v s',
    annotate_news_with_ai Sample.json_loads Sample.http_flaky Sample.repr (VRef 4)
      Sample.state0 = Return v s'
    /\ only_annotated Sample.store0 (heap s')
    /\ v = VRef 9
    /\ heap s' !! 9%nat = Some (OList [VRef 1; VRef 2]).
Proof.
  assert (H : exists v s',
             annotate_news_with_ai Sample.json_loads Sample.http_flaky Sample.repr (VRef 4)
               Sample.state0 = Return v s')
    by (eexists _, _; vm_compute; reflexivity).
  destruct H as (v & s' & Hrun). exists v, s'. split; [exact Hrun|].
  destruct (annotate_touches_only_annotations Sample.json_loads Sample.http_flaky
              Sample.repr (VRef 4) [VRef 1; VRef 2] Sample.state0 v s')
    as (Honly & _ & Hnew).
  - reflexivity.
  - repeat constructor; eexists _, _; split; reflexivity.
  - exact Hrun.
  - destruct (Hnew _ eq_refl) as (Hv & _ & Hlist).
    split; [exact Honly|]. split; [exact Hv | exact Hlist].
Defined.

Lemma annotate_sends_one_request_per_item_witness :
  exists v s' reqs,
    annotate_news_with_ai Sample.json_loads Sample.http_flaky Sample.repr (VRef 4)
      Sample.state0 = Return v s'
    /\ posted (trace s') = ping_request :: reqs
    /\ req_id <$> reqs = [1; 2].
Proof.
  assert (H : exists v s',
             annotate_news_with_ai Sample.json_loads Sample.http_flaky Sample.repr (VRef 4)
               Sample.state0 = Return v s')
    by (eexists _, _; vm_compute; reflexivity).
  destruct H as (v & s' & Hrun).
  destruct (annotate_sends_one_request_per_item
              Sample.json_loads Sample.http_flaky Sample.repr (VRef 4) [VRef 1; VRef 2]
              Sample.state0 (with_event Sample.state0 (Posted ping_request)) v s')
    as (reqs & Hposted & Hids & _).
  - reflexivity.
  - reflexivity.
  - exact Hrun.
  - exists v, s', reqs. split; [exact Hrun|]. split; [exact Hposted | exact Hids].
Defined.

Lemma add_ai_html_blocks_no_news_lines_witness :
  add_ai_html_blocks Sample.repr SampleExtra.plain_html (VJ JNull) Sample.state0
  = Return SampleExtra.plain_html Sample.state0.
Proof.
  apply (add_ai_html_blocks_no_news_lines Sample.repr SampleExtra.plain_html (VJ JNull)
           Sample.state0).
  repeat constructor.
Defined.

Lemma add_ai_html_blocks_without_annotations_witness :
  add_ai_html_blocks Sample.repr Sample.html SampleExtra.plain_groups Sample.state0
  = Return Sample.html Sample.state0.
Proof.
  apply (add_ai_html_blocks_without_annotations Sample.repr Sample.html
           SampleExtra.plain_groups Sample.state0
           [VJ (JDict [("title", JStr "芯片电池技术突破")]);
            VJ (JDict [("title", JStr "芯片出口")])]).
  - eexists _, [[_; _]; []]. split; [reflexivity|]. split; [|reflexivity].
    repeat constructor; eexists; split; reflexivity.
  - repeat constructor; eexists; (split; [reflexivity|]); (split; [eexists|]); reflexivity.
Defined.

Lemma unanchored_line_matches_every_item_witness :
  title_match_of SampleExtra.unquoted_line = Ok EmptyString.
Proof.
  apply (unanchored_line_matches_every_item Sample.repr SampleExtra.unquoted_line).
  reflexivity.
Defined.
